(** * Content validation and completeness scoring of the portfolio generator

    A shallow embedding of the content validation module
    ([validateContentFile], [validateProfile], [validateSkills],
    [validateCollection], [validateAllContent],
    [validateContentCompleteness]) and of the build script
    [scripts/validate-content.js] ([getContentCounts], [runValidation],
    [watchContent], [main]), followed by the properties proved of them.
    The helpers around the validation are embedded too:
    [checkMissingContent], the asset and link checks of
    [ContentIntegrityChecker], the build-time validation ([validateForBuild],
    [validateForDev], the middleware, [validateForCommit],
    [getContentHealthReport]), the data checks of [ProjectHelpers] and
    [ExperienceHelpers], [checkCompanyLogo], [getFeaturedProjects] and
    [getProjectStats], the date helpers ([isValidDateFormat],
    [normalizeDateString], [calculateDuration], [getRelativeTime]), the
    error collector and [handleValidationResult], the theme functions,
    [getCurrentSection] and the scroll handlers of the navigation, and the
    schemas of the site's content collections.

    Modelling conventions.
    - JavaScript values coming out of the YAML front-matter are the inductive
      [value]: scalars, arrays, mappings, and the [Date] that YAML makes of an
      unquoted timestamp; YAML numbers are restricted to integers ([Z]).  A
      mapping is an association list in the order of its keys.
    - A string is the sequence of its code units, restricted to ASCII:
      [String.length] is the JS [.length], [trim] removes the ASCII white
      space, and [toLowerCase] and [toUpperCase] change the ASCII letters.
    - The file system, the working directory, [path.join], the gray-matter
      parser, the e-mail and URL recognisers used by zod and the current year
      are fields of a record [World]: the program only reads them.  Reading
      a file, listing a directory and parsing may throw; [path.join] on
      strings and [fs.existsSync] do not.
    - A [World] is the environment of a process whose working directory
      exists and in which gray-matter meets every text for the first time.
      The process in general is a [Host]: there [process.cwd()] and
      [fs.watch] may throw, and gray-matter answers a text that it was given
      before from its cache.  The validator, the middleware and the script
      are embedded over a [Host] too, in [Node], and the properties that
      depend on a failing [process.cwd()], on a repeated text or on the
      watcher are stated there.
    - A JavaScript block that may push to the two result arrays, [return]
      early or [throw] is a function [Block A] over the pair of arrays.
    - zod's [safeParse] is modelled for the combinators that the six schemas
      of the module use, issue by issue and in zod's order.
    - [Math.floor(weight * 0.5)] and [Math.round((total / 100) * 100)] are
      computed in exact arithmetic on integers.
    - Console output is left out, and the timer between a change event and
      its validation is abstracted: an event carries the environment that
      its validation reads.
    - An [async] function is the function of its result: the modules are
      there, and nothing runs between its steps.
    - NaN is [None], and a [Date] at the first day of a month is the index
      of that month; [new URL(s)] succeeds when [is_url] holds of [s].
    - The arrays of the error collector live in a store, so that a result
      and the collector can share them; the browser is a record of what the
      theme functions read and write; the scroll handlers are a state
      machine over scroll events and animation frames. *)

From Stdlib Require Import String Ascii List ZArith Bool Lia DecimalString Permutation.
Import ListNotations.
Local Open Scope string_scope.
Local Open Scope list_scope.

#[local] Set Warnings "-register-all".

(** ** JavaScript values *)

Inductive value : Type :=
| VUndef
| VNull
| VBool (b : bool)
| VNum (n : Z)
| VStr (s : string)
| VArr (items : list value)
| VObj (fields : list (string * value))
| VDate (ms : Z).

(** The outcome of an expression or a call: a value or a thrown error with
    its [message]. *)
Inductive result (A : Type) : Type :=
| Ok (a : A)
| Throw (msg : string).
Arguments Ok {A} a.
Arguments Throw {A} msg.

Module JS.

(** [o[k]] on a front-matter object: first binding of [k], else undefined. *)
Fixpoint lookup (k : string) (fields : list (string * value)) : value :=
  match fields with
  | [] => VUndef
  | (k', v) :: rest => if String.eqb k k' then v else lookup k rest
  end.

(** Property read [v.k].  Reading a property of [null] or [undefined]
    throws a TypeError; strings and arrays only answer [length] here (the
    program never reads an index or a method through this path). *)
Definition get_prop (v : value) (k : string) : result value :=
  match v with
  | VUndef => Throw ("Cannot read properties of undefined (reading '" ++ k ++ "')")
  | VNull => Throw ("Cannot read properties of null (reading '" ++ k ++ "')")
  | VObj fields => Ok (lookup k fields)
  | VStr s => Ok (if String.eqb k "length" then VNum (Z.of_nat (String.length s)) else VUndef)
  | VArr l => Ok (if String.eqb k "length" then VNum (Z.of_nat (List.length l)) else VUndef)
  | VBool _ | VNum _ | VDate _ => Ok VUndef
  end.

(** ToBoolean. *)
Definition truthy (v : value) : bool :=
  match v with
  | VUndef | VNull => false
  | VBool b => b
  | VNum n => negb (Z.eqb n 0)
  | VStr s => negb (String.eqb s "")
  | VArr _ | VObj _ | VDate _ => true
  end.

(** [typeof v === 'string'] *)
Definition is_string (v : value) : bool :=
  match v with VStr _ => true | _ => false end.

(** [Object.keys(v).length] for a truthy [v]. *)
Definition keys_length (v : value) : nat :=
  match v with
  | VObj fields => List.length fields
  | VArr l => List.length l
  | VStr s => String.length s
  | _ => 0
  end.

(** [s.endsWith(suffix)] and [s.startsWith(prefix)]. *)
Definition startsWith (s p : string) : bool := String.prefix p s.

Definition endsWith (s suffix : string) : bool :=
  let n := String.length s in
  let m := String.length suffix in
  Nat.leb m n && String.eqb (String.substring (n - m) m s) suffix.

(** White space removed by [String.prototype.trim], for the code points
    below 128: TAB, LF, VT, FF, CR and SPACE. *)
Definition is_space (c : ascii) : bool :=
  let n := nat_of_ascii c in
  (Nat.leb 9 n && Nat.leb n 13) || Nat.eqb n 32.

Fixpoint trim_start (s : string) : string :=
  match s with
  | EmptyString => EmptyString
  | String c rest => if is_space c then trim_start rest else s
  end.

Fixpoint rev_string (s acc : string) : string :=
  match s with
  | EmptyString => acc
  | String c rest => rev_string rest (String c acc)
  end.

Definition trim (s : string) : string :=
  rev_string (trim_start (rev_string (trim_start s) "")) "".

Definition nat_to_string (n : nat) : string :=
  NilZero.string_of_uint (Nat.to_uint n).

Definition Z_to_string (z : Z) : string :=
  NilZero.string_of_int (Z.to_int z).

End JS.

(** ** zod schemas *)

Module Zod.

(** An element of [issue.path]: an object key or an array index. *)
Inductive seg : Type := Key (k : string) | Idx (i : nat).

Record issue : Type := mkIssue {
  issue_path : list seg;
  issue_message : string
}.

Inductive string_check : Type :=
| StrMin (n : nat) (msg : string)      (* .min(n, msg) *)
| StrEmail (msg : string)              (* .email(msg) *)
| StrUrl (msg : string).               (* .url(msg) *)

Inductive number_check : Type :=
| NumMin (n : Z) (msg : option string) (* .min(n) / .min(n, msg) *)
| NumMax (n : Z) (msg : option string).

Inductive schema : Type :=
| SString (checks : list string_check)
| SNumber (checks : list number_check)
| SBoolean
| SEnum (options : list string) (msg : string)   (* with an errorMap *)
| SArray (elem : schema) (min : option (nat * string))
| SObject (shape : list (string * schema))
| SOptional (inner : schema)
| SDefault (inner : schema) (dflt : value).

(** zod's name for the type of the received datum. *)
Definition parsed_type (v : value) : string :=
  match v with
  | VUndef => "undefined"
  | VNull => "null"
  | VBool _ => "boolean"
  | VNum _ => "number"
  | VStr _ => "string"
  | VArr _ => "array"
  | VObj _ => "object"
  | VDate _ => "date"
  end.

(** Default message of an [invalid_type] issue. *)
Definition invalid_type (expected : string) (path : list seg) (v : value) : issue :=
  mkIssue path
    match v with
    | VUndef => "Required"
    | _ => "Expected " ++ expected ++ ", received " ++ parsed_type v
    end.

Section Checks.
Variable is_email : string -> bool.
Variable is_url : string -> bool.

Definition string_check_issue (path : list seg) (s : string) (c : string_check)
  : list issue :=
  match c with
  | StrMin n msg => if Nat.ltb (String.length s) n then [mkIssue path msg] else []
  | StrEmail msg => if is_email s then [] else [mkIssue path msg]
  | StrUrl msg => if is_url s then [] else [mkIssue path msg]
  end.

Definition number_check_issue (path : list seg) (x : Z) (c : number_check)
  : list issue :=
  match c with
  | NumMin n msg =>
      if Z.ltb x n
      then [mkIssue path
              match msg with
              | Some m => m
              | None => "Number must be greater than or equal to " ++ JS.Z_to_string n
              end]
      else []
  | NumMax n msg =>
      if Z.ltb n x
      then [mkIssue path
              match msg with
              | Some m => m
              | None => "Number must be less than or equal to " ++ JS.Z_to_string n
              end]
      else []
  end.

(** The issues that [schema.safeParse(v)] collects, in order.  A wrong
    type stops the schema at hand; a failed check does not (an array
    that is too short still has its elements visited); an object visits
    the keys of its shape in order and ignores unknown keys. *)
Fixpoint issues (s : schema) (path : list seg) (v : value) {struct s} : list issue :=
  match s with
  | SString checks =>
      match v with
      | VStr str => flat_map (string_check_issue path str) checks
      | _ => [invalid_type "string" path v]
      end
  | SNumber checks =>
      match v with
      | VNum x => flat_map (number_check_issue path x) checks
      | _ => [invalid_type "number" path v]
      end
  | SBoolean =>
      match v with
      | VBool _ => []
      | _ => [invalid_type "boolean" path v]
      end
  | SEnum options msg =>
      match v with
      | VStr str => if existsb (String.eqb str) options then [] else [mkIssue path msg]
      | _ => [mkIssue path msg]
      end
  | SArray elem min =>
      match v with
      | VArr items =>
          match min with
          | Some (n, msg) => if Nat.ltb (List.length items) n then [mkIssue path msg] else []
          | None => []
          end
          ++ (fix each (i : nat) (l : list value) : list issue :=
                match l with
                | [] => []
                | x :: l' => issues elem (path ++ [Idx i]) x ++ each (S i) l'
                end) 0%nat items
      | _ => [invalid_type "array" path v]
      end
  | SObject shape =>
      match v with
      | VObj fields =>
          (fix each (sh : list (string * schema)) : list issue :=
             match sh with
             | [] => []
             | (k, sk) :: sh' => issues sk (path ++ [Key k]) (JS.lookup k fields) ++ each sh'
             end) shape
      | _ => [invalid_type "object" path v]
      end
  | SOptional inner =>
      match v with
      | VUndef => []
      | _ => issues inner path v
      end
  | SDefault inner dflt =>
      match v with
      | VUndef => issues inner path dflt
      | _ => issues inner path v
      end
  end.

(** [schema.safeParse(v)]: [result.success] is [issues = []], and
    [result.error.errors] is the list itself. *)
Definition safeParse (s : schema) (v : value) : list issue := issues s [] v.

End Checks.

Definition seg_to_string (x : seg) : string :=
  match x with
  | Key k => k
  | Idx i => JS.nat_to_string i
  end.

(** [error.path.join('.')] *)
Definition path_join_dot (p : list seg) : string :=
  String.concat "." (map seg_to_string p).

End Zod.

(** ** The environment the program reads *)

Record World : Type := mkWorld {
  cwd : string;                                  (* what process.cwd() returns, when it returns *)
  path_join : list string -> string;             (* path.join(...) *)
  existsSync : string -> bool;                   (* fs.existsSync *)
  readFileSync : string -> result string;        (* fs.readFileSync(p, 'utf-8') *)
  readdirSync : string -> result (list string);  (* fs.readdirSync *)
  matter : string -> result (value * string);    (* gray-matter on a text not in its cache *)
  is_email : string -> bool;                     (* zod's e-mail pattern *)
  is_url : string -> bool;                       (* new URL(s) does not throw *)
  current_year : Z                               (* new Date().getFullYear() *)
}.

(** ** Validation results *)

Inductive Severity : Type := SevError | SevWarning.

Record ValidationError : Type := mkError {
  err_file : string;
  err_field : option string;
  err_message : string;
  err_severity : Severity
}.

Record ValidationWarning : Type := mkWarning {
  warn_file : string;
  warn_field : option string;
  warn_message : string
}.

Record ValidationResult : Type := mkResult {
  isValid : bool;
  errors : list ValidationError;
  warnings : list ValidationWarning
}.

(** ** Blocks: statements over the two result arrays *)

Module Blocks.

(** The arrays [errors] and [warnings] (or [allErrors], [allWarnings]) of
    the running function. *)
Record Acc : Type := mkAcc {
  acc_errors : list ValidationError;
  acc_warnings : list ValidationWarning
}.

(** How a block ends: it falls through with a value, executes a [return]
    statement, or throws. *)
Inductive completion (A : Type) : Type :=
| Normal (a : A)
| Return (r : ValidationResult)
| Raise (msg : string).
Arguments Normal {A} a.
Arguments Return {A} r.
Arguments Raise {A} msg.

Definition Block (A : Type) : Type := Acc -> completion A * Acc.

Definition ret {A} (a : A) : Block A := fun acc => (Normal a, acc).

Definition bind {A B} (m : Block A) (k : A -> Block B) : Block B :=
  fun acc =>
    match m acc with
    | (Normal a, acc') => k a acc'
    | (Return r, acc') => (Return r, acc')
    | (Raise msg, acc') => (Raise msg, acc')
    end.

(** A call or an expression that may throw. *)
Definition lift {A} (r : result A) : Block A :=
  fun acc =>
    match r with
    | Ok a => (Normal a, acc)
    | Throw msg => (Raise msg, acc)
    end.

Definition push_error (e : ValidationError) : Block unit :=
  fun acc => (Normal tt, mkAcc (acc_errors acc ++ [e]) (acc_warnings acc)).

Definition push_warning (x : ValidationWarning) : Block unit :=
  fun acc => (Normal tt, mkAcc (acc_errors acc) (acc_warnings acc ++ [x])).

(** [arr.push(...xs)] *)
Definition push_errors (es : list ValidationError) : Block unit :=
  fun acc => (Normal tt, mkAcc (acc_errors acc ++ es) (acc_warnings acc)).

Definition push_warnings (xs : list ValidationWarning) : Block unit :=
  fun acc => (Normal tt, mkAcc (acc_errors acc) (acc_warnings acc ++ xs)).

(** [return { isValid: false, errors, warnings }] *)
Definition return_invalid {A} : Block A :=
  fun acc => (Return (mkResult false (acc_errors acc) (acc_warnings acc)), acc).

(** [return { isValid: errors.length === 0, errors, warnings }] *)
Definition return_result {A} : Block A :=
  fun acc =>
    (Return (mkResult (Nat.eqb (List.length (acc_errors acc)) 0)
               (acc_errors acc) (acc_warnings acc)), acc).

(** [if (c) { body }] *)
Definition when (c : bool) (body : Block unit) : Block unit :=
  if c then body else ret tt.

(** [try { body } catch (error) { handler(error.message) }] *)
Definition try_catch (body : Block unit) (handler : string -> Block unit) : Block unit :=
  fun acc =>
    match body acc with
    | (Raise msg, acc') => handler msg acc'
    | other => other
    end.

(** [xs.forEach(x => { body(x) })]: a [throw] in the callback leaves the
    loop.  (No callback of the program contains a [return] statement of
    its own.) *)
Fixpoint forEach {A} (xs : list A) (body : A -> Block unit) : Block unit :=
  match xs with
  | [] => ret tt
  | x :: rest => bind (body x) (fun _ => forEach rest body)
  end.

(** Running a function body from empty arrays.  Control reaching the end
    of a body without a [return] statement would give [undefined]; the
    bodies below all end in [return_result]. *)
Definition run_function (body : Block unit) : result ValidationResult :=
  match body (mkAcc [] []) with
  | (Return r, _) => Ok r
  | (Raise msg, _) => Throw msg
  | (Normal _, acc) => Throw "undefined is not a ValidationResult"
  end.

End Blocks.

Declare Scope block_scope.
Delimit Scope block_scope with block.
Notation "x <- m ;; k" := (Blocks.bind m (fun x => k))
  (at level 61, m at next level, right associativity) : block_scope.
Notation "' pat <- m ;; k" := (Blocks.bind m (fun x => match x with pat => k end))
  (at level 61, pat pattern, m at next level, right associativity) : block_scope.
Notation "m ;; k" := (Blocks.bind m (fun _ => k))
  (at level 61, right associativity) : block_scope.

(** ** The schemas of the validation module *)

Module Schemas.
Import Zod.

Definition profileSchema : schema :=
  SObject
    [ ("name", SString [StrMin 1 "Name is required"]);
      ("title", SString [StrMin 1 "Title is required"]);
      ("bio", SString [StrMin 10 "Bio should be at least 10 characters"]);
      ("email", SString [StrEmail "Invalid email format"]);
      ("location", SString [StrMin 1 "Location is required"]);
      ("profileImage", SString [StrMin 1 "Profile image path is required"]);
      ("social",
        SObject
          [ ("github", SOptional (SString []));
            ("linkedin", SOptional (SString []));
            ("twitter", SOptional (SString []));
            ("scholar", SOptional (SString [])) ]) ].

Definition skillsSchema : schema :=
  SObject
    [ ("categories",
        SArray
          (SObject
             [ ("name", SString [StrMin 1 "Category name is required"]);
               ("skills",
                 SArray
                   (SObject
                      [ ("name", SString [StrMin 1 "Skill name is required"]);
                        ("level",
                          SEnum ["Beginner"; "Intermediate"; "Advanced"; "Expert"]
                            "Level must be one of: Beginner, Intermediate, Advanced, Expert");
                        ("color", SString [StrMin 1 "Color is required"]) ])
                   (Some (1%nat, "Each category must have at least one skill"))) ])
          (Some (1%nat, "At least one skill category is required"))) ].

Definition projectSchema : schema :=
  SObject
    [ ("title", SString [StrMin 1 "Project title is required"]);
      ("description", SString [StrMin 10 "Description should be at least 10 characters"]);
      ("image", SString [StrMin 1 "Image path is required"]);
      ("github", SOptional (SString [StrUrl "Invalid GitHub URL"]));
      ("demo", SOptional (SString [StrUrl "Invalid demo URL"]));
      ("featured", SDefault SBoolean (VBool false));
      ("order", SDefault (SNumber []) (VNum 0));
      ("tags", SArray (SString []) (Some (1%nat, "At least one tag is required")));
      ("startDate", SOptional (SString []));
      ("endDate", SOptional (SString [])) ].

(** [year] is the value of [new Date().getFullYear()] when the module is
    loaded. *)
Definition publicationSchema (year : Z) : schema :=
  SObject
    [ ("title", SString [StrMin 1 "Publication title is required"]);
      ("authors", SArray (SString []) (Some (1%nat, "At least one author is required")));
      ("venue", SString [StrMin 1 "Venue is required"]);
      ("year", SNumber [NumMin 1900 None; NumMax (year + 5) (Some "Year must be reasonable")]);
      ("url", SOptional (SString [StrUrl "Invalid URL"]));
      ("type",
        SEnum ["conference"; "journal"; "patent"; "preprint"]
          "Type must be one of: conference, journal, patent, preprint");
      ("doi", SOptional (SString []));
      ("abstract", SOptional (SString [])) ].

Definition experienceSchema : schema :=
  SObject
    [ ("company", SString [StrMin 1 "Company name is required"]);
      ("position", SString [StrMin 1 "Position is required"]);
      ("startDate", SString [StrMin 1 "Start date is required"]);
      ("endDate", SOptional (SString []));
      ("location", SString [StrMin 1 "Location is required"]);
      ("logo", SOptional (SString []));
      ("website", SOptional (SString [StrUrl "Invalid website URL"]));
      ("achievements", SArray (SString []) (Some (1%nat, "At least one achievement is required")));
      ("technologies", SOptional (SArray (SString []) None)) ].

Definition educationSchema : schema :=
  SObject
    [ ("institution", SString [StrMin 1 "Institution name is required"]);
      ("degree", SString [StrMin 1 "Degree is required"]);
      ("field", SString [StrMin 1 "Field of study is required"]);
      ("startDate", SString [StrMin 1 "Start date is required"]);
      ("endDate", SOptional (SString []));
      ("location", SString [StrMin 1 "Location is required"]);
      ("logo", SOptional (SString []));
      ("gpa", SOptional (SString []));
      ("honors", SOptional (SArray (SString []) None));
      ("coursework", SOptional (SArray (SString []) None));
      ("thesis", SOptional (SString [])) ].

End Schemas.

(** ** The validator *)

Module Validation.
Import Blocks.
Local Open Scope block_scope.

(** [`${v}`] for a value already known to be a string. *)
Definition string_of (v : value) : string :=
  match v with VStr s => s | _ => "" end.

(** The check of a referenced asset, for [key] = "image" or "logo":
    [if (frontmatter.key && typeof frontmatter.key === 'string') { ... }] *)
Definition check_asset (w : World) (filePath : string) (frontmatter : value)
    (key : string) : Block unit :=
  asset <- lift (JS.get_prop frontmatter key) ;;
  when (JS.truthy asset && JS.is_string asset)
    (let assetPath := path_join w [cwd w; "public"; string_of asset] in
     when (negb (existsSync w assetPath))
       (push_warning
          (mkWarning filePath (Some key)
             ("Referenced " ++ key ++ " file not found: " ++ string_of asset)))).

Definition validateContentFile (w : World) (filePath : string)
    (schema : Zod.schema) (contentType : string) : result ValidationResult :=
  run_function
    (try_catch
       ((* Check if file exists *)
        when (negb (existsSync w filePath))
          (push_error (mkError filePath None (contentType ++ " file not found") SevError) ;;
           return_invalid) ;;
        (* Read and parse the file *)
        fileContent <- lift (readFileSync w filePath) ;;
        '(frontmatter, content) <- lift (matter w fileContent) ;;
        (* Validate frontmatter against schema *)
        let result := Zod.safeParse (is_email w) (is_url w) schema frontmatter in
        when (negb (Nat.eqb (List.length result) 0))
          (forEach result (fun error =>
             push_error
               (mkError filePath (Some (Zod.path_join_dot (Zod.issue_path error)))
                  (Zod.issue_message error) SevError))) ;;
        (* Additional content-specific validations *)
        when (String.eqb contentType "project" || String.eqb contentType "publication"
              || String.eqb contentType "experience" || String.eqb contentType "education")
          (when (negb (JS.truthy (VStr content))
                 || Nat.ltb (String.length (JS.trim content)) 50)
             (push_warning
                (mkWarning filePath None
                   (contentType ++
                    " content is very short (less than 50 characters). Consider adding more details.")))) ;;
        (* Validate image paths exist (if specified) *)
        check_asset w filePath frontmatter "image" ;;
        (* Validate logo paths exist (if specified) *)
        check_asset w filePath frontmatter "logo")
       (fun msg =>
          push_error (mkError filePath None ("Failed to parse file: " ++ msg) SevError)) ;;
     return_result).

Definition validateProfile (w : World) : result ValidationResult :=
  let profilePath := path_join w [cwd w; "src/content/profile/main.md"] in
  validateContentFile w profilePath Schemas.profileSchema "profile".

Definition validateSkills (w : World) : result ValidationResult :=
  let skillsPath := path_join w [cwd w; "src/content/skills/main.md"] in
  validateContentFile w skillsPath Schemas.skillsSchema "skills".

(** The filter of [validateCollection]:
    [file.endsWith('.md') && !file.startsWith('.')] *)
Definition is_content_file (file : string) : bool :=
  JS.endsWith file ".md" && negb (JS.startsWith file ".").

Definition validateCollection (w : World) (collectionName : string)
    (schema : Zod.schema) : result ValidationResult :=
  let collectionPath := path_join w [cwd w; "src/content"; collectionName] in
  run_function
    (try_catch
       (when (negb (existsSync w collectionPath))
          (push_error
             (mkError collectionPath None
                ("Collection directory not found: " ++ collectionName) SevError) ;;
           return_invalid) ;;
        entries <- lift (readdirSync w collectionPath) ;;
        let files := filter is_content_file entries in
        when (Nat.eqb (List.length files) 0)
          (push_warning
             (mkWarning collectionPath None
                ("No content files found in " ++ collectionName ++ " collection"))) ;;
        forEach files (fun file =>
          let filePath := path_join w [collectionPath; file] in
          result <- lift (validateContentFile w filePath schema collectionName) ;;
          push_errors (errors result) ;;
          push_warnings (warnings result)))
       (fun msg =>
          push_error
            (mkError collectionPath None
               ("Failed to read collection directory: " ++ msg) SevError)) ;;
     return_result).

(** The table [collections] of [validateAllContent]. *)
Definition collections (w : World) : list (string * Zod.schema) :=
  [ ("projects", Schemas.projectSchema);
    ("publications", Schemas.publicationSchema (current_year w));
    ("experience", Schemas.experienceSchema);
    ("education", Schemas.educationSchema) ].

Definition validateAllContent (w : World) : result ValidationResult :=
  run_function
    ((* Validate profile *)
     profileResult <- lift (validateProfile w) ;;
     push_errors (errors profileResult) ;;
     push_warnings (warnings profileResult) ;;
     (* Validate skills *)
     skillsResult <- lift (validateSkills w) ;;
     push_errors (errors skillsResult) ;;
     push_warnings (warnings skillsResult) ;;
     (* Validate collections *)
     forEach (collections w) (fun '(name, schema) =>
       result <- lift (validateCollection w name schema) ;;
       push_errors (errors result) ;;
       push_warnings (warnings result)) ;;
     return_result).

End Validation.

(** ** The completeness scorer *)

Declare Scope result_scope.
Delimit Scope result_scope with result.

Module Res.

Definition bind {A B} (m : result A) (k : A -> result B) : result B :=
  match m with
  | Ok a => k a
  | Throw msg => Throw msg
  end.

(** [a && b] on conditions that may throw: [b] is not evaluated when [a]
    is falsy. *)
Definition and_then (a b : result bool) : result bool :=
  bind a (fun x => if x then b else Ok false).

End Res.

Notation "x <- m ;; k" := (Res.bind m (fun x => k))
  (at level 61, m at next level, right associativity) : result_scope.
Notation "' pat <- m ;; k" := (Res.bind m (fun x => match x with pat => k end))
  (at level 61, pat pattern, m at next level, right associativity) : result_scope.

Module Completeness.
Local Open Scope result_scope.
Local Open Scope Z_scope.

Record Report : Type := mkReport {
  score : Z;
  suggestions : list string;
  completedSections : list string;
  missingSections : list string
}.

(** The four variables the function updates. *)
Record State : Type := mkState {
  totalScore : Z;
  st_suggestions : list string;
  st_completed : list string;
  st_missing : list string
}.

Definition maxScore : Z := 100.

Definition add_score (n : Z) (st : State) : State :=
  mkState (totalScore st + n) (st_suggestions st) (st_completed st) (st_missing st).
Definition suggest (s : string) (st : State) : State :=
  mkState (totalScore st) (st_suggestions st ++ [s]) (st_completed st) (st_missing st).
Definition complete (s : string) (st : State) : State :=
  mkState (totalScore st) (st_suggestions st) (st_completed st ++ [s]) (st_missing st).
Definition missing (s : string) (st : State) : State :=
  mkState (totalScore st) (st_suggestions st) (st_completed st) (st_missing st ++ [s]).
Definition when (c : bool) (f : State -> State) (st : State) : State :=
  if c then f st else st.

(** [v.k] read as a condition. *)
Definition truthy_prop (v : value) (k : string) : result bool :=
  x <- JS.get_prop v k ;; Ok (JS.truthy x).

(** [x >= k] for a number [k]: ToNumber of [x] compared with [k]; NaN
    compares false.  [to_number] is ToNumber on strings, arrays and
    objects ([None] for NaN). *)
Definition js_ge (to_number : value -> option Z) (x : value) (k : Z) : bool :=
  match x with
  | VNum n => k <=? n
  | VUndef => false
  | VNull => k <=? 0
  | VBool b => k <=? (if b then 1 else 0)
  | VDate ms => k <=? ms
  | VStr _ | VArr _ | VObj _ =>
      match to_number x with
      | Some n => k <=? n
      | None => false
      end
  end.

(** [xs.some(cb)]: only arrays have the method; the callback may throw. *)
Fixpoint some_items (items : list value) (cb : value -> result bool) : result bool :=
  match items with
  | [] => Ok false
  | x :: rest => b <- cb x ;; if b then Ok true else some_items rest cb
  end.

Definition some (xs : value) (cb : value -> result bool) : result bool :=
  match xs with
  | VArr items => some_items items cb
  | _ => Throw "data.categories.some is not a function"
  end.

Section Scorer.
Variable w : World.
(** ToNumber on the values that are not handled by [js_ge] itself. *)
Variable to_number : value -> option Z.

(** The four scored conditions of the profile, in source order. *)
Definition profile_conditions (data : value) (content : string)
  : result (bool * bool * bool * bool) :=
  c1 <- Res.and_then (truthy_prop data "name")
          (Res.and_then (truthy_prop data "title")
             (Res.and_then (truthy_prop data "bio") (truthy_prop data "email"))) ;;
  c2 <- truthy_prop data "profileImage" ;;
  c3 <- Res.and_then (truthy_prop data "social")
          (social <- JS.get_prop data "social" ;;
           Ok (Nat.ltb 0 (JS.keys_length social))) ;;
  let c4 := JS.truthy (VStr content) && Nat.ltb 100 (String.length content) in
  Ok (c1, c2, c3, c4).

Definition profileScore (c : bool * bool * bool * bool) : Z :=
  let '(c1, c2, c3, c4) := c in
  (if c1 then 10 else 0) + (if c2 then 5 else 0)
  + (if c3 then 3 else 0) + (if c4 then 2 else 0).

(** The body of the first [try]: nothing is updated before the last
    expression that can throw. *)
Definition profile_try : result (State -> State) :=
  let profilePath := path_join w [cwd w; "src/content/profile/main.md"] in
  profileContent <- readFileSync w profilePath ;;
  '(data, content) <- matter w profileContent ;;
  c <- profile_conditions data content ;;
  let '(_, c2, c3, _) := c in
  Ok (fun st =>
        let st := add_score (profileScore c) st in
        if 15 <=? profileScore c
        then complete "Profile" st
        else
          let st := missing "Profile" st in
          let st := when (negb c2)
                      (suggest "Add a profile image to make your portfolio more personal") st in
          let st := when (negb c3)
                      (suggest "Add social media links to increase connectivity") st in
          when (negb (JS.truthy (VStr content)) || Nat.ltb (String.length content) 100)
            (suggest "Expand your profile description with more details about yourself") st).

Definition profile_section (st : State) : State :=
  match profile_try with
  | Ok f => f st
  | Throw _ =>
      suggest "Create a complete profile with name, title, bio, email, and image"
        (missing "Profile" st)
  end.

(** [v.length >= 3] *)
Definition length_ge_3 (v : value) : result bool :=
  len <- JS.get_prop v "length" ;; Ok (js_ge to_number len 3).

(** The two scored conditions of the skills file. *)
Definition skills_conditions (data : value) : result (bool * bool) :=
  s1 <- Res.and_then (truthy_prop data "categories")
          (cats <- JS.get_prop data "categories" ;; length_ge_3 cats) ;;
  s2 <- Res.and_then (truthy_prop data "categories")
          (cats <- JS.get_prop data "categories" ;;
           some cats (fun cat =>
             Res.and_then (truthy_prop cat "skills")
               (skills <- JS.get_prop cat "skills" ;; length_ge_3 skills))) ;;
  Ok (s1, s2).

Definition skillsScore (c : bool * bool) : Z :=
  let '(s1, s2) := c in
  (if s1 then 10 else 0) + (if s2 then 5 else 0).

Definition skills_try : result (State -> State) :=
  let skillsPath := path_join w [cwd w; "src/content/skills/main.md"] in
  skillsContent <- readFileSync w skillsPath ;;
  '(data, _) <- matter w skillsContent ;;
  c <- skills_conditions data ;;
  Ok (fun st =>
        let st := add_score (skillsScore c) st in
        if 10 <=? skillsScore c
        then complete "Skills" st
        else suggest "Add at least 3 skill categories with multiple skills each"
               (missing "Skills" st)).

Definition skills_section (st : State) : State :=
  match skills_try with
  | Ok f => f st
  | Throw _ =>
      suggest "Create a skills section with categorized technical skills"
        (missing "Skills" st)
  end.

(** The table [collections] of the scorer: name, weight, minFiles. *)
Definition collections : list (string * Z * nat) :=
  [ ("projects", 25, 2%nat);
    ("experience", 20, 1%nat);
    ("publications", 10, 1%nat);
    ("education", 10, 1%nat) ].

(** [name.charAt(0).toUpperCase() + name.slice(1)] on lower-case ASCII. *)
Definition capitalize (name : string) : string :=
  match name with
  | EmptyString => EmptyString
  | String c rest =>
      let n := nat_of_ascii c in
      String (if Nat.leb 97 n && Nat.leb n 122 then ascii_of_nat (n - 32) else c) rest
  end.

Definition showcase (name : string) : string :=
  if String.eqb name "publications" then "research work" else "professional background".

(** [Math.floor(weight * 0.5)] for a non-negative integer weight. *)
Definition half_weight (weight : Z) : Z := weight / 2.

(** The points of a collection with [n] files ending in [.md]. *)
Definition collectionScore (weight : Z) (minFiles n : nat) : Z :=
  if Nat.leb minFiles n then weight
  else if Nat.ltb 0 n then half_weight weight
  else 0.

(** One round of [collections.forEach]; [readdirSync] is not guarded by
    a [try], so its failure leaves the whole function. *)
Definition collection_step (c : string * Z * nat) (st : State) : result State :=
  let '(name, weight, minFiles) := c in
  let collectionPath := path_join w [cwd w; "src/content"; name] in
  if existsSync w collectionPath then
    entries <- readdirSync w collectionPath ;;
    let files := filter (fun file => JS.endsWith file ".md") entries in
    let n := List.length files in
    let st :=
      if Nat.leb minFiles n then complete (capitalize name) st
      else if Nat.ltb 0 n then
        suggest ("Add more " ++ name ++ " - you have " ++ JS.nat_to_string n
                 ++ " but " ++ JS.nat_to_string minFiles ++ " or more is recommended")
          (missing (capitalize name) st)
      else
        suggest ("Add " ++ name ++ " to showcase your " ++ showcase name)
          (missing (capitalize name) st) in
    Ok (add_score (collectionScore weight minFiles n) st)
  else
    Ok (add_score 0
          (suggest ("Create " ++ name ++ " section to showcase your " ++ showcase name)
             (missing (capitalize name) st))).

Fixpoint collections_loop (cs : list (string * Z * nat)) (st : State) : result State :=
  match cs with
  | [] => Ok st
  | c :: rest => st' <- collection_step c st ;; collections_loop rest st'
  end.

(** [Math.round((totalScore / maxScore) * 100)], in exact arithmetic:
    the nearest integer, halves upwards. *)
Definition round_percent (total : Z) : Z :=
  (2 * (total * 100) + maxScore) / (2 * maxScore).

Definition validateContentCompleteness : result Report :=
  let st := mkState 0 [] [] [] in
  let st := profile_section st in
  let st := skills_section st in
  st <- collections_loop collections st ;;
  Ok (mkReport (round_percent (totalScore st))
        (st_suggestions st) (st_completed st) (st_missing st)).

End Scorer.

End Completeness.

(** ** The build script ([scripts/validate-content.js])

    The script carries its own copy of the schemas and of the three
    validation functions, line for line those of the module above; it is
    modelled with [Validation.validateAllContent].  Console output is left
    out: [console.log] neither fails nor influences control.  This is the
    script in a process whose working directory exists and whose watcher
    starts; [Node.main] is the script in any process. *)

Module Script.
Local Open Scope result_scope.

(** [process.argv.includes('--watch')] *)
Definition isWatchMode (argv : list string) : bool :=
  existsb (String.eqb "--watch") argv.

Definition contentDirs : list string :=
  ["projects"; "publications"; "experience"; "education"].

Fixpoint count_dirs (w : World) (dirs : list string) : result (list (string * nat)) :=
  match dirs with
  | [] => Ok []
  | dir :: rest =>
      let dirPath := path_join w [cwd w; "src/content"; dir] in
      n <- (if existsSync w dirPath
            then entries <- readdirSync w dirPath ;;
                 Ok (List.length (filter (fun file => JS.endsWith file ".md") entries))
            else Ok 0%nat) ;;
      stats <- count_dirs w rest ;;
      Ok ((dir, n) :: stats)
  end.

Definition getContentCounts (w : World) : result (list (string * nat)) :=
  count_dirs w contentDirs.

Definition printContentSummary (w : World) : result unit :=
  counts <- getContentCounts w ;; Ok tt.

(** What a call of [runValidation] does to the process: it ends it with
    [process.exit(code)], or it returns a boolean. *)
Inductive outcome : Type :=
| Exited (code : Z)
| Returned (b : bool).

Definition runValidation (w : World) (watch : bool) : outcome :=
  match (_ <- printContentSummary w ;; Validation.validateAllContent w) with
  | Ok result =>
      if negb (isValid result) then
        if watch then Returned false else Exited 1
      else Returned true
  | Throw _ =>
      (* catch (error) *)
      if negb watch then Exited 1 else Returned false
  end.

(** A change event delivered to the [fs.watch] callback: the file name
    (possibly [null]) and the environment found by the validation that
    the callback schedules. *)
Record Event : Type := mkEvent {
  ev_filename : option string;
  ev_world : World
}.

(** [filename && filename.endsWith('.md')] *)
Definition triggers (e : Event) : bool :=
  match ev_filename e with
  | Some filename => negb (String.eqb filename "") && JS.endsWith filename ".md"
  | None => false
  end.

(** The process: ended with an exit code, or still watching, with the
    results of the validations run so far. *)
Inductive Process : Type :=
| Exit (code : Z)
| Watching (runs : list bool).

Fixpoint watch_loop (watch : bool) (events : list Event) (runs : list bool) : Process :=
  match events with
  | [] => Watching runs
  | e :: rest =>
      if triggers e then
        match runValidation (ev_world e) watch with
        | Exited code => Exit code
        | Returned b => watch_loop watch rest (runs ++ [b])
        end
      else watch_loop watch rest runs
  end.

Definition watchContent (w : World) (watch : bool) (events : list Event) : Process :=
  (* Initial validation *)
  match runValidation w watch with
  | Exited code => Exit code
  | Returned b => watch_loop watch events [b]
  end.

(** [main()]: without the flag the script validates once and the process
    ends, with status 0 unless [process.exit(1)] was called. *)
Definition main (argv : list string) (w : World) (events : list Event) : Process :=
  if isWatchMode argv then watchContent w (isWatchMode argv) events
  else
    match runValidation w (isWatchMode argv) with
    | Exited code => Exit code
    | Returned _ => Exit 0
    end.

End Script.

(** ** Closed forms of the results

    What the three validation functions return, written by cases on the
    answers of the file system and of the parser; the lemmas of the second
    part prove that the functions of [Validation] compute exactly these. *)

Module Closed.
Import Validation.

(** The error entries made from zod's issues. *)
Definition schema_errors (w : World) (filePath : string) (schema : Zod.schema)
    (frontmatter : value) : list ValidationError :=
  map (fun error =>
         mkError filePath (Some (Zod.path_join_dot (Zod.issue_path error)))
           (Zod.issue_message error) SevError)
      (Zod.safeParse (is_email w) (is_url w) schema frontmatter).

Definition checks_body_length (contentType : string) : bool :=
  String.eqb contentType "project" || String.eqb contentType "publication"
  || String.eqb contentType "experience" || String.eqb contentType "education".

Definition short_content_warning (filePath contentType : string) : ValidationWarning :=
  mkWarning filePath None
    (contentType ++
     " content is very short (less than 50 characters). Consider adding more details.").

Definition body_warnings (filePath contentType content : string) : list ValidationWarning :=
  if checks_body_length contentType
     && (negb (JS.truthy (VStr content)) || Nat.ltb (String.length (JS.trim content)) 50)
  then [short_content_warning filePath contentType]
  else [].

Definition asset_warnings (w : World) (filePath : string) (frontmatter : value)
    (key : string) : list ValidationWarning :=
  match JS.get_prop frontmatter key with
  | Ok (VStr s) =>
      if negb (String.eqb s "") && negb (existsSync w (path_join w [cwd w; "public"; s]))
      then [mkWarning filePath (Some key) ("Referenced " ++ key ++ " file not found: " ++ s)]
      else []
  | _ => []
  end.

Definition parse_error (filePath msg : string) : ValidationError :=
  mkError filePath None ("Failed to parse file: " ++ msg) SevError.

Definition make_result (es : list ValidationError) (ws : list ValidationWarning)
  : ValidationResult :=
  mkResult (Nat.eqb (List.length es) 0) es ws.

(** The result for a file that was read and split by gray-matter. *)
Definition parsed_result (w : World) (filePath : string) (schema : Zod.schema)
    (contentType : string) (frontmatter : value) (content : string) : ValidationResult :=
  match JS.get_prop frontmatter "image" with
  | Throw msg =>
      make_result (schema_errors w filePath schema frontmatter ++ [parse_error filePath msg])
        (body_warnings filePath contentType content)
  | Ok _ =>
      make_result (schema_errors w filePath schema frontmatter)
        (body_warnings filePath contentType content
         ++ asset_warnings w filePath frontmatter "image"
         ++ asset_warnings w filePath frontmatter "logo")
  end.

Definition not_found_error (filePath contentType : string) : ValidationError :=
  mkError filePath None (contentType ++ " file not found") SevError.

(** The result of [validateContentFile], by cases on what the file system
    and the parser answer. *)
Definition file_result (w : World) (filePath : string) (schema : Zod.schema)
    (contentType : string) : ValidationResult :=
  if existsSync w filePath then
    match readFileSync w filePath with
    | Throw msg => mkResult false [parse_error filePath msg] []
    | Ok text =>
        match matter w text with
        | Throw msg => mkResult false [parse_error filePath msg] []
        | Ok (frontmatter, content) =>
            parsed_result w filePath schema contentType frontmatter content
        end
    end
  else mkResult false [not_found_error filePath contentType] [].

Definition collection_path (w : World) (collectionName : string) : string :=
  path_join w [cwd w; "src/content"; collectionName].

Definition no_files_warning (w : World) (collectionName : string) : ValidationWarning :=
  mkWarning (collection_path w collectionName) None
    ("No content files found in " ++ collectionName ++ " collection").

(** The result of validating the file [file] of a collection. *)
Definition member_result (w : World) (collectionName : string) (schema : Zod.schema)
    (file : string) : ValidationResult :=
  file_result w (path_join w [collection_path w collectionName; file]) schema collectionName.

(** The result of [validateCollection] over a directory listing. *)
Definition listing_result (w : World) (collectionName : string) (schema : Zod.schema)
    (entries : list string) : ValidationResult :=
  let files := filter is_content_file entries in
  make_result
    (flat_map (fun file => errors (member_result w collectionName schema file)) files)
    ((if Nat.eqb (List.length files) 0 then [no_files_warning w collectionName] else [])
     ++ flat_map (fun file => warnings (member_result w collectionName schema file)) files).

Definition collection_result (w : World) (collectionName : string) (schema : Zod.schema)
  : ValidationResult :=
  let collectionPath := collection_path w collectionName in
  if existsSync w collectionPath then
    match readdirSync w collectionPath with
    | Throw msg =>
        mkResult false
          [mkError collectionPath None
             ("Failed to read collection directory: " ++ msg) SevError] []
    | Ok entries => listing_result w collectionName schema entries
    end
  else
    mkResult false
      [mkError collectionPath None
         ("Collection directory not found: " ++ collectionName) SevError] [].

Definition profile_result (w : World) : ValidationResult :=
  file_result w (path_join w [cwd w; "src/content/profile/main.md"])
    Schemas.profileSchema "profile".

Definition skills_result (w : World) : ValidationResult :=
  file_result w (path_join w [cwd w; "src/content/skills/main.md"])
    Schemas.skillsSchema "skills".

(** The six validations that [validateAllContent] runs, in order. *)
Definition constituents (w : World) : list ValidationResult :=
  profile_result w :: skills_result w
  :: map (fun c => collection_result w (fst c) (snd c)) (collections w).

Definition all_result (w : World) : ValidationResult :=
  make_result (flat_map errors (constituents w)) (flat_map warnings (constituents w)).

End Closed.

(** ** Required fields of a schema *)

Module Fields.
Import Zod.


(** A field is required when its schema is neither [.optional()] nor
    [.default(...)]. *)
Definition is_required (s : schema) : bool :=
  match s with
  | SOptional _ | SDefault _ _ => false
  | _ => true
  end.

Definition required_fields (s : schema) : list string :=
  match s with
  | SObject shape => map fst (filter (fun entry => is_required (snd entry)) shape)
  | _ => []
  end.


(** The file at [filePath] exists, is readable, and gray-matter splits it
    into [frontmatter] and [content]. *)
Definition parses_to (w : World) (filePath : string) (frontmatter : value)
    (content : string) : Prop :=
  existsSync w filePath = true
  /\ exists text, readFileSync w filePath = Ok text
                  /\ matter w text = Ok (frontmatter, content).




(** The paths of the required keys that the schema expects in [v], at any
    depth: the required keys of an object schema, and below each key of the
    shape and each item of an array those of the schema found there. *)
Fixpoint required_paths (s : schema) (v : value) {struct s} : list (list seg) :=
  match s with
  | SObject shape =>
      match v with
      | VObj fields =>
          (fix each (sh : list (string * schema)) : list (list seg) :=
             match sh with
             | [] => []
             | (k, sk) :: sh' =>
                 (if is_required sk then [[Key k]] else [])
                 ++ map (cons (Key k)) (required_paths sk (JS.lookup k fields))
                 ++ each sh'
             end) shape
      | _ => []
      end
  | SArray elem _ =>
      match v with
      | VArr items =>
          (fix each (i : nat) (l : list value) : list (list seg) :=
             match l with
             | [] => []
             | x :: l' => map (cons (Idx i)) (required_paths elem x) ++ each (S i) l'
             end) 0%nat items
      | _ => []
      end
  | SOptional inner => required_paths inner v
  | SDefault inner _ => required_paths inner v
  | _ => []
  end.

End Fields.

(** ** A small site, for running the functions on concrete inputs *)

Module Sample.

Fixpoint assoc {A} (k : string) (table : list (string * A)) : option A :=
  match table with
  | [] => None
  | (k', a) :: rest => if String.eqb k k' then Some a else assoc k rest
  end.

Definition contains_at (s : string) : bool :=
  existsb (fun c => Ascii.eqb c "@"%char) (list_ascii_of_string s).

(** A world given by tables: the regular files with their text, the
    directories with their entries, and what gray-matter makes of each
    text. *)
Definition table_world (files : list (string * string))
    (dirs : list (string * list string))
    (docs : list (string * (value * string))) : World :=
  {| cwd := "/site";
     path_join := String.concat "/";
     existsSync := fun p =>
       match assoc p files, assoc p dirs with
       | None, None => false
       | _, _ => true
       end;
     readFileSync := fun p =>
       match assoc p files with
       | Some text => Ok text
       | None => Throw "ENOENT: no such file or directory"
       end;
     readdirSync := fun p =>
       match assoc p dirs with
       | Some entries => Ok entries
       | None => Throw "ENOTDIR: not a directory"
       end;
     matter := fun text =>
       match assoc text docs with
       | Some doc => Ok doc
       | None => Throw "end of the stream or a document separator is expected"
       end;
     is_email := contains_at;
     is_url := fun s => String.prefix "http" s;
     current_year := 2026 |}.

Definition long_body : string :=
  "I build machine learning systems and enjoy turning research prototypes into products that people can rely on every day.".

Definition profile_data : value :=
  VObj [ ("name", VStr "Ada");
         ("title", VStr "ML Engineer");
         ("bio", VStr "Builds learning systems");
         ("email", VStr "ada@example.org");
         ("location", VStr "Pune");
         ("profileImage", VStr "/images/ada.jpg");
         ("social", VObj [("github", VStr "https://github.com/ada")]) ].

Definition project_data : value :=
  VObj [ ("title", VStr "Bird sounds");
         ("description", VStr "Recognising birds by their song");
         ("image", VStr "/images/birds.png");
         ("tags", VArr [VStr "audio"]) ].

Definition experience_data : value :=
  VObj [ ("company", VStr "IBM");
         ("position", VStr "Intern");
         ("startDate", VStr "2023-05");
         ("location", VStr "Pune");
         ("achievements", VArr [VStr "Shipped a classifier"]) ].

Definition skills_data : value :=
  VObj [ ("categories",
           VArr [ VObj [ ("name", VStr "Languages");
                         ("skills",
                           VArr [ VObj [ ("name", VStr "Python");
                                         ("level", VStr "Expert");
                                         ("color", VStr "blue") ] ]) ] ]) ].

(** The site: a profile, a skills file, one project with an empty body
    and a missing image, one experience entry with an empty body, a
    broken experience entry, and two empty collections. *)
Definition site : World :=
  table_world
    [ ("/site/src/content/profile/main.md", "profile");
      ("/site/src/content/skills/main.md", "skills");
      ("/site/src/content/projects/birds.md", "birds");
      ("/site/src/content/experience/ibm.md", "ibm");
      ("/site/src/content/experience/broken.md", "broken");
      ("/site/src/content/profile/draft.md", "draft");
      ("/site/public//images/ada.jpg", "jpg") ]
    [ ("/site/src/content/projects", ["birds.md"; "notes.txt"]);
      ("/site/src/content/publications", [".hidden.md"; "README"]);
      ("/site/src/content/experience", ["broken.md"; "ibm.md"]);
      ("/site/src/content/education", []) ]
    [ ("profile", (profile_data, long_body));
      ("skills", (skills_data, ""));
      ("birds", (project_data, ""));
      ("ibm", (experience_data, ""));
      ("draft", (VObj [ ("name", VStr "Ada");
                        ("title", VStr "ML Engineer");
                        ("bio", VStr "Builds learning systems");
                        ("location", VStr "Pune");
                        ("profileImage", VStr "/images/ada.jpg");
                        ("social", VObj [("github", VStr "https://github.com/ada")]) ],
                 long_body)) ].

(** A site without errors: the project names an image that is not under
    [public/], the bodies of the project and of the experience entry are
    empty, and two collections are empty. *)
Definition tidy : World :=
  table_world
    [ ("/site/src/content/profile/main.md", "profile");
      ("/site/src/content/skills/main.md", "skills");
      ("/site/src/content/projects/birds.md", "birds");
      ("/site/src/content/experience/ibm.md", "ibm") ]
    [ ("/site/src/content/projects", ["birds.md"]);
      ("/site/src/content/publications", []);
      ("/site/src/content/experience", ["ibm.md"]);
      ("/site/src/content/education", []) ]
    [ ("profile", (profile_data, long_body));
      ("skills", (skills_data, ""));
      ("birds", (project_data, ""));
      ("ibm", (experience_data, "")) ].

Definition three_skills : value :=
  VArr [ VObj [("name", VStr "Python"); ("level", VStr "Expert"); ("color", VStr "blue")];
         VObj [("name", VStr "Rust"); ("level", VStr "Advanced"); ("color", VStr "red")];
         VObj [("name", VStr "OCaml"); ("level", VStr "Advanced"); ("color", VStr "gold")] ].

Definition tools : value :=
  VObj [ ("name", VStr "Tools");
         ("skills",
           VArr [VObj [("name", VStr "Git"); ("level", VStr "Expert"); ("color", VStr "grey")]]) ].

Definition languages : value :=
  VObj [("name", VStr "Languages"); ("skills", three_skills)].

(** A site with only a skills file, whose front-matter is [skills]. *)
Definition skills_only (skills : value) : World :=
  table_world [("/site/src/content/skills/main.md", "skills")] [] [("skills", (skills, ""))].

(** Two categories, the second with three skills. *)
Definition two_categories : value :=
  VObj [("categories", VArr [tools; languages])].

(** The same with a third, empty, list item between them: YAML reads an
    empty item as [null]. *)
Definition with_null_category : value :=
  VObj [("categories", VArr [tools; VNull; languages])].

(** The same with a third category that is a mapping. *)
Definition with_third_category : value :=
  VObj [("categories", VArr [tools; VObj [("name", VStr "Cloud")]; languages])].

End Sample.

(** ** Vocabulary of the statements *)

Module Terms.
Import Validation.

Definition errors_of (r : result ValidationResult) : list ValidationError :=
  match r with
  | Ok x => errors x
  | Throw _ => []
  end.

Definition warnings_of (r : result ValidationResult) : list ValidationWarning :=
  match r with
  | Ok x => warnings x
  | Throw _ => []
  end.

(** The call that [validateCollection] makes for the entry [file]. *)
Definition validate_member (w : World) (collectionName : string) (schema : Zod.schema)
    (file : string) : result ValidationResult :=
  validateContentFile w
    (path_join w [path_join w [cwd w; "src/content"; collectionName]; file])
    schema collectionName.

(** The validation of the script succeeds in [w]: the summary is printed
    and [validateAllContent] returns a valid result. *)
Definition passes (w : World) : bool :=
  match Script.printContentSummary w with
  | Ok _ =>
      match validateAllContent w with
      | Ok r => isValid r
      | Throw _ => false
      end
  | Throw _ => false
  end.

End Terms.

(** ** What the scorer observes of a site *)

Module Observed.
Import Completeness.
Local Open Scope result_scope.

(** The four profile conditions as the first [try] block evaluates them;
    [Throw] when the block is left through its [catch]. *)
Definition profile_obs (w : World) : result (bool * bool * bool * bool) :=
  text <- readFileSync w (path_join w [cwd w; "src/content/profile/main.md"]) ;;
  '(data, content) <- matter w text ;;
  profile_conditions data content.

(** The two skills conditions as the second [try] block evaluates them. *)
Definition skills_obs (w : World) (to_number : value -> option Z) : result (bool * bool) :=
  text <- readFileSync w (path_join w [cwd w; "src/content/skills/main.md"]) ;;
  '(data, _) <- matter w text ;;
  skills_conditions to_number data.

(** The points of the two files: those of the conditions that hold, none
    when the block was left through its [catch]. *)
Definition profile_points (w : World) : Z :=
  match profile_obs w with
  | Ok c => profileScore c
  | Throw _ => 0
  end.

Definition skills_points (w : World) (to_number : value -> option Z) : Z :=
  match skills_obs w to_number with
  | Ok c => skillsScore c
  | Throw _ => 0
  end.

(** The number of entries ending in [.md] of a collection directory, 0 for
    a directory that does not exist; [Throw] when the path exists and cannot
    be listed. *)
Definition md_count (w : World) (name : string) : result nat :=
  let collectionPath := path_join w [cwd w; "src/content"; name] in
  if existsSync w collectionPath then
    entries <- readdirSync w collectionPath ;;
    Ok (List.length (filter (fun file => JS.endsWith file ".md") entries))
  else Ok 0%nat.

Definition names : list string := ["projects"; "experience"; "publications"; "education"].

(** The sum of the points of the six sections, when the four directories
    can be counted. *)
Definition total_points (w : World) (to_number : value -> option Z) : result Z :=
  projects <- md_count w "projects" ;;
  experience <- md_count w "experience" ;;
  publications <- md_count w "publications" ;;
  education <- md_count w "education" ;;
  Ok (profile_points w + skills_points w to_number
      + collectionScore 25 2 projects + collectionScore 20 1 experience
      + collectionScore 10 1 publications + collectionScore 10 1 education)%Z.

(** Every condition that holds on the left holds on the right; a block
    that was left through its [catch] is below everything, and nothing but
    such a block is below it. *)
Definition profile_le (c c' : result (bool * bool * bool * bool)) : Prop :=
  match c, c' with
  | Throw _, _ => True
  | Ok (c1, c2, c3, c4), Ok (c1', c2', c3', c4') =>
      (c1 = true -> c1' = true) /\ (c2 = true -> c2' = true)
      /\ (c3 = true -> c3' = true) /\ (c4 = true -> c4' = true)
  | Ok _, Throw _ => False
  end.

Definition skills_le (c c' : result (bool * bool)) : Prop :=
  match c, c' with
  | Throw _, _ => True
  | Ok (s1, s2), Ok (s1', s2') => (s1 = true -> s1' = true) /\ (s2 = true -> s2' = true)
  | Ok _, Throw _ => False
  end.

(** The site [w] after one more entry [file] has appeared in the listing
    of the directory [dir]; the files that existed keep their text. *)
Definition with_entry (w : World) (dir file : string) : World :=
  {| cwd := cwd w;
     path_join := path_join w;
     existsSync := fun p =>
       existsSync w p || (existsSync w dir && String.eqb p (path_join w [dir; file]));
     readFileSync := readFileSync w;
     readdirSync := fun p =>
       if String.eqb p dir
       then entries <- readdirSync w p ;; Ok (entries ++ [file])
       else readdirSync w p;
     matter := matter w;
     is_email := is_email w;
     is_url := is_url w;
     current_year := current_year w |}.

(** ToNumber on the strings, arrays and objects of the samples: none of
    them is numeric. *)
Definition no_number (v : value) : option Z := None.

End Observed.

(** ** Missing content ([checkMissingContent]) *)

Module Missing.
Local Open Scope result_scope.

Record Report : Type := mkReport {
  missing : list string;
  found : list string;
  recommendations : list string
}.

(** [s.toLowerCase()] and [s.toUpperCase()] on ASCII. *)
Definition lower_char (c : ascii) : ascii :=
  let n := nat_of_ascii c in
  if Nat.leb 65 n && Nat.leb n 90 then ascii_of_nat (n + 32) else c.

Definition upper_char (c : ascii) : ascii :=
  let n := nat_of_ascii c in
  if Nat.leb 97 n && Nat.leb n 122 then ascii_of_nat (n - 32) else c.

Fixpoint map_string (f : ascii -> ascii) (s : string) : string :=
  match s with
  | EmptyString => EmptyString
  | String c rest => String (f c) (map_string f rest)
  end.

Definition toLowerCase (s : string) : string := map_string lower_char s.
Definition toUpperCase (s : string) : string := map_string upper_char s.

(** [s.slice(0, -1)] *)
Definition drop_last (s : string) : string :=
  String.substring 0 (String.length s - 1) s.

(** The table [requiredFiles]: path, name. *)
Definition requiredFiles : list (string * string) :=
  [ ("src/content/profile/main.md", "Profile");
    ("src/content/skills/main.md", "Skills") ].

Definition collections : list string :=
  ["projects"; "publications"; "experience"; "education"].

Definition add_found (x : string) (r : Report) : Report :=
  mkReport (missing r) (found r ++ [x]) (recommendations r).

Definition add_missing (x recommendation : string) (r : Report) : Report :=
  mkReport (missing r ++ [x]) (found r) (recommendations r ++ [recommendation]).

(** One round of [requiredFiles.forEach]. *)
Definition required_step (w : World) (file : string * string) (r : Report) : Report :=
  let '(filePath, name) := file in
  let fullPath := path_join w [cwd w; filePath] in
  if existsSync w fullPath then add_found name r
  else add_missing name
         ("Create " ++ filePath ++ " with your " ++ toLowerCase name ++ " information") r.

(** One round of [collections.forEach]; [readdirSync] is not guarded. *)
Definition collection_step (w : World) (collection : string) (r : Report) : result Report :=
  let collectionPath := path_join w [cwd w; "src/content"; collection] in
  if existsSync w collectionPath then
    entries <- readdirSync w collectionPath ;;
    let files := filter (fun file => JS.endsWith file ".md") entries in
    if Nat.eqb (List.length files) 0 then
      Ok (add_missing (collection ++ " content")
            ("Add at least one " ++ drop_last collection ++ " file to src/content/"
             ++ collection ++ "/") r)
    else
      Ok (add_found (collection ++ " (" ++ JS.nat_to_string (List.length files) ++ " files)") r)
  else
    Ok (add_missing (collection ++ " directory")
          ("Create src/content/" ++ collection ++ "/ directory and add content files") r).

Fixpoint collections_loop (w : World) (cs : list string) (r : Report) : result Report :=
  match cs with
  | [] => Ok r
  | c :: rest => r' <- collection_step w c r ;; collections_loop w rest r'
  end.

Definition checkMissingContent (w : World) : result Report :=
  let r := fold_left (fun r file => required_step w file r) requiredFiles (mkReport [] [] []) in
  collections_loop w collections r.

(** A collection is present when its directory exists and lists an entry
    ending in [.md]. *)
Definition present (w : World) (collection : string) : Prop :=
  existsSync w (path_join w [cwd w; "src/content"; collection]) = true
  /\ exists entries,
       readdirSync w (path_join w [cwd w; "src/content"; collection]) = Ok entries
       /\ filter (fun file => JS.endsWith file ".md") entries <> [].

End Missing.

(** ** Asset and link references ([ContentIntegrityChecker]) *)

Module Integrity.
Local Open Scope result_scope.

(** [[...new Set(xs)]]: the first occurrence of each string, in order. *)
Fixpoint dedup_from (seen xs : list string) : list string :=
  match xs with
  | [] => []
  | x :: rest =>
      if existsb (String.eqb x) seen then dedup_from seen rest
      else x :: dedup_from (x :: seen) rest
  end.

Definition dedup (xs : list string) : list string := dedup_from [] xs.

Definition contentDirs : list string :=
  ["projects"; "publications"; "experience"; "education"].

(** The arrays [missing] and [found] while they are filled. *)
Record Refs : Type := mkRefs {
  missing : list string;
  found : list string
}.

(** [path.join(process.cwd(), 'public', v)]: a TypeError unless [v] is a
    string (the message is never read). *)
Definition public_path (w : World) (v : value) : result string :=
  match v with
  | VStr s => Ok (path_join w [cwd w; "public"; s])
  | _ => Throw "The path argument must be of type string"
  end.

(** [if (data.key) { ... found.push / missing.push ... }] *)
Definition check_ref (w : World) (data : value) (key : string) (st : Refs) : result Refs :=
  v <- JS.get_prop data key ;;
  if JS.truthy v then
    p <- public_path w v ;;
    Ok (if existsSync w p
        then mkRefs (missing st) (found st ++ [Validation.string_of v])
        else mkRefs (missing st ++ [Validation.string_of v]) (found st))
  else Ok st.

(** The first [try] block; its [catch] is empty. *)
Definition check_profile (w : World) (st : Refs) : Refs :=
  match (profileContent <- readFileSync w (path_join w [cwd w; "src/content/profile/main.md"]) ;;
         '(data, _) <- matter w profileContent ;;
         check_ref w data "profileImage" st) with
  | Ok st' => st'
  | Throw _ => st
  end.

(** The [try] block of one file: what was pushed before a [throw] stays. *)
Definition check_file (w : World) (dirPath file : string) (st : Refs) : Refs :=
  match (fileContent <- readFileSync w (path_join w [dirPath; file]) ;;
         matter w fileContent) with
  | Ok (data, _) =>
      match check_ref w data "image" st with
      | Ok st1 =>
          match check_ref w data "logo" st1 with
          | Ok st2 => st2
          | Throw _ => st1
          end
      | Throw _ => st
      end
  | Throw _ => st
  end.

(** The loop over the directories; [readdirSync] is outside every [try]. *)
Fixpoint check_dirs (w : World) (dirs : list string) (st : Refs) : result Refs :=
  match dirs with
  | [] => Ok st
  | dir :: rest =>
      let dirPath := path_join w [cwd w; "src/content"; dir] in
      if negb (existsSync w dirPath) then check_dirs w rest st
      else
        entries <- readdirSync w dirPath ;;
        let files := filter (fun file => JS.endsWith file ".md") entries in
        check_dirs w rest (fold_left (fun st file => check_file w dirPath file st) files st)
  end.

Definition checkImageReferences (w : World) : result Refs :=
  st <- check_dirs w contentDirs (check_profile w (mkRefs [] [])) ;;
  Ok (mkRefs (dedup (missing st)) (dedup (found st))).

(** The accumulators are sound: what is in [missing] is a reference that
    does not exist under [public/], what is in [found] is one that does. *)
Definition sound (w : World) (st : Refs) : Prop :=
  (forall s, In s (missing st) -> existsSync w (path_join w [cwd w; "public"; s]) = false)
  /\ (forall s, In s (found st) -> existsSync w (path_join w [cwd w; "public"; s]) = true).

Record Links : Type := mkLinks {
  valid : list string;
  invalid : list string;
  unchecked : list string
}.

Definition urlFields : list string := ["github"; "demo"; "url"; "website"].

(** One round of [for (const field of urlFields)]. *)
Definition check_url (w : World) (data : value) (field : string) (st : Links) : result Links :=
  v <- JS.get_prop data field ;;
  if JS.truthy v && JS.is_string v then
    if is_url w (Validation.string_of v)
    then Ok (mkLinks (valid st) (invalid st) (unchecked st ++ [Validation.string_of v]))
    else Ok (mkLinks (valid st) (invalid st ++ [Validation.string_of v]) (unchecked st))
  else Ok st.

Fixpoint check_urls (w : World) (data : value) (fields : list string) (st : Links)
  : result Links :=
  match fields with
  | [] => Ok st
  | field :: rest => st' <- check_url w data field st ;; check_urls w data rest st'
  end.

(** The [try] block of one file.  Only the property read can throw, and it
    throws at the first field or never, so nothing is pushed before. *)
Definition check_links_file (w : World) (dirPath file : string) (st : Links) : Links :=
  match (fileContent <- readFileSync w (path_join w [dirPath; file]) ;;
         '(data, _) <- matter w fileContent ;;
         check_urls w data urlFields st) with
  | Ok st' => st'
  | Throw _ => st
  end.

Fixpoint check_links_dirs (w : World) (dirs : list string) (st : Links) : result Links :=
  match dirs with
  | [] => Ok st
  | dir :: rest =>
      let dirPath := path_join w [cwd w; "src/content"; dir] in
      if negb (existsSync w dirPath) then check_links_dirs w rest st
      else
        entries <- readdirSync w dirPath ;;
        let files := filter (fun file => JS.endsWith file ".md") entries in
        check_links_dirs w rest
          (fold_left (fun st file => check_links_file w dirPath file st) files st)
  end.

(** What is in [unchecked] is accepted by [new URL], what is in [invalid]
    is not, and nothing is ever put in [valid]. *)
Definition links_sound (w : World) (st : Links) : Prop :=
  valid st = []
  /\ (forall u, In u (unchecked st) -> is_url w u = true)
  /\ (forall u, In u (invalid st) -> is_url w u = false).

Definition checkExternalLinks (w : World) : result Links :=
  st <- check_links_dirs w contentDirs (mkLinks [] [] []) ;;
  Ok (mkLinks (valid st) (invalid st) (dedup (unchecked st))).

End Integrity.

(** ** Build-time validation ([validateForBuild] and its callers) *)

Module Build.
Local Open Scope result_scope.

Record BuildValidationOptions : Type := mkOptions {
  failOnWarnings : bool;
  checkAssets : bool;
  checkLinks : bool;
  verbose : bool
}.

(** [options = {}]: the defaults of the destructuring. *)
Definition default_options : BuildValidationOptions := mkOptions false true false false.

Definition validateForBuild (w : World) (options : BuildValidationOptions) : result unit :=
  contentResult <- Validation.validateAllContent w ;;
  let assetErrors :=
    if checkAssets options then
      match Integrity.checkImageReferences w with
      | Ok assetCheck => List.length (Integrity.missing assetCheck)
      | Throw _ => 1%nat
      end
    else 0%nat in
  let linkErrors :=
    if checkLinks options then
      match Integrity.checkExternalLinks w with
      | Ok linkCheck => List.length (Integrity.invalid linkCheck)
      | Throw _ => 1%nat
      end
    else 0%nat in
  let hasErrors := negb (isValid contentResult) || Nat.ltb 0 assetErrors || Nat.ltb 0 linkErrors in
  let hasWarnings := Nat.ltb 0 (List.length (warnings contentResult)) in
  if hasErrors then
    Throw "Build validation failed due to content errors. Please fix the issues above."
  else if failOnWarnings options && hasWarnings then
    Throw "Build validation failed due to content warnings. Set failOnWarnings to false to ignore warnings."
  else Ok tt.

Definition validateForDev (w : World) : result bool :=
  result <- Validation.validateAllContent w ;;
  Ok (isValid result).

(** [buildStart()] of the middleware; [production] is
    [process.env.NODE_ENV === 'production']. *)
Definition buildStart (w : World) (production : bool) : result unit :=
  isValid <- validateForDev w ;;
  if negb isValid && production
  then Throw "Content validation failed. Cannot proceed with production build."
  else Ok tt.

Definition validateForCommit (w : World) : bool :=
  match validateForBuild w (mkOptions false true false true) with
  | Ok _ => true
  | Throw _ => false
  end.

Record Summary : Type := mkSummary {
  totalErrors : nat;
  totalWarnings : nat;
  missingAssets : nat;
  collections : list (string * nat)
}.

Record Health : Type := mkHealth {
  isHealthy : bool;
  summary : Summary;
  details : ValidationResult
}.

Definition healthDirs : list string :=
  ["profile"; "skills"; "projects"; "publications"; "experience"; "education"].

Fixpoint count_dirs (w : World) (dirs : list string) : result (list (string * nat)) :=
  match dirs with
  | [] => Ok []
  | dir :: rest =>
      let dirPath := path_join w [cwd w; "src/content"; dir] in
      n <- (if existsSync w dirPath
            then entries <- readdirSync w dirPath ;;
                 Ok (List.length (filter (fun file => JS.endsWith file ".md") entries))
            else Ok 0%nat) ;;
      counts <- count_dirs w rest ;;
      Ok ((dir, n) :: counts)
  end.

Definition getContentHealthReport (w : World) : result Health :=
  contentResult <- Validation.validateAllContent w ;;
  assetCheck <- Integrity.checkImageReferences w ;;
  collections <- count_dirs w healthDirs ;;
  Ok (mkHealth
        (isValid contentResult && Nat.eqb (List.length (Integrity.missing assetCheck)) 0)
        (mkSummary (List.length (errors contentResult))
                   (List.length (warnings contentResult))
                   (List.length (Integrity.missing assetCheck))
                   collections)
        contentResult).

End Build.

(** ** String helpers of the remaining utilities *)

Module Str.

Definition is_digit (c : ascii) : bool :=
  let n := nat_of_ascii c in Nat.leb 48 n && Nat.leb n 57.

Definition digit_value (c : ascii) : Z := Z.of_nat (nat_of_ascii c - 48).

Fixpoint all_digits (s : string) : bool :=
  match s with
  | EmptyString => true
  | String c rest => is_digit c && all_digits rest
  end.

Definition is_ascii_char (c : ascii) : bool := Nat.ltb (nat_of_ascii c) 128.

Fixpoint is_ascii (s : string) : bool :=
  match s with
  | EmptyString => true
  | String c rest => is_ascii_char c && is_ascii rest
  end.

(** [s.split(sep)] for a separator of one character: never empty. *)
Fixpoint split_on (sep : ascii) (s : string) : list string :=
  match s with
  | EmptyString => [EmptyString]
  | String c rest =>
      if Ascii.eqb c sep then EmptyString :: split_on sep rest
      else
        match split_on sep rest with
        | [] => [String c EmptyString]
        | piece :: pieces => String c piece :: pieces
        end
  end.

(** [/^\d{4}-\d{2}$/.test(s)] *)
Definition is_year_month (s : string) : bool :=
  match s with
  | String y1 (String y2 (String y3 (String y4 (String dash (String m1 (String m2
      EmptyString)))))) =>
      is_digit y1 && is_digit y2 && is_digit y3 && is_digit y4
      && Ascii.eqb dash "-" && is_digit m1 && is_digit m2
  | _ => false
  end.

(** [/^\d{4}-\d{1}$/.test(s)] *)
Definition is_year_month1 (s : string) : bool :=
  match s with
  | String y1 (String y2 (String y3 (String y4 (String dash (String m1
      EmptyString))))) =>
      is_digit y1 && is_digit y2 && is_digit y3 && is_digit y4
      && Ascii.eqb dash "-" && is_digit m1
  | _ => false
  end.

(** [s.padStart(2, '0')] *)
Definition padStart2 (s : string) : string :=
  match String.length s with
  | 0%nat => "00" ++ s
  | 1%nat => "0" ++ s
  | _ => s
  end.

(** The longest prefix of decimal digits, and its value read from the
    left with the accumulator [acc]. *)
Fixpoint digits_value (acc : Z) (s : string) : Z :=
  match s with
  | EmptyString => acc
  | String c rest =>
      if is_digit c then digits_value (10 * acc + digit_value c) rest else acc
  end.

Definition hex_value (c : ascii) : option Z :=
  let n := nat_of_ascii c in
  if Nat.leb 48 n && Nat.leb n 57 then Some (Z.of_nat (n - 48))
  else if Nat.leb 97 n && Nat.leb n 102 then Some (Z.of_nat (n - 87))
  else if Nat.leb 65 n && Nat.leb n 70 then Some (Z.of_nat (n - 55))
  else None.

Fixpoint hex_digits_value (acc : Z) (s : string) : Z :=
  match s with
  | EmptyString => acc
  | String c rest =>
      match hex_value c with
      | Some d => hex_digits_value (16 * acc + d) rest
      | None => acc
      end
  end.

Definition starts_with_digit (s : string) : bool :=
  match s with
  | String c _ => is_digit c
  | EmptyString => false
  end.

Definition starts_with_hex (s : string) : bool :=
  match s with
  | String c _ => match hex_value c with Some _ => true | None => false end
  | EmptyString => false
  end.

(** [parseInt(s)] and [parseInt(s, 10)]; [None] stands for NaN.  Leading
    white space is skipped, a sign is read, with no radix given a prefix
    [0x] selects base 16, and the digits are read up to the first
    character that is not one. *)
Definition parseInt (radix10 : bool) (s : string) : option Z :=
  let s1 := JS.trim_start s in
  let '(sign, s2) :=
    match s1 with
    | String c rest =>
        if Ascii.eqb c "-" then ((-1)%Z, rest)
        else if Ascii.eqb c "+" then (1%Z, rest)
        else (1%Z, s1)
    | EmptyString => (1%Z, s1)
    end in
  if negb radix10 && (String.prefix "0x" s2 || String.prefix "0X" s2) then
    let s3 := String.substring 2 (String.length s2 - 2) s2 in
    if starts_with_hex s3 then Some (sign * hex_digits_value 0 s3)%Z else None
  else
    if starts_with_digit s2 then Some (sign * digits_value 0 s2)%Z else None.

(** [parseInt(parts[i])] on the pieces of a [split]: a missing piece is
    [undefined], which [parseInt] reads as the string "undefined". *)
Definition parseInt_nth (radix10 : bool) (parts : list string) (i : nat) : option Z :=
  match nth_error parts i with
  | Some piece => parseInt radix10 piece
  | None => None
  end.

End Str.

(** ** Data checks of [ProjectHelpers] and [ExperienceHelpers] *)

Module DataChecks.
Local Open Scope result_scope.

Record Verdict : Type := mkVerdict {
  valid : bool;
  errors : list string
}.

Section Checks.
Variable w : World.
(** The conversion of a value that is no string to a string.  It throws a
    TypeError for an object that has no callable [toString] or [valueOf],
    such as a mapping with a key [toString]. *)
Variable to_string : value -> result string.

Definition string_form (v : value) : result string :=
  match v with
  | VStr s => Ok s
  | other => to_string other
  end.

(** [isValidUrl(url)]: [new URL(url)] does not throw; the conversion of
    [url] to a string is within the [try]. *)
Definition isValidUrl (url : value) : bool :=
  match string_form url with
  | Ok s => is_url w s
  | Throw _ => false
  end.

(** [!obj.key?.trim()]: the key is absent, null, or a string that is blank
    once trimmed; a TypeError when the value has no [trim] method. *)
Definition blank (obj : value) (key : string) : result bool :=
  v <- JS.get_prop obj key ;;
  match v with
  | VUndef | VNull => Ok true
  | VStr s => Ok (String.eqb (JS.trim s) "")
  | _ => Throw (key ++ ".trim is not a function")
  end.

(** [Array.isArray(v)] *)
Definition isArray (v : value) : bool :=
  match v with VArr _ => true | _ => false end.

(** [if (c) errors.push(msg)] on the list of messages. *)
Definition push_if (c : bool) (msg : string) (errors : list string) : list string :=
  if c then errors ++ [msg] else errors.

Definition validateProjectData (project : value) : result Verdict :=
  let errors := [] in
  b <- blank project "title" ;;
  let errors := push_if b "Title is required" errors in
  b <- blank project "description" ;;
  let errors := push_if b "Description is required" errors in
  tags <- JS.get_prop project "tags" ;;
  let errors := push_if (negb (isArray tags)) "Tags must be an array" errors in
  github <- JS.get_prop project "github" ;;
  let errors := push_if (JS.truthy github && negb (isValidUrl github))
                  "Invalid GitHub URL" errors in
  demo <- JS.get_prop project "demo" ;;
  let errors := push_if (JS.truthy demo && negb (isValidUrl demo))
                  "Invalid demo URL" errors in
  Ok (mkVerdict (Nat.eqb (List.length errors) 0) errors).

(** [s] between double quotes. *)
Definition quoted (s : string) : string :=
  String (ascii_of_nat 34) (s ++ String (ascii_of_nat 34) EmptyString).

(** [dateRegex.test(v)]: [v] is converted to a string first, outside any
    [try]. *)
Definition date_ok (v : value) : result bool :=
  s <- string_form v ;; Ok (Str.is_year_month s).

(** [c && !dateRegex.test(v)]: the test is made only when [c] holds. *)
Definition fails_date_test (c : bool) (v : value) : result bool :=
  if c then (ok <- date_ok v ;; Ok (negb ok)) else Ok false.

(** [v !== 'present'] *)
Definition not_present (v : value) : bool :=
  match v with
  | VStr s => negb (String.eqb s "present")
  | _ => true
  end.

(** The end date is not put to the pattern (it is falsy or [present]), or
    its conversion to a string returns. *)
Definition end_date_converts (v : value) : bool :=
  if JS.truthy v && not_present v
  then match string_form v with Ok _ => true | Throw _ => false end
  else true.

Definition validateExperienceData (experience : value) : result Verdict :=
  let errors := [] in
  b <- blank experience "company" ;;
  let errors := push_if b "Company name is required" errors in
  b <- blank experience "position" ;;
  let errors := push_if b "Position is required" errors in
  b <- blank experience "startDate" ;;
  let errors := push_if b "Start date is required" errors in
  b <- blank experience "location" ;;
  let errors := push_if b "Location is required" errors in
  (* Validate date format *)
  startDate <- JS.get_prop experience "startDate" ;;
  b <- fails_date_test (JS.truthy startDate) startDate ;;
  let errors := push_if b "Start date must be in YYYY-MM format" errors in
  endDate <- JS.get_prop experience "endDate" ;;
  b <- fails_date_test (JS.truthy endDate && not_present endDate) endDate ;;
  let errors := push_if b
                  ("End date must be in YYYY-MM format or " ++ quoted "present") errors in
  achievements <- JS.get_prop experience "achievements" ;;
  let errors := push_if (JS.truthy achievements && negb (isArray achievements))
                  "Achievements must be an array" errors in
  technologies <- JS.get_prop experience "technologies" ;;
  let errors := push_if (JS.truthy technologies && negb (isArray technologies))
                  "Technologies must be an array" errors in
  website <- JS.get_prop experience "website" ;;
  let errors := push_if (JS.truthy website && negb (isValidUrl website))
                  "Invalid website URL" errors in
  Ok (mkVerdict (Nat.eqb (List.length errors) 0) errors).

End Checks.

(** The values on which [v?.trim()] does not throw: undefined, null and
    the strings. *)
Definition trimmable (v : value) : bool :=
  match v with
  | VUndef | VNull | VStr _ => true
  | _ => false
  end.

(** [!s.trim()] on a string. *)
Definition is_blank (s : string) : bool := String.eqb (JS.trim s) "".

(** No character of [s] is a space. *)
Definition no_space (s : string) : bool :=
  forallb (fun c => negb (Ascii.eqb c " ")) (list_ascii_of_string s).

(** [word.charAt(0).toUpperCase()] *)
Definition initial (word : string) : string :=
  match word with
  | EmptyString => EmptyString
  | String c _ => String (Missing.upper_char c) EmptyString
  end.

(** [companyName.split(' ').map(...).slice(0, 2).join('')] *)
Definition getCompanyInitials (companyName : string) : string :=
  String.concat "" (firstn 2 (map initial (Str.split_on " " companyName))).

End DataChecks.

(** ** Date helpers ([dateHelpers.ts]) *)

Module Dates.
Import Str.
Local Open Scope Z_scope.

(** [new Date(dateString + '-01')] for a string that passed
    [/^\d{4}-\d{2}$/]: an ISO date, valid exactly when the month is
    01 to 12.  [month] is the value of the two month digits. *)
Definition iso_first_day_valid (month : Z) : bool :=
  (1 <=? month) && (month <=? 12).

(** [year] is [new Date().getFullYear()]. *)
Definition isValidDateFormat (year : Z) (dateString : string) : bool :=
  if String.eqb dateString "present" then true
  else if negb (is_year_month dateString) then false
  else
    let parts := split_on "-" dateString in
    match parseInt_nth true parts 0, parseInt_nth true parts 1 with
    | Some yearNum, Some monthNum =>
        if iso_first_day_valid monthNum then
          (1 <=? monthNum) && (monthNum <=? 12)
          && (1900 <=? yearNum) && (yearNum <=? year + 10)
        else false
    | _, _ => false     (* NaN compares false *)
    end.

Definition normalizeDateString (dateString : string) : string :=
  if String.eqb dateString "present" then "present"
  else
    let cleaned := Missing.toLowerCase (JS.trim dateString) in
    if is_year_month cleaned then cleaned
    else if is_year_month1 cleaned then
      match split_on "-" cleaned with
      | year :: month :: _ => year ++ "-" ++ padStart2 month
      | _ => dateString
      end
    else if existsb (String.eqb cleaned) ["current"; "now"; "ongoing"] then "present"
    else dateString.

(** A [Date] at the first day of a month, as the index [12 * year + month]
    of that month ([month] from 0), or [None] for an invalid date.  The
    time values of [Date] end on 13 September 275760 and begin on 20 April
    -271821, so the first days from May -271821 to September 275760 exist. *)
Definition first_month : Z := -271821 * 12 + 4.
Definition last_month : Z := 275760 * 12 + 8.

(** [new Date(year, month, 1)]: NaN gives an invalid date, a year from 0
    to 99 means 1900 + year, a month outside 0..11 carries into the year. *)
Definition make_date (year month : option Z) : option Z :=
  match year, month with
  | Some y, Some m =>
      let yr := if (0 <=? y) && (y <=? 99) then 1900 + y else y in
      let t := yr * 12 + m in
      if (first_month <=? t) && (t <=? last_month) then Some t else None
  | _, _ => None
  end.

Definition getFullYear (d : option Z) : option Z :=
  match d with Some t => Some (t / 12) | None => None end.

Definition getMonth (d : option Z) : option Z :=
  match d with Some t => Some (t mod 12) | None => None end.

(** Arithmetic with NaN. *)
Definition sub (a b : option Z) : option Z :=
  match a, b with Some x, Some y => Some (x - y) | _, _ => None end.
Definition add (a b : option Z) : option Z :=
  match a, b with Some x, Some y => Some (x + y) | _, _ => None end.
Definition mul (a b : option Z) : option Z :=
  match a, b with Some x, Some y => Some (x * y) | _, _ => None end.

(** [`${n}`] *)
Definition show (n : option Z) : string :=
  match n with Some x => JS.Z_to_string x | None => "NaN" end.

(** [n !== 1 ? 's' : ''] *)
Definition plural (n : option Z) : string :=
  match n with Some 1 => "" | _ => "s" end.

(** The text for a number of months, from [if (months < 1)] on. *)
Definition duration_text (months : option Z) : string :=
  if match months with Some m => m <? 1 | None => false end then "Less than 1 month"
  else
    (* Math.floor(months / 12) and months % 12, on months >= 1 or NaN *)
    let years := match months with Some m => Some (m / 12) | None => None end in
    let remainingMonths := match months with Some m => Some (Z.rem m 12) | None => None end in
    if match years with Some 0 => true | _ => false end then
      show months ++ " month" ++ plural months
    else if match remainingMonths with Some 0 => true | _ => false end then
      show years ++ " year" ++ plural years
    else
      show years ++ " year" ++ plural years ++ ", "
      ++ show remainingMonths ++ " month" ++ plural remainingMonths.

(** [new Date(parseInt(parts[0]), parseInt(parts[1]) - 1, 1)] on
    [parts = s.split('-')]. *)
Definition parse_month (s : string) : option Z :=
  let parts := split_on "-" s in
  make_date (parseInt_nth false parts 0) (sub (parseInt_nth false parts 1) (Some 1)).

(** [calculateDuration(start, end)]; [now] is the month index of
    [new Date()].  No operation of the [try] block throws on strings, so
    the function returns from inside it. *)
Definition calculateDuration (now : Z) (start : string) (end_ : option string) : string :=
  let startDate := parse_month start in
  let endDate :=
    match end_ with
    | Some e =>
        if negb (String.eqb e "") && negb (String.eqb e "present")
        then parse_month e
        else Some now
    | None => Some now
    end in
  let months :=
    add (mul (sub (getFullYear endDate) (getFullYear startDate)) (Some 12))
        (sub (getMonth endDate) (getMonth startDate)) in
  duration_text months.

(** The year and the month written in a string [YYYY-MM], and the month
    that [new Date(year, month - 1, 1)] makes of them, counted from January
    of the year 0: the years 0 to 99 are read as 1900 to 1999. *)
Definition year_of (s : string) : Z := digits_value 0 (String.substring 0 4 s).
Definition month_of (s : string) : Z := digits_value 0 (String.substring 5 2 s).
Definition month_index (s : string) : Z :=
  (if year_of s <=? 99 then 1900 + year_of s else year_of s) * 12 + month_of s - 1.

End Dates.

(** ** The error collector ([ValidationErrorCollector]) *)

Module Collector.

(** The arrays live in a store and are named by their index: [getResult]
    hands out the arrays of the collector, not copies. *)
Record Collector : Type := mkCollector {
  store : list (list ValidationError);
  errors_ref : nat;
  warnings_ref : nat
}.

Record ResultRef : Type := mkResultRef {
  res_isValid : bool;
  res_errors : nat;
  res_warnings : nat
}.

(** The array named [r]. *)
Definition deref (c : Collector) (r : nat) : list ValidationError :=
  nth r (store c) [].

Fixpoint update {A} (i : nat) (f : A -> A) (l : list A) : list A :=
  match l, i with
  | [], _ => []
  | x :: rest, O => f x :: rest
  | x :: rest, S j => x :: update j f rest
  end.

(** [new ValidationErrorCollector()] *)
Definition create : Collector := mkCollector [[]; []] 0 1.

Definition addError (file message : string) (field : option string) (c : Collector)
  : Collector :=
  mkCollector
    (update (errors_ref c) (fun a => a ++ [mkError file field message SevError]) (store c))
    (errors_ref c) (warnings_ref c).

Definition addWarning (file message : string) (field : option string) (c : Collector)
  : Collector :=
  mkCollector
    (update (warnings_ref c) (fun a => a ++ [mkError file field message SevWarning]) (store c))
    (errors_ref c) (warnings_ref c).

Definition hasErrors (c : Collector) : bool :=
  Nat.ltb 0 (List.length (deref c (errors_ref c))).

Definition hasWarnings (c : Collector) : bool :=
  Nat.ltb 0 (List.length (deref c (warnings_ref c))).

Definition getResult (c : Collector) : ResultRef :=
  mkResultRef (Nat.eqb (List.length (deref c (errors_ref c))) 0)
    (errors_ref c) (warnings_ref c).

(** [clear()]: the two fields get fresh arrays. *)
Definition clear (c : Collector) : Collector :=
  mkCollector (store c ++ [[]; []])
    (List.length (store c)) (S (List.length (store c))).

(** The calls that change a collector. *)
Inductive op : Type :=
| AddError (file message : string) (field : option string)
| AddWarning (file message : string) (field : option string)
| Clear.

Definition step (c : Collector) (o : op) : Collector :=
  match o with
  | AddError file message field => addError file message field c
  | AddWarning file message field => addWarning file message field c
  | Clear => clear c
  end.

Definition run (ops : list op) : Collector := fold_left step ops create.

(** The errors added by [ops] since the last [Clear], oldest first. *)
Fixpoint pending_errors (ops : list op) (acc : list ValidationError) : list ValidationError :=
  match ops with
  | [] => acc
  | AddError file message field :: rest =>
      pending_errors rest (acc ++ [mkError file field message SevError])
  | AddWarning _ _ _ :: rest => pending_errors rest acc
  | Clear :: rest => pending_errors rest []
  end.

Fixpoint pending_warnings (ops : list op) (acc : list ValidationError)
  : list ValidationError :=
  match ops with
  | [] => acc
  | AddWarning file message field :: rest =>
      pending_warnings rest (acc ++ [mkError file field message SevWarning])
  | AddError _ _ _ :: rest => pending_warnings rest acc
  | Clear :: rest => pending_warnings rest []
  end.

(** The collector is well formed: its two arrays are distinct arrays of
    the store. *)
Definition well_formed (c : Collector) : Prop :=
  errors_ref c < List.length (store c)
  /\ warnings_ref c < List.length (store c)
  /\ errors_ref c <> warnings_ref c.

End Collector.

(** ** Theme ([theme.ts]) *)

Module Theme.

(** What the functions read and write of the browser: whether there is a
    [localStorage], what its [setItem] throws when it throws (the storage
    is full or disabled), its item [theme], whether there is a [document],
    the class [dark] of the root element, whether there is a [window], and
    the answer of its media query for a dark system theme ([None] where
    [window.matchMedia] is no function). *)
Record Browser : Type := mkBrowser {
  has_localStorage : bool;
  setItem_error : option string;
  stored : option string;
  has_document : bool;
  dark_class : bool;
  has_window : bool;
  matchMedia : option bool
}.

(** A function of the module returns a value or throws, and leaves the
    browser as it is at that point. *)
Definition Eff (A : Type) : Type := Browser -> result A * Browser.

Definition ret {A} (a : A) : Eff A := fun b => (Ok a, b).

Definition throw {A} (msg : string) : Eff A := fun b => (Throw msg, b).

Definition bind {A B} (m : Eff A) (k : A -> Eff B) : Eff B :=
  fun b =>
    match m b with
    | (Ok a, b') => k a b'
    | (Throw msg, b') => (Throw msg, b')
    end.

Local Notation "x <- m ;; k" := (bind m (fun x => k))
  (at level 61, m at next level, right associativity).

Definition getStoredTheme : Eff (option string) :=
  fun b =>
    if negb (has_localStorage b) then ret None b
    else ret (stored b) b.

Definition setStoredTheme (theme : string) : Eff unit :=
  fun b =>
    if negb (has_localStorage b) then ret tt b
    else
      (* localStorage.setItem('theme', theme) *)
      match setItem_error b with
      | Some msg => throw msg b
      | None =>
          ret tt (mkBrowser (has_localStorage b) (setItem_error b) (Some theme)
                    (has_document b) (dark_class b) (has_window b) (matchMedia b))
      end.

Definition getSystemTheme : Eff string :=
  fun b =>
    if negb (has_window b) then ret "light" b
    else
      match matchMedia b with
      | Some matches => ret (if matches then "dark" else "light") b
      | None => throw "window.matchMedia is not a function" b
      end.

(** [document.documentElement] *)
Definition documentElement : Eff unit :=
  fun b =>
    if has_document b then ret tt b else throw "document is not defined" b.

(** [html.classList.contains('dark')] *)
Definition contains_dark : Eff bool := fun b => ret (dark_class b) b.

(** [html.classList.toggle('dark', force)] *)
Definition toggle_dark (force : bool) : Eff unit :=
  fun b =>
    ret tt (mkBrowser (has_localStorage b) (setItem_error b) (stored b)
              (has_document b) force (has_window b) (matchMedia b)).

Definition applyTheme (theme : string) : Eff unit :=
  html <- documentElement ;;
  if String.eqb theme "system" then
    systemTheme <- getSystemTheme ;;
    toggle_dark (String.eqb systemTheme "dark")
  else toggle_dark (String.eqb theme "dark").

Definition initializeTheme : Eff unit :=
  storedTheme <- getStoredTheme ;;
  (* storedTheme || 'system' *)
  let theme :=
    match storedTheme with
    | Some t => if String.eqb t "" then "system" else t
    | None => "system"
    end in
  applyTheme theme.

Definition toggleTheme : Eff unit :=
  html <- documentElement ;;
  isDark <- contains_dark ;;
  let newTheme := if isDark then "light" else "dark" in
  done <- setStoredTheme newTheme ;;
  applyTheme newTheme.

(** A page on which the script runs in a browser where nothing fails. *)
Definition page (is_dark : bool) : Browser :=
  mkBrowser true None None true is_dark true (Some false).

(** The same page with a storage that is full. *)
Definition full (is_dark : bool) : Browser :=
  mkBrowser true (Some "QuotaExceededError") None true is_dark true (Some false).

End Theme.

(** ** Navigation ([getCurrentSection]) *)

Module Navigation.
Local Open Scope Z_scope.

(** What [getCurrentSection] reads of the page: [window.scrollY] and, for
    an id, the [offsetTop] of the element with that id, if there is one.
    Pixels are integers here. *)
Record Page : Type := mkPage {
  scrollY : Z;
  offsetTop : string -> option Z
}.

Definition sections : list string :=
  ["hero"; "skills"; "projects"; "publications"; "experience"; "contact"].

(** [section && section.offsetTop <= scrollPosition] *)
Definition reached (p : Page) (scrollPosition : Z) (id : string) : bool :=
  match offsetTop p id with
  | Some top => top <=? scrollPosition
  | None => false
  end.

(** The loop [for (let i = sections.length - 1; i >= 0; i--)], on the list
    reversed. *)
Fixpoint scan (p : Page) (scrollPosition : Z) (ids : list string) : option string :=
  match ids with
  | [] => None
  | id :: rest => if reached p scrollPosition id then Some id else scan p scrollPosition rest
  end.

Definition getCurrentSection (p : Page) : string :=
  let scrollPosition := scrollY p + 100 in
  match scan p scrollPosition (rev sections) with
  | Some id => id
  | None => "hero"
  end.

End Navigation.

(** ** A site with links, for running the link check *)

Module Linked.

Definition project_data : value :=
  VObj [ ("title", VStr "Bird sounds");
         ("description", VStr "Recognising birds by their song");
         ("tags", VArr [VStr "audio"]);
         ("github", VStr "https://github.com/ada/birds");
         ("demo", VStr "birds.example.org") ].

Definition experience_data : value :=
  VObj [ ("company", VStr "IBM");
         ("position", VStr "Intern");
         ("startDate", VStr "2023-05");
         ("location", VStr "Pune");
         ("achievements", VArr [VStr "Shipped a classifier"]);
         ("website", VStr "https://github.com/ada/birds") ].

(** One project and one experience entry that name the same URL, the
    project with a demo address that is no URL. *)
Definition world : World :=
  Sample.table_world
    [ ("/site/src/content/projects/birds.md", "birds");
      ("/site/src/content/experience/ibm.md", "ibm") ]
    [ ("/site/src/content/projects", ["birds.md"]);
      ("/site/src/content/experience", ["ibm.md"]) ]
    [ ("birds", (project_data, ""));
      ("ibm", (experience_data, "")) ].

(** A site that passes every check: the files of [Sample.tidy] with the
    two images that they name. *)
Definition complete : World :=
  Sample.table_world
    [ ("/site/src/content/profile/main.md", "profile");
      ("/site/src/content/skills/main.md", "skills");
      ("/site/src/content/projects/birds.md", "birds");
      ("/site/src/content/experience/ibm.md", "ibm");
      ("/site/public//images/ada.jpg", "jpg");
      ("/site/public//images/birds.png", "png") ]
    [ ("/site/src/content/projects", ["birds.md"]);
      ("/site/src/content/publications", []);
      ("/site/src/content/experience", ["ibm.md"]);
      ("/site/src/content/education", []) ]
    [ ("profile", (Sample.profile_data, Sample.long_body));
      ("skills", (Sample.skills_data, ""));
      ("birds", (Sample.project_data, ""));
      ("ibm", (Sample.experience_data, "")) ].

(** Two projects, of which one is featured and has a repository. *)
Definition showcase : World :=
  Sample.table_world
    [ ("/site/src/content/projects/birds.md", "birds");
      ("/site/src/content/projects/sleep.md", "sleep") ]
    [ ("/site/src/content/projects", ["birds.md"; "sleep.md"; "notes.txt"]) ]
    [ ("birds", (Sample.project_data, ""));
      ("sleep",
        (VObj [ ("title", VStr "Sleep stages");
                ("description", VStr "Classifying sleep disorders");
                ("image", VStr "/images/sleep.png");
                ("github", VStr "https://github.com/ada/sleep");
                ("featured", VBool true);
                ("tags", VArr [VStr "health"]) ], "")) ].

End Linked.

(** ** The content collections of the site ([src/content/config.ts]) *)

(** The checks carry zod's default messages.  That of an enum names the
    received value; it is cut to its constant beginning here, and only the
    acceptance by these schemas is stated below. *)

Module Config.
Import Zod.

Definition profileSchema : schema :=
  SObject
    [ ("name", SString []);
      ("title", SString []);
      ("bio", SString []);
      ("email", SString [StrEmail "Invalid email"]);
      ("location", SString []);
      ("profileImage", SString []);
      ("social",
        SObject
          [ ("github", SOptional (SString []));
            ("linkedin", SOptional (SString []));
            ("twitter", SOptional (SString []));
            ("scholar", SOptional (SString [])) ]) ].

Definition skillsSchema : schema :=
  SObject
    [ ("categories",
        SArray
          (SObject
             [ ("name", SString []);
               ("skills",
                 SArray
                   (SObject
                      [ ("name", SString []);
                        ("level",
                          SEnum ["Beginner"; "Intermediate"; "Advanced"; "Expert"]
                            "Invalid enum value");
                        ("color", SString []) ])
                   None) ])
          None) ].

Definition projectSchema : schema :=
  SObject
    [ ("title", SString []);
      ("description", SString []);
      ("image", SString []);
      ("github", SOptional (SString [StrUrl "Invalid url"]));
      ("demo", SOptional (SString [StrUrl "Invalid url"]));
      ("featured", SDefault SBoolean (VBool false));
      ("order", SDefault (SNumber []) (VNum 0));
      ("tags", SArray (SString []) None);
      ("startDate", SOptional (SString []));
      ("endDate", SOptional (SString []));
      ("award", SOptional (SString []));
      ("hackathon", SOptional (SString []));
      ("teamSize", SOptional (SNumber []));
      ("paper", SOptional (SString [StrUrl "Invalid url"]));
      ("paperTitle", SOptional (SString []));
      ("venue", SOptional (SString [])) ].

Definition publicationSchema : schema :=
  SObject
    [ ("title", SString []);
      ("authors", SArray (SString []) None);
      ("venue", SString []);
      ("year", SNumber []);
      ("url", SOptional (SString [StrUrl "Invalid url"]));
      ("type", SEnum ["conference"; "journal"; "patent"; "preprint"] "Invalid enum value");
      ("doi", SOptional (SString []));
      ("abstract", SOptional (SString [])) ].

Definition experienceSchema : schema :=
  SObject
    [ ("company", SString []);
      ("position", SString []);
      ("startDate", SString []);
      ("endDate", SOptional (SString []));
      ("location", SString []);
      ("logo", SOptional (SString []));
      ("website", SOptional (SString [StrUrl "Invalid url"]));
      ("achievements", SArray (SString []) None);
      ("technologies", SOptional (SArray (SString []) None)) ].

Definition educationSchema : schema :=
  SObject
    [ ("institution", SString []);
      ("degree", SString []);
      ("field", SString []);
      ("startDate", SString []);
      ("endDate", SOptional (SString []));
      ("location", SString []);
      ("logo", SOptional (SString []));
      ("gpa", SOptional (SString []));
      ("honors", SOptional (SArray (SString []) None));
      ("coursework", SOptional (SArray (SString []) None));
      ("thesis", SOptional (SString []));
      ("advisors",
        SOptional
          (SArray
             (SObject
                [ ("name", SString []);
                  ("googleScholar", SOptional (SString [])) ])
             None)) ].

End Config.

(** ** One schema asking no more than another *)

Module Relax.
Import Zod.

(** The check [c] is implied by one of the checks [strict]. *)
Definition string_check_implied (strict : list string_check) (c : string_check) : bool :=
  match c with
  | StrMin n _ =>
      existsb (fun c' => match c' with StrMin m _ => Nat.leb n m | _ => false end) strict
  | StrEmail _ =>
      existsb (fun c' => match c' with StrEmail _ => true | _ => false end) strict
  | StrUrl _ =>
      existsb (fun c' => match c' with StrUrl _ => true | _ => false end) strict
  end.

Definition number_check_implied (strict : list number_check) (c : number_check) : bool :=
  match c with
  | NumMin n _ =>
      existsb (fun c' => match c' with NumMin m _ => Z.leb n m | _ => false end) strict
  | NumMax n _ =>
      existsb (fun c' => match c' with NumMax m _ => Z.leb m n | _ => false end) strict
  end.

Definition same_default (a b : value) : bool :=
  match a, b with
  | VBool x, VBool y => Bool.eqb x y
  | VNum x, VNum y => Z.eqb x y
  | VStr x, VStr y => String.eqb x y
  | _, _ => false
  end.

Fixpoint lookup_schema (k : string) (shape : list (string * schema)) : option schema :=
  match shape with
  | [] => None
  | (k', s) :: rest => if String.eqb k k' then Some s else lookup_schema k rest
  end.

(** [loose] has the structure of [strict], with the same keys or fewer,
    and each of its checks is implied by a check of [strict]. *)
Fixpoint relaxes (strict loose : schema) {struct loose} : bool :=
  match loose, strict with
  | SString checks', SString checks => forallb (string_check_implied checks) checks'
  | SNumber checks', SNumber checks => forallb (number_check_implied checks) checks'
  | SBoolean, SBoolean => true
  | SEnum options' _, SEnum options _ =>
      forallb (fun o => existsb (String.eqb o) options') options
  | SArray elem' min', SArray elem min =>
      relaxes elem elem'
      && match min', min with
         | None, _ => true
         | Some (n', _), Some (n, _) => Nat.leb n' n
         | Some (n', _), None => Nat.eqb n' 0
         end
  | SObject shape', SObject shape =>
      forallb (fun entry =>
                 match lookup_schema (fst entry) shape with
                 | Some s => relaxes s (snd entry)
                 | None => false
                 end) shape'
  | SOptional inner', SOptional inner => relaxes inner inner'
  | SDefault inner' dflt', SDefault inner dflt =>
      relaxes inner inner' && same_default dflt dflt'
  | _, _ => false
  end.

(** The keys that the site's project and education schemas have and the
    validation module's do not. *)
Definition project_extras : list string :=
  ["award"; "hackathon"; "teamSize"; "paper"; "paperTitle"; "venue"].

Definition education_extras : list string := ["advisors"].

(** [shape] without its keys [keys]. *)
Definition without (keys : list string) (shape : list (string * schema))
  : list (string * schema) :=
  filter (fun entry => negb (existsb (String.eqb (fst entry)) keys)) shape.

Definition only (keys : list string) (shape : list (string * schema))
  : list (string * schema) :=
  filter (fun entry => existsb (String.eqb (fst entry)) keys) shape.

Definition shape_of (s : schema) : list (string * schema) :=
  match s with
  | SObject shape => shape
  | _ => []
  end.

(** The site's project and education schemas cut down to these keys. *)
Definition project_extra_schema : schema :=
  SObject (only project_extras (shape_of Config.projectSchema)).

Definition education_extra_schema : schema :=
  SObject (only education_extras (shape_of Config.educationSchema)).

End Relax.

(** ** Project statistics ([getFeaturedProjects], [getProjectStats]) *)

Module Stats.
Local Open Scope result_scope.

(** [s.replace(pattern, '')]: the first occurrence of [pattern] is removed. *)
Fixpoint remove_first (pattern s : string) : string :=
  if String.prefix pattern s
  then String.substring (String.length pattern) (String.length s - String.length pattern) s
  else
    match s with
    | EmptyString => EmptyString
    | String c rest => String c (remove_first pattern rest)
    end.

(** [{ ...fields, k: v }]: the key keeps its place when it is there. *)
Fixpoint set_key (k : string) (v : value) (fields : list (string * value))
  : list (string * value) :=
  match fields with
  | [] => [(k, v)]
  | (k', v') :: rest =>
      if String.eqb k k' then (k', v) :: rest else (k', v') :: set_key k v rest
  end.

(** [{ ...data, slug: file.replace('.md', ''), _file: file }].  Only a
    mapping can have the truthy [featured] that leads here. *)
Definition project_entry (data : value) (file : string) : value :=
  let fields := match data with VObj fields => fields | _ => [] end in
  VObj (set_key "_file" (VStr file) (set_key "slug" (VStr (remove_first ".md" file)) fields)).

(** The [try] block of one file of [getFeaturedProjects]. *)
Definition featured_step (w : World) (projectsDir : string) (projects : list value)
    (file : string) : list value :=
  match (fileContent <- readFileSync w (path_join w [projectsDir; file]) ;;
         '(data, _) <- matter w fileContent ;;
         featured <- JS.get_prop data "featured" ;;
         Ok (data, featured)) with
  | Ok (data, featured) =>
      if JS.truthy featured then projects ++ [project_entry data file] else projects
  | Throw _ => projects
  end.

(** [p.featured] is truthy. *)
Definition is_featured (p : value) : bool :=
  match JS.get_prop p "featured" with
  | Ok v => JS.truthy v
  | Throw _ => false
  end.

Record ProjectStats : Type := mkProjectStats {
  total : nat;
  featured : nat;
  withGithub : nat;
  withDemo : nat
}.

Section Sorted.
(** [projects.sort((a, b) => (a.order || 999) - (b.order || 999))]: the
    order is left open (the difference is NaN for an [order] that is no
    number); a sort returns the items it was given. *)
Variable sort : list value -> list value.

Definition getFeaturedProjects (w : World) : result (list value) :=
  let projectsDir := path_join w [cwd w; "src/content/projects"] in
  if negb (existsSync w projectsDir) then Ok []
  else
    entries <- readdirSync w projectsDir ;;
    let files := filter (fun file => JS.endsWith file ".md") entries in
    Ok (sort (fold_left (featured_step w projectsDir) files [])).

(** [projects.filter(p => p.key).length] *)
Definition count_with (key : string) (projects : list value) : nat :=
  List.length
    (filter (fun p => match JS.get_prop p key with
                      | Ok v => JS.truthy v
                      | Throw _ => false
                      end) projects).

(** [getProjectStats()], without its field [technologies] (the number of
    distinct tags, which does not bear on the other fields). *)
Definition getProjectStats (w : World) : result ProjectStats :=
  projects <- getFeaturedProjects w ;;
  _ <- getFeaturedProjects w ;;     (* within getProjectTechnologies *)
  Ok (mkProjectStats (List.length projects) (count_with "featured" projects)
        (count_with "github" projects) (count_with "demo" projects)).

End Sorted.

End Stats.

(** ** Reporting a result ([handleValidationResult]) *)

Module Handling.

Definition newline : string := String (ascii_of_nat 10) EmptyString.

(** [`  - ${err.file}${err.field ? ` (${err.field})` : ''}: ${err.message}`] *)
Definition error_line (err : ValidationError) : string :=
  "  - " ++ err_file err
  ++ match err_field err with
     | Some field => if String.eqb field "" then "" else " (" ++ field ++ ")"
     | None => ""
     end
  ++ ": " ++ err_message err.

Definition errorMessage (errors : list ValidationError) : string :=
  "Content validation failed with " ++ JS.nat_to_string (List.length errors)
  ++ " error(s):" ++ newline ++ String.concat newline (map error_line errors).

(** [handleValidationResult(result, throwOnError)]; what is thrown is
    [createContentError(errorMessage)], an [Error] with this message and the
    severity [error]. *)
Definition handleValidationResult (validation : ValidationResult) (throwOnError : bool)
  : result unit :=
  if Nat.ltb 0 (List.length (errors validation)) && throwOnError
  then Throw (errorMessage (errors validation))
  else Ok tt.

(** [haystack.includes(needle)] as a proposition. *)
Definition includes (haystack needle : string) : Prop :=
  exists before after : string, haystack = (before ++ needle ++ after)%string.

End Handling.

(** ** Relative time ([getRelativeTime]) *)

Module Relative.
Import Str.
Local Open Scope Z_scope.

(** The clock of the page: the month of [new Date()] in local time, as a
    month index, and whether local time is behind UTC at the start of the
    month of a given index. *)
Record Clock : Type := mkClock {
  now : Z;
  behind_utc : Z -> bool
}.

(** [new Date(dateString + '-01')] for a string [YYYY-MM] with a month from
    01 to 12: a date-only ISO form, read as midnight UTC.  In local time
    this is the first day of the month, or the last day of the month before
    when local time is behind UTC.  The month of the local date, as a month
    index; other strings are left to the implementation by the language and
    are not modelled. *)
Definition local_month (c : Clock) (dateString : string) : option Z :=
  if is_year_month dateString
     && (1 <=? Dates.month_of dateString) && (Dates.month_of dateString <=? 12)
  then
    let utc := Dates.year_of dateString * 12 + Dates.month_of dateString - 1 in
    Some (if behind_utc c utc then utc - 1 else utc)
  else None.

(** The text for a number of months, from [if (diffInMonths < 1)] on. *)
Definition relative_text (diffInMonths : Z) : string :=
  if diffInMonths <? 1 then "Current"
  else if diffInMonths <? 12 then
    JS.Z_to_string diffInMonths ++ " month" ++ (if diffInMonths =? 1 then "" else "s") ++ " ago"
  else
    let years := diffInMonths / 12 in
    JS.Z_to_string years ++ " year" ++ (if years =? 1 then "" else "s") ++ " ago".

(** [getRelativeTime(dateString)] on [present] and on the strings [YYYY-MM]
    with a month from 01 to 12; [None] stands for the other strings. *)
Definition getRelativeTime (c : Clock) (dateString : string) : option string :=
  if String.eqb dateString "present" then Some "Current"
  else
    match local_month c dateString with
    | Some date =>
        let diffInMonths :=
          (now c / 12 - date / 12) * 12 + (now c mod 12 - date mod 12) in
        Some (relative_text diffInMonths)
    | None => None
    end.

End Relative.

(** ** Scrolling ([initNavigation], [initHeaderEffects]) *)

Module Scrolling.
Local Open Scope Z_scope.

(** A link of the navigation: its attribute [data-section], if it has one,
    and whether it has the class [active]. *)
Record Link : Type := mkLink {
  data_section : option string;
  active : bool
}.

(** The page and the state of the two scroll handlers: the flag [ticking]
    of each, and the callbacks that each has handed to
    [requestAnimationFrame] and that have not run yet. *)
Record State : Type := mkState {
  page : Navigation.Page;
  links : list Link;              (* the .nav-link and .mobile-nav-link elements *)
  has_header : bool;              (* document.getElementById('header') *)
  shadow : bool;                  (* the header has the class shadow-md *)
  nav_ticking : bool;
  nav_frames : nat;
  header_ticking : bool;
  header_frames : nat
}.

Definition updateActiveNavLinks (activeSection : string) (ls : list Link) : list Link :=
  map (fun link =>
         mkLink (data_section link)
           match data_section link with
           | Some section => String.eqb section activeSection
           | None => false
           end) ls.

(** The callback that [handleScroll] hands to [requestAnimationFrame]. *)
Definition nav_callback (st : State) : State :=
  let currentSection := Navigation.getCurrentSection (page st) in
  let ls := if negb (String.eqb currentSection "")
            then updateActiveNavLinks currentSection (links st)
            else links st in
  mkState (page st) ls (has_header st) (shadow st)
    false (nav_frames st) (header_ticking st) (header_frames st).

Definition handleScroll (st : State) : State :=
  if negb (nav_ticking st) then
    mkState (page st) (links st) (has_header st) (shadow st)
      true (S (nav_frames st)) (header_ticking st) (header_frames st)
  else st.

Definition updateHeader (st : State) : State :=
  mkState (page st) (links st) (has_header st) (Navigation.scrollY (page st) >? 10)
    (nav_ticking st) (nav_frames st) false (header_frames st).

Definition handleHeaderScroll (st : State) : State :=
  if negb (header_ticking st) then
    mkState (page st) (links st) (has_header st) (shadow st)
      (nav_ticking st) (nav_frames st) true (S (header_frames st))
  else st.

(** [initNavigation()], as far as the scroll handler goes: the flag, and the
    first update of the links. *)
Definition initNavigation (p : Navigation.Page) (ls : list Link) (header : bool)
    (shadowed : bool) : State :=
  let initialSection := Navigation.getCurrentSection p in
  mkState p
    (if negb (String.eqb initialSection "") then updateActiveNavLinks initialSection ls else ls)
    header shadowed false 0 false 0.

(** [initHeaderEffects()]: without a header nothing is installed. *)
Definition initHeaderEffects (st : State) : State :=
  if negb (has_header st) then st else updateHeader st.

Definition initializeNavigation (p : Navigation.Page) (ls : list Link) (header : bool)
    (shadowed : bool) : State :=
  initHeaderEffects (initNavigation p ls header shadowed).

(** What happens to the page afterwards: it is scrolled to a position, and
    the scroll event is delivered to the listeners; or the browser draws a
    frame, and runs the callbacks handed to [requestAnimationFrame]. *)
Inductive Event : Type :=
| Scroll (y : Z)
| Frame.

Definition scrolled (y : Z) (st : State) : State :=
  mkState (Navigation.mkPage y (Navigation.offsetTop (page st))) (links st) (has_header st)
    (shadow st) (nav_ticking st) (nav_frames st) (header_ticking st) (header_frames st).

Definition run_frames (st : State) : State :=
  let st1 := Nat.iter (nav_frames st) nav_callback st in
  let st2 := Nat.iter (header_frames st1) updateHeader st1 in
  mkState (page st2) (links st2) (has_header st2) (shadow st2)
    (nav_ticking st2) 0 (header_ticking st2) 0.

Definition step (st : State) (e : Event) : State :=
  match e with
  | Scroll y =>
      let st1 := handleScroll (scrolled y st) in
      if has_header st1 then handleHeaderScroll st1 else st1
  | Frame => run_frames st
  end.

(** The links show the section [section]: those of that section are
    active, and no other. *)
Definition shows (ls : list Link) (section : string) : Prop :=
  forall link, In link ls -> (active link = true <-> data_section link = Some section).

(** What holds of a state between two events: each handler has a callback
    waiting exactly when its flag is set; while the flag of the links is
    down, the links show the current section; while the flag of the header
    is down, the shadow is that of the scroll position. *)
Definition settled (header shadowed : bool) (tops : string -> option Z)
    (sections : list (option string)) (st : State) : Prop :=
  has_header st = header
  /\ Navigation.offsetTop (page st) = tops
  /\ map data_section (links st) = sections
  /\ nav_frames st = (if nav_ticking st then 1%nat else 0%nat)
  /\ header_frames st = (if header_ticking st then 1%nat else 0%nat)
  /\ (nav_ticking st = false -> shows (links st) (Navigation.getCurrentSection (page st)))
  /\ (if header
      then header_ticking st = false -> shadow st = (Navigation.scrollY (page st) >? 10)
      else header_ticking st = false /\ shadow st = shadowed).

End Scrolling.

(** ** Company logos ([checkCompanyLogo]) *)

Module Logo.

Definition checkCompanyLogo (w : World) (logoPath : string) : bool :=
  if String.eqb logoPath "" then false      (* !logoPath *)
  else existsSync w (path_join w [cwd w; "public"; logoPath]).

(** No reference in the two arrays is the empty string. *)
Definition named (st : Integrity.Refs) : Prop :=
  forall s, In s (Integrity.missing st) \/ In s (Integrity.found st) -> s <> "".

End Logo.

(** ** The process around the validation

    A [World] is what the program reads in a process whose working
    directory exists and whose parser meets every text for the first time.
    In general [process.cwd()] throws when the working directory has been
    removed, gray-matter answers a text that it was given before from its
    cache, and [fs.watch] throws when it cannot watch the directory.  The
    functions are embedded once more over a [Host], which has these three;
    the state that they thread is gray-matter's cache. *)

Module Stateful.
Import Blocks.

(** [matter.cache]: the texts that gray-matter has stored so far. *)
Definition Cache : Type := list string.

(** A function of the program: a value or a thrown error, and the cache
    afterwards. *)
Definition Proc (A : Type) : Type := Cache -> result A * Cache.

(** The arrays of the running function and the cache. *)
Record State : Type := mkState {
  arrays : Acc;
  texts : Cache
}.

Definition Block (A : Type) : Type := State -> completion A * State.

Definition ret {A} (a : A) : Block A := fun st => (Normal a, st).

Definition bind {A B} (m : Block A) (k : A -> Block B) : Block B :=
  fun st =>
    match m st with
    | (Normal a, st') => k a st'
    | (Return r, st') => (Return r, st')
    | (Raise msg, st') => (Raise msg, st')
    end.

(** An expression that may throw and leaves the cache alone. *)
Definition lift {A} (r : result A) : Block A :=
  fun st =>
    match r with
    | Ok a => (Normal a, st)
    | Throw msg => (Raise msg, st)
    end.

(** A call of a function of the program. *)
Definition call {A} (f : Proc A) : Block A :=
  fun st =>
    match f (texts st) with
    | (Ok a, c) => (Normal a, mkState (arrays st) c)
    | (Throw msg, c) => (Raise msg, mkState (arrays st) c)
    end.

Definition push_error (e : ValidationError) : Block unit :=
  fun st =>
    (Normal tt,
     mkState (mkAcc (acc_errors (arrays st) ++ [e]) (acc_warnings (arrays st))) (texts st)).

Definition push_warning (x : ValidationWarning) : Block unit :=
  fun st =>
    (Normal tt,
     mkState (mkAcc (acc_errors (arrays st)) (acc_warnings (arrays st) ++ [x])) (texts st)).

(** [arr.push(...xs)] *)
Definition push_errors (es : list ValidationError) : Block unit :=
  fun st =>
    (Normal tt,
     mkState (mkAcc (acc_errors (arrays st) ++ es) (acc_warnings (arrays st))) (texts st)).

Definition push_warnings (xs : list ValidationWarning) : Block unit :=
  fun st =>
    (Normal tt,
     mkState (mkAcc (acc_errors (arrays st)) (acc_warnings (arrays st) ++ xs)) (texts st)).

(** [return { isValid: false, errors, warnings }] *)
Definition return_invalid {A} : Block A :=
  fun st =>
    (Return (mkResult false (acc_errors (arrays st)) (acc_warnings (arrays st))), st).

(** [return { isValid: errors.length === 0, errors, warnings }] *)
Definition return_result {A} : Block A :=
  fun st =>
    (Return (mkResult (Nat.eqb (List.length (acc_errors (arrays st))) 0)
               (acc_errors (arrays st)) (acc_warnings (arrays st))), st).

(** [return r] *)
Definition return_value {A} (r : ValidationResult) : Block A :=
  fun st => (Return r, st).

(** [if (c) { body }] *)
Definition when (c : bool) (body : Block unit) : Block unit :=
  if c then body else ret tt.

(** [try { body } catch (error) { handler(error.message) }] *)
Definition try_catch (body : Block unit) (handler : string -> Block unit) : Block unit :=
  fun st =>
    match body st with
    | (Raise msg, st') => handler msg st'
    | other => other
    end.

(** [xs.forEach(x => { body(x) })] *)
Fixpoint forEach {A} (xs : list A) (body : A -> Block unit) : Block unit :=
  match xs with
  | [] => ret tt
  | x :: rest => bind (body x) (fun _ => forEach rest body)
  end.

(** Running a function body from empty arrays, in the cache of the call. *)
Definition run_function (body : Block unit) : Proc ValidationResult :=
  fun c =>
    match body (mkState (mkAcc [] []) c) with
    | (Return r, st) => (Ok r, texts st)
    | (Raise msg, st) => (Throw msg, texts st)
    | (Normal _, st) => (Throw "undefined is not a ValidationResult", texts st)
    end.

(** The block falls through, whatever the state. *)
Definition normal {A} (b : Block A) : Prop :=
  forall st, exists a st', b st = (Normal a, st').

(** The block executes a [return] statement, whatever the state, and the
    result has the property [P]. *)
Definition returns_with (P : ValidationResult -> Prop) (b : Block unit) : Prop :=
  forall st, exists r st', b st = (Return r, st') /\ P r.

Definition returns (b : Block unit) : Prop := returns_with (fun _ => True) b.

(** [isValid] is [errors.length === 0]. *)
Definition checked (r : ValidationResult) : Prop :=
  isValid r = Nat.eqb (List.length (errors r)) 0.

(** The function returns a value, whatever the cache. *)
Definition total {A} (f : Proc A) : Prop :=
  forall c, exists a c', f c = (Ok a, c').

End Stateful.

Declare Scope stateful_scope.
Delimit Scope stateful_scope with stateful.
Notation "x <- m ;; k" := (Stateful.bind m (fun x => k))
  (at level 61, m at next level, right associativity) : stateful_scope.
Notation "' pat <- m ;; k" := (Stateful.bind m (fun x => match x with pat => k end))
  (at level 61, pat pattern, m at next level, right associativity) : stateful_scope.
Notation "m ;; k" := (Stateful.bind m (fun _ => k))
  (at level 61, right associativity) : stateful_scope.

Module Node.
Import Stateful.
Local Open Scope stateful_scope.

(** The process in which the program runs: the environment that it reads,
    the error that [process.cwd()] throws when the working directory is
    gone ([None] when it is there, and [cwd] is what the call returns), and
    [fs.watch(dir, { recursive: true }, callback)], which starts a watcher
    or throws (the directory is missing, or the platform cannot watch it).
    [matter] of the environment is what gray-matter makes of a text that is
    not in its cache. *)
Record Host : Type := mkHost {
  world : World;
  cwd_error : option string;
  fs_watch : string -> result unit
}.

(** [process.cwd()] *)
Definition process_cwd (h : Host) : result string :=
  match cwd_error h with
  | Some msg => Throw msg
  | None => Ok (cwd (world h))
  end.

(** [matter.cache[text]] is set. *)
Definition cached (c : Stateful.Cache) (text : string) : bool :=
  existsb (String.eqb text) c.

(** [matter(text)].  gray-matter stores the file under its text, with empty
    data and the text as content, before it parses it, and the parser fills
    in the stored file.  A text that is stored is answered from the store:
    with the parsed file, or, where the parser threw, with the file as it
    was stored. *)
Definition gray_matter (h : Host) (text : string) : Stateful.Proc (value * string) :=
  fun c =>
    if cached c text then
      (match matter (world h) text with
       | Ok file => Ok file
       | Throw _ => Ok (VObj [], text)
       end, c)
    else (matter (world h) text, text :: c).

(** *** The validator *)

(** The check of a referenced asset, for [key] = "image" or "logo":
    [if (frontmatter.key && typeof frontmatter.key === 'string') { ... }] *)
Definition check_asset (h : Host) (filePath : string) (frontmatter : value)
    (key : string) : Stateful.Block unit :=
  asset <- lift (JS.get_prop frontmatter key) ;;
  when (JS.truthy asset && JS.is_string asset)
    (cwd <- lift (process_cwd h) ;;
     let assetPath := path_join (world h) [cwd; "public"; Validation.string_of asset] in
     when (negb (existsSync (world h) assetPath))
       (push_warning
          (mkWarning filePath (Some key)
             ("Referenced " ++ key ++ " file not found: " ++ Validation.string_of asset)))).

Definition validateContentFile (h : Host) (filePath : string)
    (schema : Zod.schema) (contentType : string) : Stateful.Proc ValidationResult :=
  run_function
    (try_catch
       ((* Check if file exists *)
        when (negb (existsSync (world h) filePath))
          (push_error (mkError filePath None (contentType ++ " file not found") SevError) ;;
           return_invalid) ;;
        (* Read and parse the file *)
        fileContent <- lift (readFileSync (world h) filePath) ;;
        '(frontmatter, content) <- call (gray_matter h fileContent) ;;
        (* Validate frontmatter against schema *)
        let result :=
          Zod.safeParse (is_email (world h)) (is_url (world h)) schema frontmatter in
        when (negb (Nat.eqb (List.length result) 0))
          (forEach result (fun error =>
             push_error
               (mkError filePath (Some (Zod.path_join_dot (Zod.issue_path error)))
                  (Zod.issue_message error) SevError))) ;;
        (* Additional content-specific validations *)
        when (String.eqb contentType "project" || String.eqb contentType "publication"
              || String.eqb contentType "experience" || String.eqb contentType "education")
          (when (negb (JS.truthy (VStr content))
                 || Nat.ltb (String.length (JS.trim content)) 50)
             (push_warning
                (mkWarning filePath None
                   (contentType ++
                    " content is very short (less than 50 characters). Consider adding more details.")))) ;;
        (* Validate image paths exist (if specified) *)
        check_asset h filePath frontmatter "image" ;;
        (* Validate logo paths exist (if specified) *)
        check_asset h filePath frontmatter "logo")
       (fun msg =>
          push_error (mkError filePath None ("Failed to parse file: " ++ msg) SevError)) ;;
     return_result).

Definition validateProfile (h : Host) : Stateful.Proc ValidationResult :=
  run_function
    (cwd <- lift (process_cwd h) ;;
     let profilePath := path_join (world h) [cwd; "src/content/profile/main.md"] in
     result <- call (validateContentFile h profilePath Schemas.profileSchema "profile") ;;
     return_value result).

Definition validateSkills (h : Host) : Stateful.Proc ValidationResult :=
  run_function
    (cwd <- lift (process_cwd h) ;;
     let skillsPath := path_join (world h) [cwd; "src/content/skills/main.md"] in
     result <- call (validateContentFile h skillsPath Schemas.skillsSchema "skills") ;;
     return_value result).

Definition validateCollection (h : Host) (collectionName : string)
    (schema : Zod.schema) : Stateful.Proc ValidationResult :=
  run_function
    (cwd <- lift (process_cwd h) ;;
     let collectionPath := path_join (world h) [cwd; "src/content"; collectionName] in
     try_catch
       (when (negb (existsSync (world h) collectionPath))
          (push_error
             (mkError collectionPath None
                ("Collection directory not found: " ++ collectionName) SevError) ;;
           return_invalid) ;;
        entries <- lift (readdirSync (world h) collectionPath) ;;
        let files := filter Validation.is_content_file entries in
        when (Nat.eqb (List.length files) 0)
          (push_warning
             (mkWarning collectionPath None
                ("No content files found in " ++ collectionName ++ " collection"))) ;;
        forEach files (fun file =>
          let filePath := path_join (world h) [collectionPath; file] in
          result <- call (validateContentFile h filePath schema collectionName) ;;
          push_errors (errors result) ;;
          push_warnings (warnings result)))
       (fun msg =>
          push_error
            (mkError collectionPath None
               ("Failed to read collection directory: " ++ msg) SevError)) ;;
     return_result).

Definition validateAllContent (h : Host) : Stateful.Proc ValidationResult :=
  run_function
    ((* Validate profile *)
     profileResult <- call (validateProfile h) ;;
     push_errors (errors profileResult) ;;
     push_warnings (warnings profileResult) ;;
     (* Validate skills *)
     skillsResult <- call (validateSkills h) ;;
     push_errors (errors skillsResult) ;;
     push_warnings (warnings skillsResult) ;;
     (* Validate collections *)
     forEach (Validation.collections (world h)) (fun '(name, schema) =>
       result <- call (validateCollection h name schema) ;;
       push_errors (errors result) ;;
       push_warnings (warnings result)) ;;
     return_result).

(** *** The middleware *)

Definition validateForDev (h : Host) : Stateful.Proc bool :=
  fun c =>
    match validateAllContent h c with
    | (Ok result, c') => (Ok (isValid result), c')
    | (Throw msg, c') => (Throw msg, c')
    end.

(** [buildStart()] of the middleware; [production] is
    [process.env.NODE_ENV === 'production']. *)
Definition buildStart (h : Host) (production : bool) : Stateful.Proc unit :=
  fun c =>
    match validateForDev h c with
    | (Ok isValid, c') =>
        if negb isValid && production
        then (Throw "Content validation failed. Cannot proceed with production build.", c')
        else (Ok tt, c')
    | (Throw msg, c') => (Throw msg, c')
    end.

(** *** The build script *)

Fixpoint count_dirs (h : Host) (dirs : list string) : result (list (string * nat)) :=
  match dirs with
  | [] => Ok []
  | dir :: rest =>
      Res.bind (process_cwd h) (fun cwd =>
      let dirPath := path_join (world h) [cwd; "src/content"; dir] in
      Res.bind (if existsSync (world h) dirPath
                then Res.bind (readdirSync (world h) dirPath) (fun entries =>
                       Ok (List.length (filter (fun file => JS.endsWith file ".md") entries)))
                else Ok 0%nat) (fun n =>
      Res.bind (count_dirs h rest) (fun stats =>
      Ok ((dir, n) :: stats))))
  end.

Definition getContentCounts (h : Host) : result (list (string * nat)) :=
  count_dirs h Script.contentDirs.

Definition printContentSummary (h : Host) : result unit :=
  Res.bind (getContentCounts h) (fun counts => Ok tt).

(** [runValidation()]; [watch] is the constant [isWatchMode] of the
    script. *)
Definition runValidation (h : Host) (watch : bool)
    : Stateful.Cache -> Script.outcome * Stateful.Cache :=
  fun c =>
    match printContentSummary h with
    | Ok _ =>
        match validateAllContent h c with
        | (Ok result, c') =>
            (if negb (isValid result) then
               if watch then Script.Returned false else Script.Exited 1
             else Script.Returned true, c')
        | (Throw _, c') =>
            (* catch (error) *)
            (if negb watch then Script.Exited 1 else Script.Returned false, c')
        end
    | Throw _ =>
        (* catch (error) *)
        (if negb watch then Script.Exited 1 else Script.Returned false, c)
    end.

(** What the watcher delivers: a change event, with the file name
    (possibly [null]) and the process as the validation that the callback
    schedules finds it, or an [error] event, for which the script has no
    listener. *)
Inductive Event : Type :=
| Change (filename : option string) (h : Host)
| WatcherError (msg : string).

(** [filename && filename.endsWith('.md')] *)
Definition triggers (filename : option string) : bool :=
  match filename with
  | Some name => negb (String.eqb name "") && JS.endsWith name ".md"
  | None => false
  end.

(** The process: ended with an exit code, ended by an error that nothing
    caught, or still watching, with the results of the validations run so
    far. *)
Inductive Process : Type :=
| Exit (code : Z)
| Uncaught (msg : string)
| Watching (runs : list bool).

Fixpoint watch_loop (watch : bool) (events : list Event) (runs : list bool)
    (c : Stateful.Cache) : Process :=
  match events with
  | [] => Watching runs
  | Change filename h :: rest =>
      if triggers filename then
        match runValidation h watch c with
        | (Script.Exited code, _) => Exit code
        | (Script.Returned b, c') => watch_loop watch rest (runs ++ [b]) c'
        end
      else watch_loop watch rest runs c
  | WatcherError msg :: _ => Uncaught msg
  end.

Definition watchContent (h : Host) (watch : bool) (events : list Event)
    (c : Stateful.Cache) : Process :=
  match process_cwd h with
  | Throw msg => Uncaught msg
  | Ok cwd =>
      let contentDir := path_join (world h) [cwd; "src/content"] in
      (* Initial validation *)
      match runValidation h watch c with
      | (Script.Exited code, _) => Exit code
      | (Script.Returned b, c') =>
          (* Watch for changes *)
          match fs_watch h contentDir with
          | Throw msg => Uncaught msg
          | Ok _ => watch_loop watch events [b] c'
          end
      end
  end.

(** [main()] in a process that has just started: the cache is empty.
    Without the flag the script validates once and the process ends, with
    status 0 unless [process.exit(1)] was called. *)
Definition main (argv : list string) (h : Host) (events : list Event) : Process :=
  if Script.isWatchMode argv then watchContent h (Script.isWatchMode argv) events []
  else
    match runValidation h (Script.isWatchMode argv) [] with
    | (Script.Exited code, _) => Exit code
    | (Script.Returned _, _) => Exit 0
    end.

(** *** Vocabulary of the statements *)

(** The environment of [h] in which the parser answers as gray-matter does
    with the cache [c]. *)
Definition answered (h : Host) (c : Stateful.Cache) : World :=
  {| cwd := cwd (world h);
     path_join := path_join (world h);
     existsSync := existsSync (world h);
     readFileSync := readFileSync (world h);
     readdirSync := readdirSync (world h);
     matter := fun text => fst (gray_matter h text c);
     is_email := is_email (world h);
     is_url := is_url (world h);
     current_year := current_year (world h) |}.

Definition collection_path (h : Host) (collectionName : string) : string :=
  path_join (world h) [cwd (world h); "src/content"; collectionName].

Definition member_path (h : Host) (collectionName file : string) : string :=
  path_join (world h) [collection_path h collectionName; file].

(** The call that [validateCollection] makes for the entry [file]. *)
Definition validate_member (h : Host) (collectionName : string) (schema : Zod.schema)
    (file : string) : Stateful.Proc ValidationResult :=
  validateContentFile h (member_path h collectionName file) schema collectionName.

(** The calls for the entries [files], one after the other: the results, and
    the cache that the last one leaves. *)
Fixpoint members (h : Host) (collectionName : string) (schema : Zod.schema)
    (files : list string) (c : Stateful.Cache)
    : list (result ValidationResult) * Stateful.Cache :=
  match files with
  | [] => ([], c)
  | file :: rest =>
      let (r, c1) := validate_member h collectionName schema file c in
      let (rs, c2) := members h collectionName schema rest c1 in
      (r :: rs, c2)
  end.

(** The file exists but cannot be read, or gray-matter, called in the
    cache [c], throws on its text; [msg] is the message of the error. *)
Definition fails_to_parse (h : Host) (c : Stateful.Cache) (filePath msg : string) : Prop :=
  existsSync (world h) filePath = true
  /\ (readFileSync (world h) filePath = Throw msg
      \/ exists text, readFileSync (world h) filePath = Ok text
                      /\ fst (gray_matter h text c) = Throw msg).

(** The validation of the script fails in [h] with the cache [c]: the
    summary or [validateAllContent] throws, or the result is invalid. *)
Definition fails (h : Host) (c : Stateful.Cache) : Prop :=
  (exists msg, printContentSummary h = Throw msg)
  \/ (exists msg, fst (validateAllContent h c) = Throw msg)
  \/ (exists r, fst (validateAllContent h c) = Ok r /\ isValid r = false).

(** The validation of the script succeeds in [h] with the cache [c]. *)
Definition passes (h : Host) (c : Stateful.Cache) : bool :=
  match printContentSummary h with
  | Ok _ =>
      match fst (validateAllContent h c) with
      | Ok r => isValid r
      | Throw _ => false
      end
  | Throw _ => false
  end.

(** The cache that [runValidation] leaves. *)
Definition left_by (h : Host) (c : Stateful.Cache) : Stateful.Cache :=
  snd (runValidation h true c).

(** The verdicts of the validations that the change events of [events]
    find, each in the cache that the one before it left. *)
Fixpoint verdicts (events : list Event) (c : Stateful.Cache) : list bool :=
  match events with
  | [] => []
  | Change _ h :: rest => passes h c :: verdicts rest (left_by h c)
  | WatcherError _ :: rest => verdicts rest c
  end.

(** [path.join(process.cwd(), 'src/content')] *)
Definition content_dir (h : Host) : string :=
  path_join (world h) [cwd (world h); "src/content"].

Definition is_change (e : Event) : bool :=
  match e with
  | Change _ _ => true
  | WatcherError _ => false
  end.

(** A change event that names a file ending in [.md]. *)
Definition is_md_event (e : Event) : bool :=
  match e with
  | Change (Some filename) _ => JS.endsWith filename ".md"
  | _ => false
  end.

(** A process in which nothing of the three fails, around the environment
    [w]. *)
Definition sound (w : World) : Host := mkHost w None (fun _ => Ok tt).

(** The sample site in a process whose working directory has been
    removed. *)
Definition removed : Host :=
  mkHost Sample.site (Some "ENOENT: no such file or directory, uv_cwd") (fun _ => Ok tt).

(** A site whose experience collection has two files with the same
    malformed text. *)
Definition twins : Host :=
  sound
    (Sample.table_world
       [ ("/site/src/content/experience/a.md", "broken");
         ("/site/src/content/experience/b.md", "broken") ]
       [ ("/site/src/content/experience", ["a.md"; "b.md"]) ]
       []).

(** An empty directory as the working directory: there is no
    [src/content] to watch. *)
Definition unwatchable : Host :=
  mkHost (Sample.table_world [] [] []) None
    (fun dir => Throw ("ENOENT: no such file or directory, watch '" ++ dir ++ "'")).

End Node.

(** * Properties *)

(** ** Blocks *)

Section BlockFacts.
Import Blocks.

Lemma forEach_push_error {A} (f : A -> ValidationError) (xs : list A) (acc : Acc) :
  forEach xs (fun x => push_error (f x)) acc
  = (Normal tt, mkAcc (acc_errors acc ++ map f xs) (acc_warnings acc)).
Proof.
  revert acc. induction xs as [|x xs IH]; intros acc; simpl.
  - unfold ret. rewrite app_nil_r. now destruct acc.
  - unfold bind, push_error at 1. rewrite IH. simpl.
    now rewrite <- app_assoc.
Qed.

(** A loop whose callback pushes the two lists of a computed result. *)
Lemma forEach_push_results {A} (f : A -> ValidationResult) (xs : list A) (acc : Acc) :
  forEach xs (fun x =>
    bind (lift (Ok (f x))) (fun r =>
      bind (push_errors (errors r)) (fun _ => push_warnings (warnings r)))) acc
  = (Normal tt,
     mkAcc (acc_errors acc ++ flat_map (fun x => errors (f x)) xs)
           (acc_warnings acc ++ flat_map (fun x => warnings (f x)) xs)).
Proof.
  revert acc. induction xs as [|x xs IH]; intros acc; simpl.
  - unfold ret. rewrite !app_nil_r. now destruct acc.
  - unfold bind at 1 2 3. unfold lift at 1, push_errors at 1, push_warnings at 1.
    rewrite IH. cbn [acc_errors acc_warnings].
    now rewrite <- !app_assoc.
Qed.

End BlockFacts.

(** ** Results of [validateContentFile], case by case *)

Section FileFacts.
Import Blocks Validation Closed.

Lemma file_missing w filePath schema contentType :
  existsSync w filePath = false ->
  validateContentFile w filePath schema contentType
  = Ok (mkResult false
          [mkError filePath None (contentType ++ " file not found") SevError] []).
Proof.
  intros H. unfold validateContentFile, run_function, try_catch, bind, when.
  rewrite H. reflexivity.
Qed.

Lemma file_unreadable w filePath schema contentType msg :
  existsSync w filePath = true ->
  readFileSync w filePath = Throw msg ->
  validateContentFile w filePath schema contentType
  = Ok (mkResult false [parse_error filePath msg] []).
Proof.
  intros H1 H2. unfold validateContentFile, run_function, try_catch, bind, when.
  rewrite H1, H2. reflexivity.
Qed.

Lemma file_malformed w filePath schema contentType text msg :
  existsSync w filePath = true ->
  readFileSync w filePath = Ok text ->
  matter w text = Throw msg ->
  validateContentFile w filePath schema contentType
  = Ok (mkResult false [parse_error filePath msg] []).
Proof.
  intros H1 H2 H3. unfold validateContentFile, run_function, try_catch, bind, when.
  rewrite H1, H2. simpl. rewrite H3. reflexivity.
Qed.

Lemma check_asset_run w filePath frontmatter key acc :
  check_asset w filePath frontmatter key acc
  = match JS.get_prop frontmatter key with
    | Throw msg => (Raise msg, acc)
    | Ok _ =>
        (Normal tt,
         mkAcc (acc_errors acc)
               (acc_warnings acc ++ asset_warnings w filePath frontmatter key))
    end.
Proof.
  unfold check_asset, asset_warnings, bind, lift, when.
  destruct (JS.get_prop frontmatter key) as [v|msg]; [|reflexivity].
  destruct v as [| |b|n|s|items|fields|ms];
    cbn [JS.truthy JS.is_string string_of andb]; rewrite ?andb_false_r;
    unfold ret; rewrite ?app_nil_r; try (now destruct acc).
  rewrite andb_true_r.
  destruct (String.eqb s ""); simpl.
  - rewrite app_nil_r. now destruct acc.
  - destruct (existsSync w _); simpl.
    + rewrite app_nil_r. now destruct acc.
    + reflexivity.
Qed.

Lemma get_prop_ok_alike frontmatter k k' v :
  JS.get_prop frontmatter k = Ok v ->
  exists v', JS.get_prop frontmatter k' = Ok v'.
Proof.
  destruct frontmatter; simpl; intros H; try discriminate; eexists; reflexivity.
Qed.

Lemma file_parsed w filePath schema contentType text frontmatter content :
  existsSync w filePath = true ->
  readFileSync w filePath = Ok text ->
  matter w text = Ok (frontmatter, content) ->
  validateContentFile w filePath schema contentType
  = Ok (parsed_result w filePath schema contentType frontmatter content).
Proof.
  intros H1 H2 H3.
  unfold validateContentFile, run_function, try_catch.
  unfold bind at 1. unfold bind at 1. unfold when at 1. rewrite H1. simpl.
  unfold bind at 1. rewrite H2. simpl.
  unfold bind at 1. rewrite H3. simpl.
  unfold bind at 1.
  assert (Hschema :
    when (negb (Nat.eqb (List.length
            (Zod.safeParse (is_email w) (is_url w) schema frontmatter)) 0))
      (forEach (Zod.safeParse (is_email w) (is_url w) schema frontmatter)
         (fun error =>
            push_error
              (mkError filePath (Some (Zod.path_join_dot (Zod.issue_path error)))
                 (Zod.issue_message error) SevError))) (mkAcc [] [])
    = (Normal tt, mkAcc (schema_errors w filePath schema frontmatter) [])).
  { unfold when, schema_errors.
    destruct (Zod.safeParse (is_email w) (is_url w) schema frontmatter) eqn:E.
    - reflexivity.
    - cbn [List.length Nat.eqb negb]. now rewrite forEach_push_error. }
  rewrite Hschema. clear Hschema.
  unfold bind at 1.
  assert (Hbody : forall acc,
    when (String.eqb contentType "project" || String.eqb contentType "publication"
          || String.eqb contentType "experience" || String.eqb contentType "education")
      (when (negb (JS.truthy (VStr content))
             || Nat.ltb (String.length (JS.trim content)) 50)
         (push_warning (short_content_warning filePath contentType))) acc
    = (Normal tt,
       mkAcc (acc_errors acc)
             (acc_warnings acc ++ body_warnings filePath contentType content))).
  { intros acc. unfold body_warnings, checks_body_length, when.
    destruct (String.eqb contentType "project" || String.eqb contentType "publication"
              || String.eqb contentType "experience" || String.eqb contentType "education");
      destruct (negb (JS.truthy (VStr content))
                || Nat.ltb (String.length (JS.trim content)) 50);
      cbn [andb]; unfold push_warning, ret; rewrite ?app_nil_r;
      now destruct acc. }
  unfold short_content_warning in Hbody. rewrite Hbody. clear Hbody. simpl.
  unfold bind at 1. rewrite check_asset_run.
  unfold parsed_result.
  destruct (JS.get_prop frontmatter "image") as [v|msg] eqn:Eimg.
  - rewrite check_asset_run.
    destruct (get_prop_ok_alike frontmatter "image" "logo" v Eimg) as [v' ->].
    simpl. unfold make_result. now rewrite <- app_assoc.
  - simpl. reflexivity.
Qed.

End FileFacts.

(** ** The functions compute their closed forms *)

Section ResultFacts.
Import Blocks Validation Closed.

Lemma validateContentFile_eq w filePath schema contentType :
  validateContentFile w filePath schema contentType
  = Ok (file_result w filePath schema contentType).
Proof.
  unfold file_result.
  destruct (existsSync w filePath) eqn:E1; [|now apply file_missing].
  destruct (readFileSync w filePath) as [text|msg] eqn:E2;
    [|now apply file_unreadable].
  destruct (matter w text) as [[frontmatter content]|msg] eqn:E3.
  - now apply file_parsed with (text := text).
  - now apply file_malformed with (text := text).
Qed.

Lemma parsed_result_invariant w filePath schema contentType frontmatter content :
  let r := parsed_result w filePath schema contentType frontmatter content in
  isValid r = Nat.eqb (List.length (errors r)) 0.
Proof.
  unfold parsed_result. now destruct (JS.get_prop frontmatter "image").
Qed.

Lemma file_result_invariant w filePath schema contentType :
  let r := file_result w filePath schema contentType in
  isValid r = Nat.eqb (List.length (errors r)) 0.
Proof.
  unfold file_result.
  destruct (existsSync w filePath); [|reflexivity].
  destruct (readFileSync w filePath) as [text|msg]; [|reflexivity].
  destruct (matter w text) as [[frontmatter content]|msg]; [|reflexivity].
  apply parsed_result_invariant.
Qed.
Lemma forEach_ext {A} (f g : A -> Block unit) (xs : list A) :
  (forall x acc, f x acc = g x acc) ->
  forall acc, forEach xs f acc = forEach xs g acc.
Proof.
  intros H. induction xs as [|x xs IH]; intros acc; simpl; [reflexivity|].
  unfold bind. rewrite H. destruct (g x acc) as [[[]|r|msg] acc']; auto.
Qed.

Lemma validateCollection_eq w collectionName schema :
  validateCollection w collectionName schema
  = Ok (collection_result w collectionName schema).
Proof.
  unfold validateCollection, collection_result, collection_path, run_function, try_catch.
  set (collectionPath := path_join w [cwd w; "src/content"; collectionName]).
  unfold bind at 1. unfold bind at 1. unfold when at 1.
  destruct (existsSync w collectionPath); [|reflexivity].
  cbn [negb ret]. unfold bind at 1.
  destruct (readdirSync w collectionPath) as [entries|msg]; [|reflexivity].
  cbn [lift]. unfold bind at 1.
  assert (Hloop : forall acc,
    forEach (filter is_content_file entries)
      (fun file =>
         bind (lift (validateContentFile w (path_join w [collectionPath; file])
                       schema collectionName)) (fun result =>
           bind (push_errors (errors result)) (fun _ =>
             push_warnings (warnings result)))) acc
    = (Normal tt,
       mkAcc
         (acc_errors acc
          ++ flat_map (fun file => errors (member_result w collectionName schema file))
               (filter is_content_file entries))
         (acc_warnings acc
          ++ flat_map (fun file => warnings (member_result w collectionName schema file))
               (filter is_content_file entries)))).
  { intros acc. rewrite <- forEach_push_results.
    apply forEach_ext. intros file acc0.
    unfold bind at 1 3. now rewrite validateContentFile_eq. }
  unfold listing_result, no_files_warning, collection_path.
  fold collectionPath.
  unfold when.
  destruct (Nat.eqb (List.length (filter is_content_file entries)) 0);
    cbn [push_warning ret acc_errors acc_warnings];
    rewrite Hloop; reflexivity.
Qed.

Lemma collection_result_invariant w collectionName schema :
  let r := collection_result w collectionName schema in
  isValid r = Nat.eqb (List.length (errors r)) 0.
Proof.
  unfold collection_result.
  destruct (existsSync w _); [|reflexivity].
  destruct (readdirSync w _); reflexivity.
Qed.
Lemma validateAllContent_eq w :
  validateAllContent w = Ok (all_result w).
Proof.
  unfold validateAllContent, validateProfile, validateSkills, run_function.
  rewrite !validateContentFile_eq.
  unfold collections. cbn [forEach].
  rewrite !validateCollection_eq.
  unfold all_result, constituents, collections, profile_result, skills_result.
  cbn [map fst snd flat_map].
  unfold bind, lift, push_errors, push_warnings, ret, return_result, make_result.
  cbn [acc_errors acc_warnings app].
  rewrite !app_nil_r, <- !app_assoc. reflexivity.
Qed.

End ResultFacts.

(** ** Required fields *)

Section FieldFacts.
Import Zod Validation Closed Fields.

Example required_fields_profile :
  required_fields Schemas.profileSchema
  = ["name"; "title"; "bio"; "email"; "location"; "profileImage"; "social"].
Proof. reflexivity. Qed.

Example required_fields_project :
  required_fields Schemas.projectSchema = ["title"; "description"; "image"; "tags"].
Proof. reflexivity. Qed.







End FieldFacts.

Example required_paths_skills :
  map Zod.path_join_dot (Fields.required_paths Schemas.skillsSchema Sample.skills_data)
  = [ "categories"; "categories.0.name"; "categories.0.skills";
      "categories.0.skills.0.name"; "categories.0.skills.0.level";
      "categories.0.skills.0.color" ].
Proof. reflexivity. Qed.

(** ** Required keys at any depth *)

Section NestedFields.
Import Zod Fields.
Variables (em ur : string -> bool).

(** Induction on schemas with a hypothesis for every entry of a shape. *)
Lemma schema_nested_ind (P : schema -> Prop) :
  (forall checks, P (SString checks)) ->
  (forall checks, P (SNumber checks)) ->
  P SBoolean ->
  (forall options msg, P (SEnum options msg)) ->
  (forall elem min, P elem -> P (SArray elem min)) ->
  (forall shape, Forall (fun entry => P (snd entry)) shape -> P (SObject shape)) ->
  (forall inner, P inner -> P (SOptional inner)) ->
  (forall inner dflt, P inner -> P (SDefault inner dflt)) ->
  forall s, P s.
Proof.
  intros HS HN HB HE HA HO HOpt HD.
  fix IH 1. intros s. destruct s as [checks|checks| |options msg|elem min|shape|inner|inner dflt].
  - apply HS.
  - apply HN.
  - apply HB.
  - apply HE.
  - apply HA, IH.
  - apply HO. induction shape as [|[k sk] shape IHshape]; constructor.
    + apply IH.
    + apply IHshape.
  - apply HOpt, IH.
  - apply HD, IH.
Qed.












End NestedFields.

(** ** Schema round trip *)

Section RoundTrip.
Import Zod Validation Closed Fields.

Lemma parsed_file_result w filePath schema contentType frontmatter content :
  parses_to w filePath frontmatter content ->
  validateContentFile w filePath schema contentType
  = Ok (parsed_result w filePath schema contentType frontmatter content).
Proof.
  intros [Hex [text [Hread Hmatter]]]. now apply file_parsed with (text := text).
Qed.


End RoundTrip.


(** ** The result invariant and the absence of uncaught exceptions *)

Section Invariant.
Import Validation Closed.

Lemma valid_iff_no_error (r : ValidationResult) :
  isValid r = Nat.eqb (List.length (errors r)) 0 ->
  (isValid r = true <-> errors r = []).
Proof.
  intros ->. destruct (errors r); simpl; split; congruence.
Qed.

Lemma all_result_lists w :
  errors (all_result w)
  = errors (profile_result w) ++ errors (skills_result w)
    ++ errors (collection_result w "projects" Schemas.projectSchema)
    ++ errors (collection_result w "publications"
                 (Schemas.publicationSchema (current_year w)))
    ++ errors (collection_result w "experience" Schemas.experienceSchema)
    ++ errors (collection_result w "education" Schemas.educationSchema)
  /\ warnings (all_result w)
  = warnings (profile_result w) ++ warnings (skills_result w)
    ++ warnings (collection_result w "projects" Schemas.projectSchema)
    ++ warnings (collection_result w "publications"
                   (Schemas.publicationSchema (current_year w)))
    ++ warnings (collection_result w "experience" Schemas.experienceSchema)
    ++ warnings (collection_result w "education" Schemas.educationSchema).
Proof.
  unfold all_result, constituents, collections, make_result.
  cbn [errors warnings map flat_map fst snd]. rewrite !app_nil_r. split; reflexivity.
Qed.

(** C9. Every result of [validateContentFile], [validateCollection] and
    [validateAllContent] has [isValid] true exactly when its [errors] list
    is empty, and the lists of [validateAllContent] are the concatenations,
    in order, of the lists of the profile, the skills and the four
    collection validations. *)
Theorem validation_result_invariant (w : World) :
  (forall filePath schema contentType,
      exists r, validateContentFile w filePath schema contentType = Ok r
                /\ (isValid r = true <-> errors r = []))
  /\ (forall collectionName schema,
         exists r, validateCollection w collectionName schema = Ok r
                   /\ (isValid r = true <-> errors r = []))
  /\ exists r profile skills projects publications experience education,
       validateAllContent w = Ok r
       /\ (isValid r = true <-> errors r = [])
       /\ validateProfile w = Ok profile
       /\ validateSkills w = Ok skills
       /\ validateCollection w "projects" Schemas.projectSchema = Ok projects
       /\ validateCollection w "publications"
            (Schemas.publicationSchema (current_year w)) = Ok publications
       /\ validateCollection w "experience" Schemas.experienceSchema = Ok experience
       /\ validateCollection w "education" Schemas.educationSchema = Ok education
       /\ errors r = errors profile ++ errors skills ++ errors projects
                     ++ errors publications ++ errors experience ++ errors education
       /\ warnings r = warnings profile ++ warnings skills ++ warnings projects
                       ++ warnings publications ++ warnings experience
                       ++ warnings education.
Proof.
  split; [|split].
  - intros filePath schema contentType. rewrite validateContentFile_eq.
    eexists; split; [reflexivity|].
    apply valid_iff_no_error, file_result_invariant.
  - intros collectionName schema. rewrite validateCollection_eq.
    eexists; split; [reflexivity|].
    apply valid_iff_no_error, collection_result_invariant.
  - unfold validateProfile, validateSkills.
    rewrite validateAllContent_eq, !validateContentFile_eq, !validateCollection_eq.
    destruct (all_result_lists w) as [He Hw].
    do 7 eexists. split; [reflexivity|].
    split; [apply valid_iff_no_error; reflexivity|].
    repeat (split; [reflexivity|]).
    split; [exact He|exact Hw].
Qed.

End Invariant.

(** ** Collections *)

Section Collections.
Import Validation Closed Terms.

Lemma member_result_eq w collectionName schema file :
  validate_member w collectionName schema file
  = Ok (member_result w collectionName schema file).
Proof. apply validateContentFile_eq. Qed.

Lemma flat_map_members_errors w collectionName schema files :
  flat_map (fun file => errors_of (validate_member w collectionName schema file)) files
  = flat_map (fun file => errors (member_result w collectionName schema file)) files.
Proof.
  apply flat_map_ext. intros file. now rewrite member_result_eq.
Qed.

Lemma flat_map_members_warnings w collectionName schema files :
  flat_map (fun file => warnings_of (validate_member w collectionName schema file)) files
  = flat_map (fun file => warnings (member_result w collectionName schema file)) files.
Proof.
  apply flat_map_ext. intros file. now rewrite member_result_eq.
Qed.

(** The result of a collection whose directory can be listed. *)
Lemma collection_listed w collectionName schema entries :
  existsSync w (collection_path w collectionName) = true ->
  readdirSync w (collection_path w collectionName) = Ok entries ->
  validateCollection w collectionName schema
  = Ok (listing_result w collectionName schema entries).
Proof.
  intros H1 H2. rewrite validateCollection_eq. unfold collection_result.
  now rewrite H1, H2.
Qed.

(** C10. A collection whose directory exists and lists no entry that ends
    in [.md] without starting with a dot is valid: no error, and the single
    warning that no content files were found.  In general only the entries
    that pass this filter are validated: the errors and the warnings of the
    result are those of the filtered entries, in order. *)
Theorem empty_collection_passes w collectionName schema entries :
  existsSync w (collection_path w collectionName) = true ->
  readdirSync w (collection_path w collectionName) = Ok entries ->
  (filter is_content_file entries = [] ->
   validateCollection w collectionName schema
   = Ok (mkResult true []
           [mkWarning (collection_path w collectionName) None
              ("No content files found in " ++ collectionName ++ " collection")]))
  /\ exists r,
       validateCollection w collectionName schema = Ok r
       /\ errors r
          = flat_map (fun f => errors_of (validate_member w collectionName schema f))
              (filter is_content_file entries)
       /\ warnings r
          = (if Nat.eqb (List.length (filter is_content_file entries)) 0
             then [mkWarning (collection_path w collectionName) None
                     ("No content files found in " ++ collectionName ++ " collection")]
             else [])
            ++ flat_map (fun f => warnings_of (validate_member w collectionName schema f))
                 (filter is_content_file entries).
Proof.
  intros Hex Hdir.
  rewrite (collection_listed w collectionName schema entries Hex Hdir).
  split.
  - intros Hnone. unfold listing_result. rewrite Hnone. reflexivity.
  - eexists; split; [reflexivity|].
    rewrite flat_map_members_errors, flat_map_members_warnings.
    unfold listing_result, make_result, no_files_warning. cbn [errors warnings].
    split; reflexivity.
Qed.

Lemma empty_collection_passes_witness :
  filter is_content_file [".hidden.md"; "README"] = []
  /\ validateCollection Sample.site "publications" (Schemas.publicationSchema 2026)
     = Ok (mkResult true []
             [mkWarning "/site/src/content/publications" None
                "No content files found in publications collection"]).
Proof.
  split; [reflexivity|].
  apply (empty_collection_passes Sample.site "publications"
           (Schemas.publicationSchema 2026) [".hidden.md"; "README"]);
    reflexivity.
Defined.

End Collections.

(** ** The build script *)

Section ScriptFacts.
Import Validation Closed Terms Script.

Lemma count_dirs_throws w dirs msg :
  count_dirs w dirs = Throw msg ->
  exists dir, In dir dirs
              /\ existsSync w (collection_path w dir) = true
              /\ readdirSync w (collection_path w dir) = Throw msg.
Proof.
  induction dirs as [|dir dirs IH]; simpl; [discriminate|].
  fold (collection_path w dir).
  destruct (existsSync w (collection_path w dir)) eqn:Hex.
  - destruct (readdirSync w (collection_path w dir)) as [entries|msg'] eqn:Hdir; simpl.
    + destruct (count_dirs w dirs) as [stats|msg'] eqn:Hrest; simpl; [discriminate|].
      intros H; inversion H; subst msg'.
      destruct (IH eq_refl) as [d [Hd Hrest']]. exists d. split; [now right|exact Hrest'].
    + intros H; inversion H; subst msg'. exists dir. split; [now left|now split].
  - simpl. destruct (count_dirs w dirs) as [stats|msg'] eqn:Hrest; simpl; [discriminate|].
    intros H; inversion H; subst msg'.
    destruct (IH eq_refl) as [d [Hd Hrest']]. exists d. split; [now right|exact Hrest'].
Qed.

Lemma flat_map_not_nil {A B} (f : A -> list B) (x : A) (xs : list A) :
  In x xs -> f x <> [] -> flat_map f xs <> [].
Proof.
  induction xs as [|y ys IH]; simpl; [contradiction|].
  intros [->|Hin] Hx.
  - destruct (f x); [contradiction|discriminate].
  - intros H. apply app_eq_nil in H. destruct H as [_ H]. now apply (IH Hin Hx).
Qed.

Lemma content_dir_validated w dir :
  In dir contentDirs ->
  exists schema, In (collection_result w dir schema) (constituents w).
Proof.
  unfold contentDirs, constituents, collections. cbn [map fst snd].
  intros [<-|[<-|[<-|[<-|[]]]]]; eexists; simpl; eauto 10.
Qed.

(** A failure of the summary is a failure of the validation too: the
    directory that cannot be listed is one of the four collections. *)
Lemma summary_failure_is_error w msg :
  printContentSummary w = Throw msg -> errors (all_result w) <> [].
Proof.
  unfold printContentSummary, getContentCounts. intros H.
  destruct (count_dirs w contentDirs) as [stats|msg'] eqn:Hc; [discriminate|].
  destruct (count_dirs_throws w contentDirs msg' Hc) as [dir [Hin [Hex Hdir]]].
  destruct (content_dir_validated w dir Hin) as [schema Hcons].
  unfold all_result, make_result. cbn [errors].
  apply flat_map_not_nil with (x := collection_result w dir schema); [exact Hcons|].
  unfold collection_result. rewrite Hex, Hdir. discriminate.
Qed.

Lemma passes_iff_no_error w :
  passes w = true <-> errors (all_result w) = [].
Proof.
  unfold passes. rewrite validateAllContent_eq.
  destruct (printContentSummary w) as [[]|msg] eqn:Hs.
  - unfold all_result, make_result. cbn [isValid errors].
    destruct (flat_map errors (constituents w)); simpl; split; congruence.
  - split; [discriminate|]. intros H. now apply summary_failure_is_error in Hs.
Qed.

Lemma runValidation_watch w :
  runValidation w true = Returned (passes w).
Proof.
  unfold runValidation, passes. rewrite validateAllContent_eq.
  destruct (printContentSummary w) as [[]|msg]; cbn [Res.bind]; [|reflexivity].
  now destruct (isValid (all_result w)).
Qed.

Lemma runValidation_once w :
  runValidation w false = if passes w then Returned true else Exited 1.
Proof.
  unfold runValidation, passes. rewrite validateAllContent_eq.
  destruct (printContentSummary w) as [[]|msg]; cbn [Res.bind]; [|reflexivity].
  now destruct (isValid (all_result w)).
Qed.

(** C2. The batch fails exactly when the errors list is not empty: the
    result of [validateAllContent] is invalid, and the script run without
    the watch flag ends the process with status 1, if and only if there is
    an error; with no error the result is valid and the run returns
    normally, whatever the warnings. *)
Theorem severity_semantics (w : World) :
  exists r,
    validateAllContent w = Ok r
    /\ (isValid r = false <-> errors r <> [])
    /\ (runValidation w false = Exited 1 <-> errors r <> [])
    /\ (errors r = [] ->
        isValid r = true /\ runValidation w false = Returned true
        /\ main [] w [] = Exit 0).
Proof.
  rewrite validateAllContent_eq. exists (all_result w).
  split; [reflexivity|].
  pose proof (passes_iff_no_error w) as Hp.
  assert (Hv : isValid (all_result w) = true <-> errors (all_result w) = []).
  { unfold all_result, make_result. cbn [isValid errors].
    destruct (flat_map errors (constituents w)); simpl; split; congruence. }
  rewrite runValidation_once.
  split; [|split].
  - destruct (isValid (all_result w)); split; intros H.
    + discriminate.
    + exfalso. apply H. now apply Hv.
    + intros E. apply Hv in E. discriminate.
    + reflexivity.
  - destruct (passes w); split; intros H.
    + discriminate.
    + exfalso. apply H. now apply Hp.
    + intros E. apply Hp in E. discriminate.
    + reflexivity.
  - intros E. split; [now apply Hv|].
    unfold main. cbn [isWatchMode existsb]. rewrite runValidation_once.
    apply Hp in E. rewrite E. split; reflexivity.
Qed.

(** On the tidy site there are four warnings and no error: the batch passes. *)
Example warnings_do_not_fail :
  exists r, validateAllContent Sample.tidy = Ok r
            /\ isValid r = true /\ errors r = [] /\ List.length (warnings r) = 4%nat
            /\ runValidation Sample.tidy false = Returned true.
Proof.
  eexists. split; [vm_compute; reflexivity|]. vm_compute. repeat split.
Qed.

End ScriptFacts.

(** ** Warnings *)

Section Warnings.
Import Validation Closed Terms Fields.

(** For a file that parses to an object, the errors are those of the
    schema: a short body or a missing asset adds none. *)
Lemma warnings_add_no_error w filePath schema contentType fields content :
  parses_to w filePath (VObj fields) content ->
  exists r, validateContentFile w filePath schema contentType = Ok r
            /\ errors r = schema_errors w filePath schema (VObj fields)
            /\ warnings r
               = body_warnings filePath contentType content
                 ++ asset_warnings w filePath (VObj fields) "image"
                 ++ asset_warnings w filePath (VObj fields) "logo".
Proof.
  intros Hfile.
  rewrite (parsed_file_result w filePath schema contentType _ _ Hfile).
  eexists; split; [reflexivity|]. split; reflexivity.
Qed.

(** With one of the four literal content types of the source the body is
    measured: the warning is there exactly when the trimmed body has fewer
    than 50 characters. *)
Lemma body_measured filePath contentType content :
  In contentType ["project"; "publication"; "experience"; "education"] ->
  body_warnings filePath contentType content
  = if Nat.ltb (String.length (JS.trim content)) 50
    then [short_content_warning filePath contentType]
    else [].
Proof.
  intros Hin. unfold body_warnings.
  assert (Hc : checks_body_length contentType = true).
  { destruct Hin as [<-|[<-|[<-|[<-|[]]]]]; reflexivity. }
  rewrite Hc. cbn [andb].
  destruct content as [|c content]; [reflexivity|]. reflexivity.
Qed.

(** The collections are validated under their directory names; two of
    them are not among the literals, so for these the body is not
    measured. *)
Lemma plural_names_unmeasured filePath content :
  body_warnings filePath "projects" content = []
  /\ body_warnings filePath "publications" content = [].
Proof. split; reflexivity. Qed.

(** C8 (evaluation at the failing input).  The project [birds.md] of the
    tidy site has an empty body.  Validated as [validateCollection] does,
    under the content type "projects", it gets the missing-image warning
    but no short-content warning; the experience entry [ibm.md], whose body
    is empty too, gets the short-content warning. *)
Theorem short_project_body_not_warned :
  validate_member Sample.tidy "projects" Schemas.projectSchema "birds.md"
  = Ok (mkResult true []
          [mkWarning "/site/src/content/projects/birds.md" (Some "image")
             "Referenced image file not found: /images/birds.png"])
  /\ validate_member Sample.tidy "experience" Schemas.experienceSchema "ibm.md"
     = Ok (mkResult true []
             [mkWarning "/site/src/content/experience/ibm.md" None
                "experience content is very short (less than 50 characters). Consider adding more details."]).
Proof. split; vm_compute; reflexivity. Qed.

End Warnings.

(** ** The completeness score *)

Section ScoreFacts.
Import Completeness Observed.
Local Open Scope Z_scope.

Variable to_number : value -> option Z.

Lemma round_percent_id total : round_percent total = total.
Proof.
  unfold round_percent, maxScore.
  replace (2 * (total * 100) + 100) with (total * (2 * 100) + 100) by lia.
  rewrite Z.div_add_l by lia. change (100 / (2 * 100)) with 0. lia.
Qed.

Lemma profile_section_total w st :
  totalScore (profile_section w st) = totalScore st + profile_points w.
Proof.
  unfold profile_section, profile_points, profile_try, profile_obs.
  destruct (readFileSync w _) as [text|msg]; cbn [Res.bind]; [|simpl; lia].
  destruct (matter w text) as [[data content]|msg]; cbn [Res.bind]; [|simpl; lia].
  destruct (profile_conditions data content) as [[[[c1 c2] c3] c4]|msg];
    cbn [Res.bind]; [|simpl; lia].
  destruct (15 <=? profileScore (c1, c2, c3, c4)); [reflexivity|].
  unfold when.
  destruct (negb c2), (negb c3),
    (negb (JS.truthy (VStr content)) || Nat.ltb (String.length content) 100)%bool;
    reflexivity.
Qed.

Lemma skills_section_total w st :
  totalScore (skills_section w to_number st)
  = totalScore st + skills_points w to_number.
Proof.
  unfold skills_section, skills_points, skills_try, skills_obs.
  destruct (readFileSync w _) as [text|msg]; cbn [Res.bind]; [|simpl; lia].
  destruct (matter w text) as [[data content]|msg]; cbn [Res.bind]; [|simpl; lia].
  destruct (skills_conditions to_number data) as [[s1 s2]|msg];
    cbn [Res.bind]; [|simpl; lia].
  destruct (10 <=? skillsScore (s1, s2)); reflexivity.
Qed.

Lemma collection_step_total w name weight minFiles st :
  (0 < minFiles)%nat ->
  match md_count w name with
  | Ok n =>
      exists st', collection_step w (name, weight, minFiles) st = Ok st'
                  /\ totalScore st' = totalScore st + collectionScore weight minFiles n
  | Throw msg => collection_step w (name, weight, minFiles) st = Throw msg
  end.
Proof.
  intros Hmin. unfold md_count, collection_step.
  destruct (existsSync w _).
  - destruct (readdirSync w _) as [entries|msg]; cbn [Res.bind]; [|reflexivity].
    eexists; split; [reflexivity|].
    set (n := List.length (filter (fun file => JS.endsWith file ".md") entries)).
    destruct (Nat.leb minFiles n); [reflexivity|].
    destruct (Nat.ltb 0 n); reflexivity.
  - eexists; split; [reflexivity|]. unfold collectionScore.
    destruct minFiles; [lia|]. reflexivity.
Qed.

Ltac collection_round w name weight minFiles st :=
  let H := fresh "Hstep" in
  let n := fresh "n" in
  let st' := fresh "st" in
  let E := fresh "Etotal" in
  assert (H := collection_step_total w name weight minFiles st ltac:(lia));
  destruct (md_count w name) as [n|?]; cbn [Res.bind];
  [ destruct H as [st' [H E]]; rewrite H; cbn [Res.bind]
  | rewrite H; reflexivity ].

(** The score of the report is the sum of the points of the sections. *)
Lemma score_is_total w :
  Res.bind (validateContentCompleteness w to_number) (fun r => Ok (score r))
  = total_points w to_number.
Proof.
  unfold validateContentCompleteness, total_points, collections.
  cbn [collections_loop].
  set (st0 := skills_section w to_number (profile_section w (mkState 0 [] [] []))).
  assert (E0 : totalScore st0 = profile_points w + skills_points w to_number).
  { unfold st0. rewrite skills_section_total, profile_section_total. reflexivity. }
  collection_round w "projects" 25 2%nat st0.
  collection_round w "experience" 20 1%nat st.
  collection_round w "publications" 10 1%nat st1.
  collection_round w "education" 10 1%nat st2.
  cbn [score]. rewrite round_percent_id. f_equal. lia.
Qed.

Lemma score_of_report w r :
  validateContentCompleteness w to_number = Ok r ->
  total_points w to_number = Ok (score r).
Proof.
  intros H. rewrite <- score_is_total, H. reflexivity.
Qed.

Lemma report_of_total w total :
  total_points w to_number = Ok total ->
  exists r, validateContentCompleteness w to_number = Ok r /\ score r = total.
Proof.
  rewrite <- score_is_total.
  destruct (validateContentCompleteness w to_number) as [r|msg]; cbn [Res.bind];
    [|discriminate].
  intros H. inversion H. exists r. split; reflexivity.
Qed.

Lemma profileScore_bounds c : 0 <= profileScore c <= 20.
Proof. destruct c as [[[[] []] []] []]; cbn; lia. Qed.

Lemma skillsScore_bounds c : 0 <= skillsScore c <= 15.
Proof. destruct c as [[] []]; cbn; lia. Qed.

Lemma profile_points_bounds w : 0 <= profile_points w <= 20.
Proof.
  unfold profile_points. destruct (profile_obs w); [apply profileScore_bounds|lia].
Qed.

Lemma skills_points_bounds w : 0 <= skills_points w to_number <= 15.
Proof.
  unfold skills_points. destruct (skills_obs w to_number);
    [apply skillsScore_bounds|lia].
Qed.

Lemma collectionScore_monotone weight minFiles n n' :
  0 <= weight -> (n <= n')%nat ->
  collectionScore weight minFiles n <= collectionScore weight minFiles n'.
Proof.
  intros Hw Hn. unfold collectionScore, half_weight.
  assert (0 <= weight / 2 <= weight).
  { split; [apply Z.div_pos; lia|]. apply Z.div_le_upper_bound; lia. }
  destruct (Nat.leb minFiles n) eqn:E1, (Nat.leb minFiles n') eqn:E1',
    (Nat.ltb 0 n) eqn:E2, (Nat.ltb 0 n') eqn:E2'; try lia;
    repeat match goal with
      | H : Nat.leb _ _ = true |- _ => apply Nat.leb_le in H
      | H : Nat.leb _ _ = false |- _ => apply Nat.leb_gt in H
      | H : Nat.ltb _ _ = true |- _ => apply Nat.ltb_lt in H
      | H : Nat.ltb _ _ = false |- _ => apply Nat.ltb_ge in H
      end; lia.
Qed.

End ScoreFacts.

Section ScoreClaims.
Import Completeness Observed.
Local Open Scope Z_scope.

Variable to_number : value -> option Z.

(** C7. The score is the sum of the points of the six sections: at most 20
    for the profile, at most 15 for the skills, 25 for two or more projects
    and 12 (half of 25, rounded down) for a single one, 20 for experience,
    10 for publications and 10 for education when the directory has an
    [.md] entry; as a percentage of the maximum 100 it is that sum, an
    integer between 0 and 100.  The function returns a report whenever the
    four collection directories can be counted. *)
Theorem score_is_weighted_sum (w : World) :
  (forall r,
      validateContentCompleteness w to_number = Ok r ->
      exists projects experience publications education : nat,
        md_count w "projects" = Ok projects
        /\ md_count w "experience" = Ok experience
        /\ md_count w "publications" = Ok publications
        /\ md_count w "education" = Ok education
        /\ score r
           = profile_points w + skills_points w to_number
             + collectionScore 25 2 projects + collectionScore 20 1 experience
             + collectionScore 10 1 publications + collectionScore 10 1 education
        /\ 0 <= profile_points w <= 20
        /\ 0 <= skills_points w to_number <= 15
        /\ collectionScore 25 2 projects
           = match projects with 0%nat => 0 | 1%nat => 12 | _ => 25 end
        /\ collectionScore 20 1 experience
           = match experience with 0%nat => 0 | _ => 20 end
        /\ collectionScore 10 1 publications
           = match publications with 0%nat => 0 | _ => 10 end
        /\ collectionScore 10 1 education
           = match education with 0%nat => 0 | _ => 10 end
        /\ 0 <= score r <= 100)
  /\ ((forall name, In name names -> exists n, md_count w name = Ok n) ->
      exists r, validateContentCompleteness w to_number = Ok r).
Proof.
  split.
  - intros r Hr. apply score_of_report in Hr. unfold total_points in Hr.
    destruct (md_count w "projects") as [projects|]; [|discriminate].
    destruct (md_count w "experience") as [experience|]; [|discriminate].
    destruct (md_count w "publications") as [publications|]; [|discriminate].
    destruct (md_count w "education") as [education|]; [|discriminate].
    cbn [Res.bind] in Hr. inversion Hr as [Hscore]. clear Hr.
    exists projects, experience, publications, education.
    pose proof (profile_points_bounds w) as Hp.
    pose proof (skills_points_bounds to_number w) as Hs.
    assert (H1 : collectionScore 25 2 projects
                 = match projects with 0%nat => 0 | 1%nat => 12 | _ => 25 end).
    { destruct projects as [|[|n]]; reflexivity. }
    assert (H2 : collectionScore 20 1 experience
                 = match experience with 0%nat => 0 | _ => 20 end).
    { destruct experience; reflexivity. }
    assert (H3 : collectionScore 10 1 publications
                 = match publications with 0%nat => 0 | _ => 10 end).
    { destruct publications; reflexivity. }
    assert (H4 : collectionScore 10 1 education
                 = match education with 0%nat => 0 | _ => 10 end).
    { destruct education; reflexivity. }
    repeat (split; [first [reflexivity | assumption | lia]|]).
    rewrite H1, H2, H3, H4.
    destruct projects as [|[|n1]], experience, publications, education; lia.
  - intros Hdirs.
    assert (Htotal : exists total, total_points w to_number = Ok total).
    { unfold total_points.
      destruct (Hdirs "projects") as [n1 ->]; [simpl; auto|].
      destruct (Hdirs "experience") as [n2 ->]; [simpl; auto|].
      destruct (Hdirs "publications") as [n3 ->]; [simpl; auto|].
      destruct (Hdirs "education") as [n4 ->]; [simpl; auto|].
      eexists; reflexivity. }
    destruct Htotal as [total Htotal].
    destruct (report_of_total to_number w total Htotal) as [r [Hr _]].
    exists r. exact Hr.
Qed.

End ScoreClaims.

(** On the tidy site: a full profile (20 points), a skills file with one
    category of one skill (0), one project (12), one experience entry (20). *)
Example score_of_tidy_site :
  exists r, Completeness.validateContentCompleteness Sample.tidy Observed.no_number = Ok r
            /\ Completeness.score r = 52%Z
            /\ Completeness.completedSections r = ["Profile"; "Experience"]
            /\ Completeness.missingSections r
               = ["Skills"; "Projects"; "Publications"; "Education"].
Proof. eexists. split; [vm_compute; reflexivity|]. vm_compute. repeat split. Qed.

(** ** Monotonicity of the score *)

Section Monotone.
Import Completeness Observed.
Local Open Scope Z_scope.

Variable to_number : value -> option Z.

Lemma profile_points_monotone w w' :
  profile_le (profile_obs w) (profile_obs w') ->
  profile_points w <= profile_points w'.
Proof.
  unfold profile_le, profile_points.
  destruct (profile_obs w) as [[[[c1 c2] c3] c4]|msg].
  - destruct (profile_obs w') as [[[[c1' c2'] c3'] c4']|msg']; [|contradiction].
    intros [H1 [H2 [H3 H4]]].
    destruct c1, c2, c3, c4;
      rewrite ?(H1 eq_refl), ?(H2 eq_refl), ?(H3 eq_refl), ?(H4 eq_refl);
      destruct c1', c2', c3', c4'; cbn; lia.
  - intros _. destruct (profile_obs w'); [apply profileScore_bounds|lia].
Qed.

Lemma skills_points_monotone w w' :
  skills_le (skills_obs w to_number) (skills_obs w' to_number) ->
  skills_points w to_number <= skills_points w' to_number.
Proof.
  unfold skills_le, skills_points.
  destruct (skills_obs w to_number) as [[s1 s2]|msg].
  - destruct (skills_obs w' to_number) as [[s1' s2']|msg']; [|contradiction].
    intros [H1 H2].
    destruct s1, s2; rewrite ?(H1 eq_refl), ?(H2 eq_refl);
      destruct s1', s2'; cbn; lia.
  - intros _. destruct (skills_obs w' to_number); [apply skillsScore_bounds|lia].
Qed.

(** The total does not decrease when no section loses points and no
    directory loses entries. *)
Lemma total_points_monotone w w' total :
  profile_points w <= profile_points w' ->
  skills_points w to_number <= skills_points w' to_number ->
  (forall name n, In name names -> md_count w name = Ok n ->
                  exists n', md_count w' name = Ok n' /\ (n <= n')%nat) ->
  total_points w to_number = Ok total ->
  exists total', total_points w' to_number = Ok total' /\ total <= total'.
Proof.
  intros Hp Hs Hdirs. unfold total_points.
  destruct (md_count w "projects") as [n1|] eqn:E1; [|discriminate].
  destruct (md_count w "experience") as [n2|] eqn:E2; [|discriminate].
  destruct (md_count w "publications") as [n3|] eqn:E3; [|discriminate].
  destruct (md_count w "education") as [n4|] eqn:E4; [|discriminate].
  cbn [Res.bind]. intros H. inversion H as [Htotal]. clear H.
  destruct (Hdirs "projects" n1) as [n1' [-> L1]]; [simpl; auto|exact E1|].
  destruct (Hdirs "experience" n2) as [n2' [-> L2]]; [simpl; auto|exact E2|].
  destruct (Hdirs "publications" n3) as [n3' [-> L3]]; [simpl; auto|exact E3|].
  destruct (Hdirs "education" n4) as [n4' [-> L4]]; [simpl; auto|exact E4|].
  cbn [Res.bind]. eexists; split; [reflexivity|].
  pose proof (collectionScore_monotone 25 2 n1 n1' ltac:(lia) L1).
  pose proof (collectionScore_monotone 20 1 n2 n2' ltac:(lia) L2).
  pose proof (collectionScore_monotone 10 1 n3 n3' ltac:(lia) L3).
  pose proof (collectionScore_monotone 10 1 n4 n4' ltac:(lia) L4).
  lia.
Qed.

Lemma filter_length_app {A} (f : A -> bool) (xs ys : list A) :
  (List.length (filter f xs) <= List.length (filter f (xs ++ ys)))%nat.
Proof.
  rewrite filter_app, length_app. lia.
Qed.

(** One more entry in a directory: every count stays or grows. *)
Lemma md_count_with_entry w dir file name n :
  path_join w [dir; file] <> path_join w [cwd w; "src/content"; name] ->
  md_count w name = Ok n ->
  exists n', md_count (with_entry w dir file) name = Ok n' /\ (n <= n')%nat.
Proof.
  intros Hfresh. unfold md_count. cbn [cwd path_join existsSync readdirSync with_entry].
  set (collectionPath := path_join w [cwd w; "src/content"; name]) in *.
  assert (Hne : String.eqb collectionPath (path_join w [dir; file]) = false).
  { apply String.eqb_neq. congruence. }
  rewrite Hne, andb_false_r, orb_false_r.
  destruct (existsSync w collectionPath); [|intros H; exists n; split; [exact H|lia]].
  destruct (String.eqb collectionPath dir).
  - destruct (readdirSync w collectionPath) as [entries|msg]; cbn [Res.bind];
      [|discriminate].
    intros H. inversion H. eexists; split; [reflexivity|]. apply filter_length_app.
  - intros H. exists n. split; [exact H|lia].
Qed.

(** C6, as amended.  Adding one more entry to a collection directory never
    decreases the score; and the score of a site [w'] is not below that of
    [w] when no directory counts fewer [.md] entries and every scored
    profile or skills condition that holds in [w] holds in [w'], the
    conditions being those that the [try] blocks evaluate: a block left
    through its [catch] (an unreadable or malformed file, a null entry met in
    [categories]) holds none, and [w'] may be in that case only if [w] is. *)
Theorem score_monotone (w : World) :
  (forall name file r,
      In name names ->
      (forall other, In other names ->
         path_join w [path_join w [cwd w; "src/content"; name]; file]
         <> path_join w [cwd w; "src/content"; other]) ->
      validateContentCompleteness w to_number = Ok r ->
      exists r',
        validateContentCompleteness
          (with_entry w (path_join w [cwd w; "src/content"; name]) file) to_number = Ok r'
        /\ score r <= score r')
  /\ (forall w' r,
         profile_le (profile_obs w) (profile_obs w') ->
         skills_le (skills_obs w to_number) (skills_obs w' to_number) ->
         (forall name n, In name names -> md_count w name = Ok n ->
                         exists n', md_count w' name = Ok n' /\ (n <= n')%nat) ->
         validateContentCompleteness w to_number = Ok r ->
         exists r', validateContentCompleteness w' to_number = Ok r'
                    /\ score r <= score r').
Proof.
  split.
  - intros name file r Hname Hfresh Hr. apply score_of_report in Hr.
    destruct (total_points_monotone w
                (with_entry w (path_join w [cwd w; "src/content"; name]) file)
                (score r)) as [total' [Ht' Hle]].
    + apply Z.le_refl.
    + apply Z.le_refl.
    + intros other n Hother Hn.
      apply md_count_with_entry; [apply Hfresh; exact Hother|exact Hn].
    + exact Hr.
    + destruct (report_of_total to_number _ total' Ht') as [r' [Hr' Hs']].
      exists r'. split; [exact Hr'|]. rewrite Hs'. exact Hle.
  - intros w' r Hp Hs Hdirs Hr. apply score_of_report in Hr.
    destruct (total_points_monotone w w' (score r)) as [total' [Ht' Hle]].
    + apply profile_points_monotone, Hp.
    + apply skills_points_monotone, Hs.
    + exact Hdirs.
    + exact Hr.
    + destruct (report_of_total to_number _ total' Ht') as [r' [Hr' Hs']].
      exists r'. split; [exact Hr'|]. rewrite Hs'. exact Hle.
Qed.

End Monotone.

(** C6 as stated fails.  The skills file has two categories, the second
    with three skills: 5 points.  A third list item is added between them
    and is empty, which YAML reads as [null]: now [categories.length >= 3]
    holds, but [some] meets the null entry before the category with three
    skills, the block is left through its [catch], and the section scores
    nothing.  (A third category that is a mapping gives 15 points.) *)
Lemma third_category_lowers_score :
  exists r r' r'',
    Completeness.validateContentCompleteness
      (Sample.skills_only Sample.two_categories) Observed.no_number = Ok r
    /\ Completeness.validateContentCompleteness
         (Sample.skills_only Sample.with_null_category) Observed.no_number = Ok r'
    /\ Completeness.validateContentCompleteness
         (Sample.skills_only Sample.with_third_category) Observed.no_number = Ok r''
    /\ Completeness.score r = 5%Z
    /\ Completeness.score r' = 0%Z
    /\ Completeness.score r'' = 15%Z
    /\ Completeness.length_ge_3 Observed.no_number (VArr [Sample.tools; Sample.languages])
       = Ok false
    /\ Completeness.length_ge_3 Observed.no_number
         (VArr [Sample.tools; VNull; Sample.languages])
       = Ok true.
Proof.
  do 3 eexists.
  split; [vm_compute; reflexivity|].
  split; [vm_compute; reflexivity|].
  split; [vm_compute; reflexivity|].
  vm_compute. repeat split.
Qed.

Lemma score_monotone_witness :
  (exists r r',
      Completeness.validateContentCompleteness Sample.tidy Observed.no_number = Ok r
      /\ Completeness.validateContentCompleteness
           (Observed.with_entry Sample.tidy "/site/src/content/projects" "sleep.md")
           Observed.no_number = Ok r'
      /\ (Completeness.score r <= Completeness.score r')%Z)
  /\ (exists r r',
         Completeness.validateContentCompleteness
           (Sample.skills_only Sample.two_categories) Observed.no_number = Ok r
         /\ Completeness.validateContentCompleteness
              (Sample.skills_only Sample.with_third_category) Observed.no_number = Ok r'
         /\ (Completeness.score r <= Completeness.score r')%Z).
Proof.
  split.
  - destruct (Completeness.validateContentCompleteness Sample.tidy Observed.no_number)
      as [r|msg] eqn:Hr; [|vm_compute in Hr; discriminate].
    destruct (score_monotone Observed.no_number Sample.tidy) as [Hfile _].
    destruct (Hfile "projects" "sleep.md" r) as [r' [Hr' Hle]].
    + left; reflexivity.
    + intros other [<-|[<-|[<-|[<-|[]]]]]; vm_compute; discriminate.
    + exact Hr.
    + exists r, r'. split; [reflexivity|]. split; [exact Hr'|exact Hle].
  - destruct (Completeness.validateContentCompleteness
                (Sample.skills_only Sample.two_categories) Observed.no_number)
      as [r|msg] eqn:Hr; [|vm_compute in Hr; discriminate].
    destruct (score_monotone Observed.no_number
                (Sample.skills_only Sample.two_categories)) as [_ Hcond].
    destruct (Hcond (Sample.skills_only Sample.with_third_category) r)
      as [r' [Hr' Hle]].
    + vm_compute. exact I.
    + vm_compute. split; [discriminate|reflexivity].
    + intros name n _ Hn. exists n. split; [exact Hn|apply Nat.le_refl].
    + exact Hr.
    + exists r, r'. split; [reflexivity|]. split; [exact Hr'|exact Hle].
Defined.

(** ** Missing content *)

Section MissingFacts.
Import Missing.

Lemma collection_step_cases w collection r r' :
  collection_step w collection r = Ok r' ->
  (present w collection
   /\ exists x, found r' = found r ++ [x] /\ missing r' = missing r
                /\ recommendations r' = recommendations r)
  \/ (~ present w collection
      /\ exists x y, found r' = found r /\ missing r' = missing r ++ [x]
                     /\ recommendations r' = recommendations r ++ [y]).
Proof.
  unfold collection_step, present.
  destruct (existsSync w _) eqn:Hex.
  - destruct (readdirSync w _) as [entries|msg] eqn:Hdir; cbn [Res.bind]; [|discriminate].
    destruct (filter _ entries) as [|file files] eqn:Hfiles; cbn [List.length Nat.eqb].
    + intros H; inversion H; subst r'; clear H. right. split.
      * intros [_ [entries' [He Hne]]]. inversion He; subst entries'. now apply Hne.
      * do 2 eexists. cbn. repeat split.
    + intros H; inversion H; subst r'; clear H. left. split.
      * split; [reflexivity|]. exists entries. split; [reflexivity|]. rewrite Hfiles. discriminate.
      * eexists. cbn. repeat split.
  - intros H; inversion H; subst r'; clear H. right. split.
    + intros [H _]. discriminate.
    + do 2 eexists. cbn. repeat split.
Qed.

Lemma collections_loop_spec w cs : forall r r',
  collections_loop w cs r = Ok r' ->
  List.length (found r') + List.length (missing r')
  = List.length (found r) + List.length (missing r) + List.length cs
  /\ List.length (recommendations r') + List.length (missing r)
     = List.length (recommendations r) + List.length (missing r')
  /\ (missing r' = [] <-> missing r = [] /\ Forall (present w) cs).
Proof.
  induction cs as [|c cs IH]; intros r r'; cbn [collections_loop].
  - intros H; inversion H; subst r'. split; [cbn; lia|]. split; [lia|].
    split; [intros E; split; [exact E|constructor]|intros [E _]; exact E].
  - destruct (collection_step w c r) as [r1|msg] eqn:Hstep; cbn [Res.bind]; [|discriminate].
    intros Hloop. destruct (IH r1 r' Hloop) as [Hcount [Hrec Hempty]].
    destruct (collection_step_cases w c r r1 Hstep)
      as [[Hp [x [Hf [Hm Hr]]]]|[Hnp [x [y [Hf [Hm Hr]]]]]].
    + rewrite Hf, Hm in Hcount. rewrite Hm, Hr in Hrec. rewrite Hm in Hempty.
      rewrite length_app in Hcount. cbn [List.length] in *.
      split; [lia|]. split; [lia|]. split.
      * intros H. apply Hempty in H. destruct H as [H1 H2]. split; [exact H1|].
        constructor; assumption.
      * intros [H1 H2]. apply Hempty. inversion H2; subst. now split.
    + rewrite Hf, Hm in Hcount. rewrite Hm, Hr in Hrec. rewrite Hm in Hempty.
      rewrite !length_app in *. cbn [List.length] in *.
      split; [lia|]. split; [lia|]. split.
      * intros H. apply Hempty in H. destruct H as [H1 _].
        destruct (missing r); discriminate.
      * intros [_ H2]. inversion H2; subst. contradiction.
Qed.

(** X1. Whenever [checkMissingContent] returns, every missing item has its
    recommendation, the six items (two files, four collections) are split
    between [found] and [missing], and nothing is missing exactly when the
    two files exist and each collection directory exists and lists an entry
    ending in [.md]. *)
Theorem missing_content_report w r :
  checkMissingContent w = Ok r ->
  List.length (recommendations r) = List.length (missing r)
  /\ List.length (found r) + List.length (missing r) = 6
  /\ (missing r = [] <->
      existsSync w (path_join w [cwd w; "src/content/profile/main.md"]) = true
      /\ existsSync w (path_join w [cwd w; "src/content/skills/main.md"]) = true
      /\ forall collection, In collection collections ->
           existsSync w (path_join w [cwd w; "src/content"; collection]) = true
           /\ exists entries,
                readdirSync w (path_join w [cwd w; "src/content"; collection]) = Ok entries
                /\ filter (fun file => JS.endsWith file ".md") entries <> []).
Proof.
  unfold checkMissingContent. intros H.
  apply collections_loop_spec in H. destruct H as [Hcount [Hrec Hempty]].
  revert Hcount Hrec Hempty.
  unfold requiredFiles. cbn [fold_left required_step].
  rewrite Forall_forall. fold (present w).
  destruct (existsSync w (path_join w [cwd w; "src/content/profile/main.md"]));
    destruct (existsSync w (path_join w [cwd w; "src/content/skills/main.md"]));
    cbn [add_found add_missing found missing recommendations app List.length collections];
    intros Hcount Hrec Hempty; (split; [lia|]); (split; [lia|]);
    split; intros Hm.
  - apply Hempty in Hm. destruct Hm as [_ Hm].
    split; [reflexivity|]. split; [reflexivity|]. exact Hm.
  - apply Hempty. split; [reflexivity|]. apply Hm.
  - apply Hempty in Hm. destruct Hm as [Hm _]. discriminate.
  - destruct Hm as [_ [Hm _]]. discriminate.
  - apply Hempty in Hm. destruct Hm as [Hm _]. discriminate.
  - destruct Hm as [Hm _]. discriminate.
  - apply Hempty in Hm. destruct Hm as [Hm _]. discriminate.
  - destruct Hm as [Hm _]. discriminate.
Qed.

End MissingFacts.

Lemma missing_content_report_witness :
  exists r,
    Missing.checkMissingContent Sample.tidy = Ok r
    /\ List.length (Missing.recommendations r) = List.length (Missing.missing r)
    /\ List.length (Missing.found r) + List.length (Missing.missing r) = 6
    /\ Missing.missing r = ["publications content"; "education content"].
Proof.
  destruct (Missing.checkMissingContent Sample.tidy) as [r|msg] eqn:E;
    [|vm_compute in E; discriminate].
  exists r. split; [reflexivity|].
  destruct (missing_content_report Sample.tidy r E) as [H1 [H2 _]].
  split; [exact H1|]. split; [exact H2|].
  vm_compute in E. inversion E. reflexivity.
Defined.

(** ** Asset and link references *)

Section IntegrityFacts.
Import Integrity.

Lemma dedup_from_in seen xs x :
  In x (dedup_from seen xs) <-> In x xs /\ ~ In x seen.
Proof.
  revert seen. induction xs as [|y ys IH]; intros seen; cbn [dedup_from].
  - split; [contradiction|intros [[] _]].
  - destruct (existsb (String.eqb y) seen) eqn:E.
    + rewrite IH. apply existsb_exists in E. destruct E as [z [Hz Hyz]].
      apply String.eqb_eq in Hyz. subst z.
      split.
      * intros [H1 H2]. split; [now right|exact H2].
      * intros [[->|H1] H2]; [contradiction|now split].
    + assert (Hy : ~ In y seen).
      { intros Hin. apply Bool.not_true_iff_false in E. apply E.
        apply existsb_exists. exists y. split; [exact Hin|apply String.eqb_refl]. }
      cbn [In]. rewrite IH. cbn [In]. split.
      * intros [->|[H1 H2]]; [split; [now left|exact Hy]|].
        split; [now right|]. intros H. apply H2. now right.
      * intros [[->|H1] H2]; [now left|].
        destruct (String.eqb y x) eqn:Exy.
        -- apply String.eqb_eq in Exy. now left.
        -- right. split; [exact H1|]. intros [->|H]; [|contradiction].
           rewrite String.eqb_refl in Exy. discriminate.
Qed.

Lemma dedup_from_nodup seen xs : NoDup (dedup_from seen xs).
Proof.
  revert seen. induction xs as [|y ys IH]; intros seen; cbn [dedup_from].
  - constructor.
  - destruct (existsb (String.eqb y) seen); [apply IH|].
    constructor; [|apply IH].
    rewrite dedup_from_in. intros [_ H]. apply H. now left.
Qed.

Lemma dedup_in xs x : In x (dedup xs) <-> In x xs.
Proof.
  unfold dedup. rewrite dedup_from_in. cbn [In]. tauto.
Qed.

Lemma dedup_nodup xs : NoDup (dedup xs).
Proof. apply dedup_from_nodup. Qed.

Lemma check_ref_sound w data key st st' :
  sound w st -> check_ref w data key st = Ok st' -> sound w st'.
Proof.
  intros [Hm Hf]. unfold check_ref.
  destruct (JS.get_prop data key) as [v|msg]; cbn [Res.bind]; [|discriminate].
  destruct (JS.truthy v); [|intros H; inversion H; subst; now split].
  destruct v as [| |b|n|s|items|fields|ms]; cbn [public_path Res.bind]; try discriminate.
  cbn [Validation.string_of].
  destruct (existsSync w (path_join w [cwd w; "public"; s])) eqn:Hex;
    intros H; inversion H; subst st'; split; cbn [missing found]; intros x Hx;
    try apply in_app_or in Hx; auto.
  - destruct Hx as [Hx|[<-|[]]]; auto.
  - destruct Hx as [Hx|[<-|[]]]; auto.
Qed.

Lemma check_file_sound w dirPath file st :
  sound w st -> sound w (check_file w dirPath file st).
Proof.
  intros Hs. unfold check_file.
  destruct (Res.bind _ _) as [[data content]|msg]; [|exact Hs].
  destruct (check_ref w data "image" st) as [st1|msg] eqn:E1; [|exact Hs].
  pose proof (check_ref_sound w data "image" st st1 Hs E1) as Hs1.
  destruct (check_ref w data "logo" st1) as [st2|msg] eqn:E2; [|exact Hs1].
  exact (check_ref_sound w data "logo" st1 st2 Hs1 E2).
Qed.

Lemma check_files_sound w dirPath files : forall st,
  sound w st ->
  sound w (fold_left (fun st file => check_file w dirPath file st) files st).
Proof.
  induction files as [|file files IH]; intros st Hs; cbn [fold_left]; [exact Hs|].
  apply IH, check_file_sound, Hs.
Qed.

Lemma check_dirs_sound w dirs : forall st st',
  sound w st -> check_dirs w dirs st = Ok st' -> sound w st'.
Proof.
  induction dirs as [|dir dirs IH]; intros st st' Hs; cbn [check_dirs].
  - intros H; inversion H; subst; exact Hs.
  - destruct (existsSync w _); cbn [negb]; [|apply IH, Hs].
    destruct (readdirSync w _) as [entries|msg]; cbn [Res.bind]; [|discriminate].
    apply IH, check_files_sound, Hs.
Qed.

Lemma check_profile_sound w st : sound w st -> sound w (check_profile w st).
Proof.
  intros Hs. unfold check_profile.
  destruct (readFileSync w _) as [text|msg]; cbn [Res.bind]; [|exact Hs].
  destruct (matter w text) as [[data content]|msg]; cbn [Res.bind]; [|exact Hs].
  destruct (check_ref w data "profileImage" st) as [st'|msg] eqn:E; [|exact Hs].
  exact (check_ref_sound w data "profileImage" st st' Hs E).
Qed.

(** X2. Whenever [checkImageReferences] returns, neither list repeats a
    reference, every reference in [missing] does not exist under [public/]
    and every one in [found] does; so no reference is in both lists. *)
Theorem image_references_sound w r :
  checkImageReferences w = Ok r ->
  NoDup (missing r) /\ NoDup (found r)
  /\ (forall s, In s (missing r) ->
        existsSync w (path_join w [cwd w; "public"; s]) = false)
  /\ (forall s, In s (found r) ->
        existsSync w (path_join w [cwd w; "public"; s]) = true)
  /\ (forall s, In s (missing r) -> ~ In s (found r)).
Proof.
  unfold checkImageReferences.
  destruct (check_dirs w contentDirs (check_profile w (mkRefs [] []))) as [st|msg] eqn:E;
    cbn [Res.bind]; [|discriminate].
  intros H; inversion H; subst r; clear H. cbn [missing found].
  assert (Hs : sound w st).
  { apply (check_dirs_sound w contentDirs (check_profile w (mkRefs [] [])) st);
      [|exact E].
    apply check_profile_sound. split; intros s []. }
  destruct Hs as [Hm Hf].
  split; [apply dedup_nodup|]. split; [apply dedup_nodup|].
  split; [intros s Hs; apply Hm, dedup_in, Hs|].
  split; [intros s Hs; apply Hf, dedup_in, Hs|].
  intros s H1 H2. apply (proj1 (dedup_in _ _)) in H1. apply (proj1 (dedup_in _ _)) in H2.
  pose proof (Hf s H2) as Hyes. rewrite (Hm s H1) in Hyes. discriminate.
Qed.

End IntegrityFacts.

Lemma image_references_sound_witness :
  exists r,
    Integrity.checkImageReferences Sample.site = Ok r
    /\ Integrity.missing r = ["/images/birds.png"]
    /\ Integrity.found r = ["/images/ada.jpg"]
    /\ NoDup (Integrity.missing r) /\ NoDup (Integrity.found r)
    /\ (forall s, In s (Integrity.missing r) -> ~ In s (Integrity.found r)).
Proof.
  destruct (Integrity.checkImageReferences Sample.site) as [r|msg] eqn:E;
    [|vm_compute in E; discriminate].
  exists r. split; [reflexivity|].
  destruct (image_references_sound Sample.site r E) as [H1 [H2 [_ [_ H5]]]].
  vm_compute in E. inversion E; subst r.
  split; [reflexivity|]. split; [reflexivity|].
  split; [exact H1|]. split; [exact H2|exact H5].
Defined.

Section AssetEscalation.
Import Integrity Build.

Lemma check_ref_grows w data key st st' s :
  check_ref w data key st = Ok st' -> In s (missing st) -> In s (missing st').
Proof.
  unfold check_ref.
  destruct (JS.get_prop data key) as [v|msg]; cbn [Res.bind]; [|discriminate].
  destruct (JS.truthy v); [|intros H; inversion H; subst; auto].
  destruct (public_path w v) as [p|msg]; cbn [Res.bind]; [|discriminate].
  destruct (existsSync w p); intros H; inversion H; subst st'; cbn [missing]; auto.
  intros Hin. apply in_or_app. now left.
Qed.

Lemma check_file_grows w dirPath file st s :
  In s (missing st) -> In s (missing (check_file w dirPath file st)).
Proof.
  intros Hin. unfold check_file.
  destruct (Res.bind _ _) as [[data content]|msg]; [|exact Hin].
  destruct (check_ref w data "image" st) as [st1|msg] eqn:E1; [|exact Hin].
  pose proof (check_ref_grows w data "image" st st1 s E1 Hin) as H1.
  destruct (check_ref w data "logo" st1) as [st2|msg] eqn:E2; [|exact H1].
  exact (check_ref_grows w data "logo" st1 st2 s E2 H1).
Qed.

Lemma check_files_grow w dirPath files s : forall st,
  In s (missing st) ->
  In s (missing (fold_left (fun st file => check_file w dirPath file st) files st)).
Proof.
  induction files as [|file files IH]; intros st Hin; cbn [fold_left]; [exact Hin|].
  apply IH, check_file_grows, Hin.
Qed.

Lemma check_dirs_grow w dirs s : forall st st',
  check_dirs w dirs st = Ok st' -> In s (missing st) -> In s (missing st').
Proof.
  induction dirs as [|dir dirs IH]; intros st st'; cbn [check_dirs].
  - intros H; inversion H; subst; auto.
  - destruct (existsSync w _); cbn [negb]; [|apply IH].
    destruct (readdirSync w _) as [entries|msg]; cbn [Res.bind]; [|discriminate].
    intros H Hin. apply (IH _ _ H). apply check_files_grow, Hin.
Qed.

(** A file whose front-matter names a missing image puts it in [missing]. *)
Lemma check_file_adds w dirPath file st data content s :
  Fields.parses_to w (path_join w [dirPath; file]) data content ->
  JS.get_prop data "image" = Ok (VStr s) ->
  s <> "" ->
  existsSync w (path_join w [cwd w; "public"; s]) = false ->
  In s (missing (check_file w dirPath file st)).
Proof.
  intros [_ [text [Hread Hmatter]]] Himg Hs Hex. unfold check_file.
  rewrite Hread. cbn [Res.bind]. rewrite Hmatter.
  assert (E1 : check_ref w data "image" st = Ok (mkRefs (missing st ++ [s]) (found st))).
  { unfold check_ref. rewrite Himg. cbn [Res.bind JS.truthy].
    destruct (String.eqb s "") eqn:E; [apply String.eqb_eq in E; contradiction|].
    cbn [negb public_path Res.bind Validation.string_of]. now rewrite Hex. }
  rewrite E1.
  assert (Hin : In s (missing (mkRefs (missing st ++ [s]) (found st)))).
  { cbn [missing]. apply in_or_app. right. now left. }
  destruct (check_ref w data "logo" _) as [st2|msg] eqn:E2; [|exact Hin].
  exact (check_ref_grows w data "logo" _ st2 s E2 Hin).
Qed.

Lemma check_files_add w dirPath files file data content s : forall st,
  In file files ->
  Fields.parses_to w (path_join w [dirPath; file]) data content ->
  JS.get_prop data "image" = Ok (VStr s) ->
  s <> "" ->
  existsSync w (path_join w [cwd w; "public"; s]) = false ->
  In s (missing (fold_left (fun st file => check_file w dirPath file st) files st)).
Proof.
  induction files as [|f files IH]; intros st Hin Hfile Himg Hs Hex; [contradiction|].
  cbn [fold_left]. destruct Hin as [->|Hin].
  - apply check_files_grow. now apply check_file_adds with (data := data) (content := content).
  - now apply IH.
Qed.

Lemma check_dirs_add w dirs dir entries file data content s : forall st st',
  In dir dirs ->
  existsSync w (path_join w [cwd w; "src/content"; dir]) = true ->
  readdirSync w (path_join w [cwd w; "src/content"; dir]) = Ok entries ->
  In file entries -> JS.endsWith file ".md" = true ->
  Fields.parses_to w (path_join w [path_join w [cwd w; "src/content"; dir]; file])
    data content ->
  JS.get_prop data "image" = Ok (VStr s) ->
  s <> "" ->
  existsSync w (path_join w [cwd w; "public"; s]) = false ->
  check_dirs w dirs st = Ok st' ->
  In s (missing st').
Proof.
  induction dirs as [|d dirs IH]; intros st st' Hdir Hex Hlist Hfile Hmd Hparse Himg Hs Hno;
    [contradiction|].
  cbn [check_dirs]. destruct Hdir as [->|Hdir].
  - rewrite Hex. cbn [negb]. rewrite Hlist. cbn [Res.bind]. intros Hrest.
    apply (check_dirs_grow w dirs s _ _ Hrest).
    apply check_files_add with (file := file) (data := data) (content := content); auto.
    apply filter_In. now split.
  - destruct (existsSync w (path_join w [cwd w; "src/content"; d])); cbn [negb].
    + destruct (readdirSync w (path_join w [cwd w; "src/content"; d])) as [es|msg];
        cbn [Res.bind]; [|discriminate].
      intros Hrest. now apply (IH _ _ Hdir Hex Hlist Hfile Hmd Hparse Himg Hs Hno Hrest).
    + intros Hrest. now apply (IH _ _ Hdir Hex Hlist Hfile Hmd Hparse Himg Hs Hno Hrest).
Qed.

(** X3. A missing image is a warning for the validator and an error for the
    build.  When a content file of one of the four collections names, as
    [image], a file that does not exist under [public/], its validation
    records the missing-image warning, yet [validateForBuild] with
    [checkAssets] (the default) throws and [validateForCommit] returns
    false, whatever the rest of the site. *)
Theorem missing_image_fails_build w dir entries file fields content s schema :
  In dir Integrity.contentDirs ->
  existsSync w (path_join w [cwd w; "src/content"; dir]) = true ->
  readdirSync w (path_join w [cwd w; "src/content"; dir]) = Ok entries ->
  In file entries -> Validation.is_content_file file = true ->
  Fields.parses_to w (path_join w [path_join w [cwd w; "src/content"; dir]; file])
    (VObj fields) content ->
  JS.lookup "image" fields = VStr s ->
  s <> "" ->
  existsSync w (path_join w [cwd w; "public"; s]) = false ->
  In (mkWarning (path_join w [path_join w [cwd w; "src/content"; dir]; file])
        (Some "image") ("Referenced image file not found: " ++ s))
     (Terms.warnings_of (Terms.validate_member w dir schema file))
  /\ (forall options, checkAssets options = true ->
        exists msg, validateForBuild w options = Throw msg)
  /\ validateForCommit w = false.
Proof.
  intros Hdir Hex Hlist Hfile Hcontent Hparse Himg Hs Hno.
  assert (Hmd : JS.endsWith file ".md" = true).
  { unfold Validation.is_content_file in Hcontent.
    apply andb_true_iff in Hcontent. tauto. }
  assert (Hbuild : forall options, checkAssets options = true ->
            exists msg, validateForBuild w options = Throw msg).
  { intros options Hassets. unfold validateForBuild.
    rewrite validateAllContent_eq. cbn [Res.bind]. rewrite Hassets.
    assert (Hpos : Nat.ltb 0
              match checkImageReferences w with
              | Ok assetCheck => List.length (missing assetCheck)
              | Throw _ => 1
              end = true).
    { unfold checkImageReferences.
      destruct (check_dirs w contentDirs (check_profile w (mkRefs [] [])))
        as [st|msg] eqn:E; cbn [Res.bind]; [|reflexivity].
      assert (Hin : In s (missing st)).
      { apply (check_dirs_add w contentDirs dir entries file (VObj fields) content s
                 (check_profile w (mkRefs [] [])) st Hdir Hex Hlist Hfile Hmd Hparse);
          auto.
        cbn [JS.get_prop]. now rewrite Himg. }
      cbn [missing]. apply (proj2 (dedup_in _ _)) in Hin.
      destruct (dedup (missing st)); [contradiction|reflexivity]. }
    rewrite Hpos. rewrite orb_true_r. cbn [orb]. eexists; reflexivity. }
  split; [|split].
  - unfold Terms.validate_member.
    rewrite (parsed_file_result w _ schema dir _ _ Hparse). cbn [Terms.warnings_of].
    unfold Closed.parsed_result. cbn [JS.get_prop warnings Closed.make_result].
    apply in_or_app. right. apply in_or_app. left.
    unfold Closed.asset_warnings. cbn [JS.get_prop]. rewrite Himg.
    destruct (String.eqb s "") eqn:E; [apply String.eqb_eq in E; contradiction|].
    rewrite Hno. now left.
  - exact Hbuild.
  - unfold validateForCommit.
    destruct (Hbuild (mkOptions false true false true) eq_refl) as [msg ->]. reflexivity.
Qed.

End AssetEscalation.

Lemma missing_image_fails_build_witness :
  In (mkWarning "/site/src/content/projects/birds.md" (Some "image")
        "Referenced image file not found: /images/birds.png")
     (Terms.warnings_of
        (Terms.validate_member Sample.tidy "projects" Schemas.projectSchema "birds.md"))
  /\ (exists msg, Build.validateForBuild Sample.tidy Build.default_options = Throw msg)
  /\ Build.validateForCommit Sample.tidy = false.
Proof.
  destruct (missing_image_fails_build Sample.tidy "projects" ["birds.md"] "birds.md"
              [ ("title", VStr "Bird sounds");
                ("description", VStr "Recognising birds by their song");
                ("image", VStr "/images/birds.png");
                ("tags", VArr [VStr "audio"]) ]
              "" "/images/birds.png" Schemas.projectSchema) as [Hw [Hb Hc]].
  - left; reflexivity.
  - reflexivity.
  - reflexivity.
  - left; reflexivity.
  - reflexivity.
  - split; [reflexivity|]. exists "birds". split; reflexivity.
  - reflexivity.
  - discriminate.
  - reflexivity.
  - split; [exact Hw|]. split; [apply Hb; reflexivity|exact Hc].
Defined.

Section LinkFacts.
Import Integrity.

Lemma check_url_sound w data field st st' :
  links_sound w st -> check_url w data field st = Ok st' -> links_sound w st'.
Proof.
  intros [Hv [Hu Hi]]. unfold check_url.
  destruct (JS.get_prop data field) as [v|msg]; cbn [Res.bind]; [|discriminate].
  destruct (JS.truthy v && JS.is_string v); [|intros H; inversion H; subst; now repeat split].
  destruct (is_url w (Validation.string_of v)) eqn:E;
    intros H; inversion H; subst st'; clear H; unfold links_sound;
    cbn [valid invalid unchecked]; (split; [exact Hv|]); split; intros u Hin;
    try apply in_app_or in Hin; auto.
  - destruct Hin as [Hin|[<-|[]]]; auto.
  - destruct Hin as [Hin|[<-|[]]]; auto.
Qed.

Lemma check_urls_sound w data fields : forall st st',
  links_sound w st -> check_urls w data fields st = Ok st' -> links_sound w st'.
Proof.
  induction fields as [|field fields IH]; intros st st' Hs; cbn [check_urls].
  - intros H; inversion H; subst; exact Hs.
  - destruct (check_url w data field st) as [st1|msg] eqn:E; cbn [Res.bind]; [|discriminate].
    apply IH. exact (check_url_sound w data field st st1 Hs E).
Qed.

Lemma check_links_file_sound w dirPath file st :
  links_sound w st -> links_sound w (check_links_file w dirPath file st).
Proof.
  intros Hs. unfold check_links_file.
  destruct (readFileSync w _) as [text|msg]; cbn [Res.bind]; [|exact Hs].
  destruct (matter w text) as [[data content]|msg]; cbn [Res.bind]; [|exact Hs].
  destruct (check_urls w data urlFields st) as [st'|msg] eqn:E; [|exact Hs].
  exact (check_urls_sound w data urlFields st st' Hs E).
Qed.

Lemma check_links_files_sound w dirPath files : forall st,
  links_sound w st ->
  links_sound w (fold_left (fun st file => check_links_file w dirPath file st) files st).
Proof.
  induction files as [|file files IH]; intros st Hs; cbn [fold_left]; [exact Hs|].
  apply IH, check_links_file_sound, Hs.
Qed.

Lemma check_links_dirs_sound w dirs : forall st st',
  links_sound w st -> check_links_dirs w dirs st = Ok st' -> links_sound w st'.
Proof.
  induction dirs as [|dir dirs IH]; intros st st' Hs; cbn [check_links_dirs].
  - intros H; inversion H; subst; exact Hs.
  - destruct (existsSync w _); cbn [negb]; [|apply IH, Hs].
    destruct (readdirSync w _) as [entries|msg]; cbn [Res.bind]; [|discriminate].
    apply IH, check_links_files_sound, Hs.
Qed.

(** X4. Whenever [checkExternalLinks] returns: [valid] is empty (no URL is
    ever fetched), [unchecked] holds each URL once and only strings that
    [new URL] accepts, and [invalid] only strings that it rejects. *)
Theorem external_links_sound w r :
  checkExternalLinks w = Ok r ->
  valid r = []
  /\ NoDup (unchecked r)
  /\ (forall u, In u (unchecked r) -> is_url w u = true)
  /\ (forall u, In u (invalid r) -> is_url w u = false).
Proof.
  unfold checkExternalLinks.
  destruct (check_links_dirs w contentDirs (mkLinks [] [] [])) as [st|msg] eqn:E;
    cbn [Res.bind]; [|discriminate].
  intros H; inversion H; subst r; clear H. cbn [valid invalid unchecked].
  assert (Hs : links_sound w st).
  { apply (check_links_dirs_sound w contentDirs (mkLinks [] [] []) st); [|exact E].
    split; [reflexivity|]. split; intros u []. }
  destruct Hs as [Hv [Hu Hi]].
  split; [exact Hv|]. split; [apply dedup_nodup|].
  split; [intros u Hin; apply Hu; apply (proj1 (dedup_in _ _)), Hin|exact Hi].
Qed.

End LinkFacts.

Lemma external_links_sound_witness :
  exists r,
    Integrity.checkExternalLinks Linked.world = Ok r
    /\ Integrity.valid r = []
    /\ Integrity.unchecked r = ["https://github.com/ada/birds"]
    /\ Integrity.invalid r = ["birds.example.org"]
    /\ NoDup (Integrity.unchecked r)
    /\ (forall u, In u (Integrity.unchecked r) -> is_url Linked.world u = true).
Proof.
  destruct (Integrity.checkExternalLinks Linked.world) as [r|msg] eqn:E;
    [|vm_compute in E; discriminate].
  exists r. split; [reflexivity|].
  destruct (external_links_sound Linked.world r E) as [H1 [H2 [H3 _]]].
  vm_compute in E. inversion E; subst r.
  split; [reflexivity|]. split; [reflexivity|]. split; [reflexivity|].
  split; [exact H2|exact H3].
Defined.

(** ** Build-time validation *)

Section BuildFacts.
Import Validation Closed Build.

Lemma validateForBuild_eq w o :
  validateForBuild w o
  = let assetErrors :=
      if checkAssets o then
        match Integrity.checkImageReferences w with
        | Ok assetCheck => List.length (Integrity.missing assetCheck)
        | Throw _ => 1
        end
      else 0 in
    let linkErrors :=
      if checkLinks o then
        match Integrity.checkExternalLinks w with
        | Ok linkCheck => List.length (Integrity.invalid linkCheck)
        | Throw _ => 1
        end
      else 0 in
    if negb (isValid (all_result w)) || Nat.ltb 0 assetErrors || Nat.ltb 0 linkErrors then
      Throw "Build validation failed due to content errors. Please fix the issues above."
    else if failOnWarnings o && Nat.ltb 0 (List.length (warnings (all_result w))) then
      Throw "Build validation failed due to content warnings. Set failOnWarnings to false to ignore warnings."
    else Ok tt.
Proof.
  unfold validateForBuild. rewrite validateAllContent_eq. reflexivity.
Qed.

Lemma build_passes w o :
  validateForBuild w o = Ok tt ->
  isValid (all_result w) = true
  /\ (checkAssets o = true ->
      exists assetCheck, Integrity.checkImageReferences w = Ok assetCheck
                         /\ Integrity.missing assetCheck = [])
  /\ (checkLinks o = true ->
      exists linkCheck, Integrity.checkExternalLinks w = Ok linkCheck
                        /\ Integrity.invalid linkCheck = [])
  /\ (failOnWarnings o = true -> warnings (all_result w) = []).
Proof.
  rewrite validateForBuild_eq. cbv zeta.
  destruct (isValid (all_result w)); cbn [negb orb]; [|discriminate].
  split; [reflexivity|].
  destruct (checkAssets o).
  - destruct (Integrity.checkImageReferences w) as [a|msg]; [|discriminate].
    destruct (Integrity.missing a) eqn:Ea; [|discriminate]. cbn [List.length Nat.ltb Nat.leb orb].
    split; [intros _; exists a; split; [reflexivity|exact Ea]|].
    destruct (checkLinks o).
    + destruct (Integrity.checkExternalLinks w) as [l|msg]; [|discriminate].
      destruct (Integrity.invalid l) eqn:El; [|discriminate]. cbn [List.length Nat.ltb Nat.leb].
      split; [intros _; exists l; split; [reflexivity|exact El]|].
      destruct (failOnWarnings o); [|discriminate].
      destruct (warnings (all_result w)); [reflexivity|discriminate].
    + cbn [Nat.ltb Nat.leb]. split; [discriminate|].
      destruct (failOnWarnings o); [|discriminate].
      destruct (warnings (all_result w)); [reflexivity|discriminate].
  - cbn [Nat.ltb Nat.leb orb]. split; [discriminate|].
    destruct (checkLinks o).
    + destruct (Integrity.checkExternalLinks w) as [l|msg]; [|discriminate].
      destruct (Integrity.invalid l) eqn:El; [|discriminate]. cbn [List.length Nat.ltb Nat.leb].
      split; [intros _; exists l; split; [reflexivity|exact El]|].
      destruct (failOnWarnings o); [|discriminate].
      destruct (warnings (all_result w)); [reflexivity|discriminate].
    + cbn [Nat.ltb Nat.leb]. split; [discriminate|].
      destruct (failOnWarnings o); [|discriminate].
      destruct (warnings (all_result w)); [reflexivity|discriminate].
Qed.

Lemma build_passes_conversely w o :
  isValid (all_result w) = true ->
  (checkAssets o = true ->
   exists assetCheck, Integrity.checkImageReferences w = Ok assetCheck
                      /\ Integrity.missing assetCheck = []) ->
  (checkLinks o = true ->
   exists linkCheck, Integrity.checkExternalLinks w = Ok linkCheck
                     /\ Integrity.invalid linkCheck = []) ->
  (failOnWarnings o = true -> warnings (all_result w) = []) ->
  validateForBuild w o = Ok tt.
Proof.
  intros Hv Ha Hl Hw. rewrite validateForBuild_eq. cbv zeta. rewrite Hv. cbn [negb orb].
  destruct (checkAssets o).
  - destruct (Ha eq_refl) as [a [-> ->]]. cbn [List.length Nat.ltb Nat.leb orb].
    destruct (checkLinks o).
    + destruct (Hl eq_refl) as [l [-> ->]]. cbn [List.length Nat.ltb Nat.leb].
      destruct (failOnWarnings o); [|reflexivity]. now rewrite (Hw eq_refl).
    + cbn [Nat.ltb Nat.leb].
      destruct (failOnWarnings o); [|reflexivity]. now rewrite (Hw eq_refl).
  - cbn [Nat.ltb Nat.leb orb].
    destruct (checkLinks o).
    + destruct (Hl eq_refl) as [l [-> ->]]. cbn [List.length Nat.ltb Nat.leb].
      destruct (failOnWarnings o); [|reflexivity]. now rewrite (Hw eq_refl).
    + cbn [Nat.ltb Nat.leb].
      destruct (failOnWarnings o); [|reflexivity]. now rewrite (Hw eq_refl).
Qed.

(** X5. [validateForBuild] is monotone in its options: a site that passes
    with the options [o] passes with any options that switch on no check
    that [o] leaves off, whatever [verbose] is; it then passes the build
    hook of the middleware in production, and the pre-commit check when
    [o] checks the assets. *)
Theorem build_options_monotone w o o' :
  (failOnWarnings o' = true -> failOnWarnings o = true) ->
  (checkAssets o' = true -> checkAssets o = true) ->
  (checkLinks o' = true -> checkLinks o = true) ->
  validateForBuild w o = Ok tt ->
  validateForBuild w o' = Ok tt
  /\ buildStart w true = Ok tt
  /\ (checkAssets o = true -> validateForCommit w = true).
Proof.
  intros Hf Ha Hl Hpass.
  destruct (build_passes w o Hpass) as [Hv [Hassets [Hlinks Hwarn]]].
  split; [|split].
  - apply build_passes_conversely; auto.
  - unfold buildStart, validateForDev. rewrite validateAllContent_eq.
    cbn [Res.bind]. now rewrite Hv.
  - intros Hc. unfold validateForCommit.
    rewrite (build_passes_conversely w (mkOptions false true false true)); auto.
    + cbn [checkLinks]. discriminate.
    + cbn [failOnWarnings]. discriminate.
Qed.

Lemma count_dirs_names w dirs : forall counts,
  count_dirs w dirs = Ok counts -> map fst counts = dirs.
Proof.
  induction dirs as [|dir dirs IH]; intros counts; cbn [count_dirs].
  - intros H; inversion H; reflexivity.
  - destruct (existsSync w _).
    + destruct (readdirSync w _) as [entries|msg]; cbn [Res.bind]; [|discriminate].
      destruct (count_dirs w dirs) as [rest|msg]; cbn [Res.bind]; [|discriminate].
      intros H; inversion H; subst counts. cbn [map fst]. now rewrite (IH rest).
    + cbn [Res.bind].
      destruct (count_dirs w dirs) as [rest|msg]; cbn [Res.bind]; [|discriminate].
      intros H; inversion H; subst counts. cbn [map fst]. now rewrite (IH rest).
Qed.

(** X7. Whenever [getContentHealthReport] returns a report: the site is
    healthy exactly when [validateForBuild] with its default options
    passes, which is exactly when the report counts no error and no missing
    asset; the warnings do not count; and the report has one count for each
    of the six content directories, in order. *)
Theorem health_matches_build w h :
  getContentHealthReport w = Ok h ->
  (isHealthy h = true <-> validateForBuild w default_options = Ok tt)
  /\ (isHealthy h = true <->
      totalErrors (summary h) = 0 /\ missingAssets (summary h) = 0)
  /\ validateAllContent w = Ok (details h)
  /\ totalWarnings (summary h) = List.length (warnings (details h))
  /\ map fst (collections (summary h)) = healthDirs.
Proof.
  unfold getContentHealthReport. rewrite validateAllContent_eq. cbn [Res.bind].
  rewrite validateForBuild_eq. cbv zeta. cbn [default_options checkAssets checkLinks failOnWarnings].
  destruct (Integrity.checkImageReferences w) as [a|msg]; cbn [Res.bind]; [|discriminate].
  destruct (count_dirs w healthDirs) as [counts|msg] eqn:Ec; cbn [Res.bind]; [|discriminate].
  remember (all_result w) as R eqn:HR.
  intros [= <-].
  cbv beta iota delta [isHealthy summary details totalErrors totalWarnings missingAssets
                         Build.collections].
  subst R.
  assert (Hiff : isValid (all_result w) = true <-> errors (all_result w) = []).
  { unfold all_result, make_result. cbn [isValid errors].
    destruct (flat_map errors (constituents w)); simpl; split; congruence. }
  split; [|split; [|split; [reflexivity|split; [reflexivity|]]]].
  - destruct (isValid (all_result w)); cbn [negb andb orb]; [|split; discriminate].
    destruct (Integrity.missing a); cbn [List.length Nat.eqb Nat.ltb Nat.leb andb orb];
      split; intros H; (reflexivity || discriminate H).
  - rewrite andb_true_iff, Nat.eqb_eq, Hiff, !length_zero_iff_nil. reflexivity.
  - exact (count_dirs_names w healthDirs counts Ec).
Qed.

End BuildFacts.

Lemma build_options_monotone_witness :
  Build.validateForBuild Linked.complete (Build.mkOptions false true true false) = Ok tt
  /\ Build.validateForBuild Linked.complete (Build.mkOptions false false false true) = Ok tt
  /\ Build.buildStart Linked.complete true = Ok tt
  /\ Build.validateForCommit Linked.complete = true.
Proof.
  assert (H : Build.validateForBuild Linked.complete (Build.mkOptions false true true false)
              = Ok tt) by (vm_compute; reflexivity).
  split; [exact H|].
  destruct (build_options_monotone Linked.complete (Build.mkOptions false true true false)
              (Build.mkOptions false false false true)) as [H1 [H2 H3]].
  - discriminate.
  - discriminate.
  - discriminate.
  - exact H.
  - split; [exact H1|]. split; [exact H2|]. apply H3. reflexivity.
Defined.

Lemma health_matches_build_witness :
  exists h,
    Build.getContentHealthReport Sample.tidy = Ok h
    /\ Build.isHealthy h = false
    /\ Build.totalErrors (Build.summary h) = 0
    /\ Build.missingAssets (Build.summary h) = 2
    /\ (Build.isHealthy h = true <->
        Build.validateForBuild Sample.tidy Build.default_options = Ok tt).
Proof.
  destruct (Build.getContentHealthReport Sample.tidy) as [h|msg] eqn:E;
    [|vm_compute in E; discriminate].
  exists h. split; [reflexivity|].
  destruct (health_matches_build Sample.tidy h E) as [H1 _].
  vm_compute in E. inversion E; subst h.
  split; [reflexivity|]. split; [reflexivity|]. split; [reflexivity|exact H1].
Defined.

(** ** Dates *)

Section DateFacts.
Import Str Dates.
Local Open Scope Z_scope.

Lemma digit_bounds c : is_digit c = true -> 0 <= digit_value c <= 9.
Proof.
  unfold is_digit, digit_value. cbv zeta.
  rewrite andb_true_iff, !Nat.leb_le. lia.
Qed.

Lemma digit_not_space c : is_digit c = true -> JS.is_space c = false.
Proof.
  unfold is_digit, JS.is_space. cbv zeta.
  rewrite andb_true_iff, !Nat.leb_le. intros [H1 H2].
  apply orb_false_iff. split.
  - apply andb_false_iff. right. apply Nat.leb_gt. lia.
  - apply Nat.eqb_neq. lia.
Qed.

Lemma digit_is_not c (other : ascii) :
  is_digit other = false -> is_digit c = true -> Ascii.eqb c other = false.
Proof.
  intros Ho Hc. destruct (Ascii.eqb_spec c other) as [->|]; [congruence|reflexivity].
Qed.

Lemma digit_lower c : is_digit c = true -> Missing.lower_char c = c.
Proof.
  unfold is_digit, Missing.lower_char. cbv zeta.
  rewrite andb_true_iff, !Nat.leb_le. intros [H1 H2].
  replace (Nat.leb 65 (nat_of_ascii c)) with false; [reflexivity|].
  symmetry. apply Nat.leb_gt. lia.
Qed.

Lemma no_hex_prefix c1 c2 rest :
  is_digit c2 = true ->
  String.prefix "0x" (String c1 (String c2 rest)) || String.prefix "0X" (String c1 (String c2 rest))
  = false.
Proof.
  intros H. cbn [String.prefix].
  destruct (ascii_dec "0" c1); [|reflexivity].
  destruct (ascii_dec "x" c2) as [<-|]; [discriminate H|].
  destruct (ascii_dec "X" c2) as [<-|]; [discriminate H|]. reflexivity.
Qed.

(** [parseInt] of a string of at least two digits that stops at its end or
    at a character that is no digit. *)
Lemma parseInt_digits radix10 c1 c2 rest :
  is_digit c1 = true -> is_digit c2 = true ->
  parseInt radix10 (String c1 (String c2 rest))
  = Some (digits_value 0 (String c1 (String c2 rest))).
Proof.
  intros H1 H2. unfold parseInt. cbn [JS.trim_start].
  rewrite (digit_not_space c1 H1).
  rewrite (digit_is_not c1 "-" eq_refl H1), (digit_is_not c1 "+" eq_refl H1).
  rewrite (no_hex_prefix c1 c2 rest H2), andb_false_r.
  cbn [starts_with_digit]. rewrite H1.
  now rewrite Z.mul_1_l.
Qed.

(** The shape of a string that matches [/^\d{4}-\d{2}$/]. *)
Lemma is_year_month_shape s :
  is_year_month s = true ->
  exists y1 y2 y3 y4 m1 m2,
    s = String y1 (String y2 (String y3 (String y4 (String "-" (String m1 (String m2
          EmptyString))))))
    /\ is_digit y1 = true /\ is_digit y2 = true /\ is_digit y3 = true
    /\ is_digit y4 = true /\ is_digit m1 = true /\ is_digit m2 = true.
Proof.
  destruct s as [|y1 [|y2 [|y3 [|y4 [|dash [|m1 [|m2 [|c rest]]]]]]]]; try discriminate.
  cbn [is_year_month]. rewrite !andb_true_iff.
  intros [[[[[[H1 H2] H3] H4] Hd] H5] H6].
  apply Ascii.eqb_eq in Hd. subst dash.
  exists y1, y2, y3, y4, m1, m2. repeat split; assumption.
Qed.

Lemma is_year_month1_shape s :
  is_year_month1 s = true ->
  exists y1 y2 y3 y4 m1,
    s = String y1 (String y2 (String y3 (String y4 (String "-" (String m1 EmptyString)))))
    /\ is_digit y1 = true /\ is_digit y2 = true /\ is_digit y3 = true
    /\ is_digit y4 = true /\ is_digit m1 = true.
Proof.
  destruct s as [|y1 [|y2 [|y3 [|y4 [|dash [|m1 [|c rest]]]]]]]; try discriminate.
  cbn [is_year_month1]. rewrite !andb_true_iff.
  intros [[[[[H1 H2] H3] H4] Hd] H5].
  apply Ascii.eqb_eq in Hd. subst dash.
  exists y1, y2, y3, y4, m1. repeat split; assumption.
Qed.

Ltac year_month_shape H :=
  let y1 := fresh "y1" in let y2 := fresh "y2" in let y3 := fresh "y3" in
  let y4 := fresh "y4" in let m1 := fresh "m1" in let m2 := fresh "m2" in
  let E := fresh "E" in
  let H1 := fresh "Hy1" in let H2 := fresh "Hy2" in let H3 := fresh "Hy3" in
  let H4 := fresh "Hy4" in let H5 := fresh "Hm1" in let H6 := fresh "Hm2" in
  destruct (is_year_month_shape _ H) as [y1 [y2 [y3 [y4 [m1 [m2 [E [H1 [H2 [H3 [H4 [H5 H6]]]]]]]]]]]].

Lemma split_year_month y1 y2 y3 y4 rest :
  is_digit y1 = true -> is_digit y2 = true -> is_digit y3 = true -> is_digit y4 = true ->
  (forall c, In c (list_ascii_of_string rest) -> is_digit c = true) ->
  split_on "-" (String y1 (String y2 (String y3 (String y4 (String "-" rest)))))
  = [String y1 (String y2 (String y3 (String y4 EmptyString))); rest].
Proof.
  intros H1 H2 H3 H4 Hrest.
  assert (Hr : split_on "-" rest = [rest]).
  { induction rest as [|c rest IH]; [reflexivity|].
    cbn [split_on].
    rewrite (digit_is_not c "-" eq_refl (Hrest c (or_introl eq_refl))).
    rewrite IH; [reflexivity|]. intros c' Hc'. apply Hrest. now right. }
  cbn [split_on].
  rewrite (digit_is_not y1 "-" eq_refl H1), (digit_is_not y2 "-" eq_refl H2),
    (digit_is_not y3 "-" eq_refl H3), (digit_is_not y4 "-" eq_refl H4).
  rewrite Ascii.eqb_refl, Hr. reflexivity.
Qed.

(** A string that matches the pattern is unchanged by [trim] and by
    [toLowerCase], and is not the word [present]. *)
Lemma year_month_clean s :
  is_year_month s = true ->
  Missing.toLowerCase (JS.trim s) = s /\ String.eqb s "present" = false.
Proof.
  intros H. year_month_shape H. subst s. split.
  - unfold JS.trim. cbn [JS.trim_start]. rewrite (digit_not_space y1 Hy1).
    cbn [JS.rev_string JS.trim_start]. rewrite (digit_not_space m2 Hm2).
    cbn [JS.rev_string]. unfold Missing.toLowerCase. cbn [Missing.map_string].
    rewrite (digit_lower y1 Hy1), (digit_lower y2 Hy2), (digit_lower y3 Hy3),
      (digit_lower y4 Hy4), (digit_lower m1 Hm1), (digit_lower m2 Hm2).
    reflexivity.
  - cbn [String.eqb]. now rewrite (digit_is_not y1 "p" eq_refl Hy1).
Qed.

Lemma parse_year_month s :
  is_year_month s = true ->
  parseInt_nth false (split_on "-" s) 0 = Some (year_of s)
  /\ parseInt_nth false (split_on "-" s) 1 = Some (month_of s)
  /\ parseInt_nth true (split_on "-" s) 0 = Some (year_of s)
  /\ parseInt_nth true (split_on "-" s) 1 = Some (month_of s)
  /\ 0 <= year_of s <= 9999 /\ 0 <= month_of s <= 99.
Proof.
  intros H. year_month_shape H. subst s.
  rewrite split_year_month; try assumption.
  2:{ intros c [<-|[<-|[]]]; assumption. }
  unfold parseInt_nth. cbn [nth_error].
  rewrite !parseInt_digits by assumption.
  unfold year_of, month_of. cbn [String.substring].
  repeat split; try reflexivity;
    cbn [digits_value]; rewrite ?Hy1, ?Hy2, ?Hy3, ?Hy4, ?Hm1, ?Hm2;
    pose proof (digit_bounds y1 Hy1); pose proof (digit_bounds y2 Hy2);
    pose proof (digit_bounds y3 Hy3); pose proof (digit_bounds y4 Hy4);
    pose proof (digit_bounds m1 Hm1); pose proof (digit_bounds m2 Hm2); lia.
Qed.

Lemma parse_month_index s :
  is_year_month s = true -> parse_month s = Some (month_index s).
Proof.
  intros H. destruct (parse_year_month s H) as [Hy [Hm [_ [_ [By Bm]]]]].
  unfold parse_month. rewrite Hy, Hm. cbn [sub]. unfold make_date, month_index.
  replace (0 <=? year_of s) with true by (symmetry; apply Z.leb_le; lia).
  cbn [andb].
  assert (Hr : (first_month <=? (if year_of s <=? 99 then 1900 + year_of s else year_of s) * 12
                                 + (month_of s - 1))
               && ((if year_of s <=? 99 then 1900 + year_of s else year_of s) * 12
                   + (month_of s - 1) <=? last_month) = true).
  { unfold first_month, last_month. apply andb_true_iff.
    rewrite !Z.leb_le. destruct (year_of s <=? 99) eqn:E;
      [apply Z.leb_le in E|apply Z.leb_gt in E]; lia. }
  rewrite Hr. f_equal. lia.
Qed.

Lemma month_difference a b :
  add (mul (sub (getFullYear (Some b)) (getFullYear (Some a))) (Some 12))
      (sub (getMonth (Some b)) (getMonth (Some a)))
  = Some (b - a).
Proof.
  cbn [getFullYear getMonth sub mul add]. f_equal.
  pose proof (Z.div_mod a 12). pose proof (Z.div_mod b 12). lia.
Qed.

Lemma duration_to_now now start end_ :
  is_year_month start = true ->
  end_ = None \/ end_ = Some "" \/ end_ = Some "present" ->
  calculateDuration now start end_ = duration_text (Some (now - month_index start)).
Proof.
  intros Hs He. unfold calculateDuration. rewrite (parse_month_index start Hs).
  destruct He as [-> | [-> | ->]];
    cbn [String.eqb Ascii.eqb Bool.eqb negb andb]; now rewrite month_difference.
Qed.

Lemma duration_between now start end_ :
  is_year_month start = true -> is_year_month end_ = true ->
  calculateDuration now start (Some end_)
  = duration_text (Some (month_index end_ - month_index start)).
Proof.
  intros Hs He. unfold calculateDuration. rewrite (parse_month_index start Hs).
  destruct (year_month_clean end_ He) as [_ Hp]. rewrite Hp.
  replace (String.eqb end_ "") with false
    by (year_month_shape He; subst end_; reflexivity).
  cbn [negb andb]. now rewrite (parse_month_index end_ He), month_difference.
Qed.

(** X8. For a start date that matches [YYYY-MM], [calculateDuration] is
    the text of a whole number of months: the months from the start to the
    end date when that matches [YYYY-MM] too, and to the current month when
    the end date is missing, empty or [present].  An end date in the month
    of the start or before it gives [Less than 1 month]. *)
Theorem duration_of_year_month_dates now start :
  is_year_month start = true ->
  (forall end_, is_year_month end_ = true ->
     calculateDuration now start (Some end_)
     = duration_text (Some (month_index end_ - month_index start))
     /\ (month_index end_ <= month_index start ->
         calculateDuration now start (Some end_) = "Less than 1 month"))
  /\ calculateDuration now start None = duration_text (Some (now - month_index start))
  /\ calculateDuration now start (Some "") = duration_text (Some (now - month_index start))
  /\ calculateDuration now start (Some "present")
     = duration_text (Some (now - month_index start)).
Proof.
  intros Hs.
  split; [|repeat split; apply duration_to_now; auto].
  intros end_ He. rewrite (duration_between now start end_ Hs He).
  split; [reflexivity|]. intros Hle. unfold duration_text.
  replace (month_index end_ - month_index start <? 1) with true; [reflexivity|].
  symmetry. apply Z.ltb_lt. lia.
Qed.

(** X9. When [parseInt] makes NaN of the year or of the month of the start
    date, [calculateDuration] does not reach its [catch] block: it returns
    the text [NaN years, NaN months], whatever the end date. *)
Theorem duration_of_unparsable_start now start end_ :
  parseInt_nth false (split_on "-" start) 0 = None
  \/ parseInt_nth false (split_on "-" start) 1 = None ->
  calculateDuration now start end_ = "NaN years, NaN months".
Proof.
  intros H. unfold calculateDuration.
  assert (Hp : parse_month start = None).
  { unfold parse_month. destruct H as [-> | ->]; [reflexivity|].
    destruct (parseInt_nth false (split_on "-" start) 0); reflexivity. }
  rewrite Hp. cbn [getFullYear getMonth].
  destruct (getFullYear _), (getMonth _); reflexivity.
Qed.

(** X10. [normalizeDateString] is idempotent. *)
Theorem normalize_idempotent s :
  normalizeDateString (normalizeDateString s) = normalizeDateString s.
Proof.
  unfold normalizeDateString at 2 3.
  destruct (String.eqb s "present") eqn:Ep; [reflexivity|].
  destruct (is_year_month (Missing.toLowerCase (JS.trim s))) eqn:E2.
  { destruct (year_month_clean _ E2) as [Hc Hp].
    unfold normalizeDateString. now rewrite Hp, Hc, E2. }
  destruct (is_year_month1 (Missing.toLowerCase (JS.trim s))) eqn:E1.
  { destruct (is_year_month1_shape _ E1) as [y1 [y2 [y3 [y4 [m1 [-> [H1 [H2 [H3 [H4 H5]]]]]]]]]].
    rewrite split_year_month; try assumption.
    2:{ intros c [<-|[]]; assumption. }
    cbn [padStart2 String.length String.append].
    assert (Hn : is_year_month
                   (String y1 (String y2 (String y3 (String y4 (String "-" (String "0"
                      (String m1 EmptyString))))))) = true).
    { cbn [is_year_month]. rewrite H1, H2, H3, H4, H5. reflexivity. }
    destruct (year_month_clean _ Hn) as [Hc Hp].
    unfold normalizeDateString. now rewrite Hp, Hc, Hn. }
  destruct (existsb _ _) eqn:Ew; [reflexivity|].
  unfold normalizeDateString. now rewrite Ep, E2, E1, Ew.
Qed.

(** X11. A date accepted by [isValidDateFormat] is left as it is by
    [normalizeDateString]. *)
Theorem accepted_dates_are_normal year s :
  isValidDateFormat year s = true -> normalizeDateString s = s.
Proof.
  unfold isValidDateFormat, normalizeDateString.
  destruct (String.eqb s "present") eqn:Ep; [intros _; symmetry; now apply String.eqb_eq|].
  destruct (is_year_month s) eqn:E; cbn [negb]; [|discriminate].
  intros _. destruct (year_month_clean s E) as [Hc _]. now rewrite Hc, E.
Qed.

(** X12. A date [YYYY-M] is normalised to [YYYY-0M]: the same year and
    dash, a zero, and the month digit.  The normalised date matches
    [YYYY-MM], and [isValidDateFormat] accepts it exactly when its month is
    not 0 and its year is from 1900 to ten years after the current one. *)
Theorem single_digit_month_normalised year s :
  is_year_month1 s = true ->
  normalizeDateString s
  = (String.substring 0 5 s ++ "0" ++ String.substring 5 1 s)%string
  /\ is_year_month (normalizeDateString s) = true
  /\ isValidDateFormat year (normalizeDateString s)
     = (1 <=? digits_value 0 (String.substring 5 1 s))
       && (1900 <=? year_of s) && (year_of s <=? year + 10).
Proof.
  intros H.
  destruct (is_year_month1_shape s H) as [y1 [y2 [y3 [y4 [m1 [-> [H1 [H2 [H3 [H4 H5]]]]]]]]]].
  assert (Hn : normalizeDateString
                 (String y1 (String y2 (String y3 (String y4 (String "-" (String m1
                    EmptyString))))))
               = String y1 (String y2 (String y3 (String y4 (String "-" (String "0"
                    (String m1 EmptyString))))))).
  { unfold normalizeDateString.
    cbn [String.eqb]. rewrite (digit_is_not y1 "p" eq_refl H1).
    unfold JS.trim. cbn [JS.trim_start]. rewrite (digit_not_space y1 H1).
    cbn [JS.rev_string JS.trim_start]. rewrite (digit_not_space m1 H5).
    cbn [JS.rev_string]. unfold Missing.toLowerCase. cbn [Missing.map_string].
    rewrite (digit_lower y1 H1), (digit_lower y2 H2), (digit_lower y3 H3),
      (digit_lower y4 H4), (digit_lower m1 H5).
    change (Missing.lower_char "-") with "-"%char.
    cbn [is_year_month]. rewrite H.
    rewrite split_year_month; try assumption.
    - reflexivity.
    - intros c [<-|[]]; assumption. }
  rewrite Hn.
  assert (Hy : is_year_month
                 (String y1 (String y2 (String y3 (String y4 (String "-" (String "0"
                    (String m1 EmptyString))))))) = true).
  { cbn [is_year_month]. rewrite H1, H2, H3, H4, H5. reflexivity. }
  split; [reflexivity|]. split; [exact Hy|].
  destruct (year_month_clean _ Hy) as [_ Hp].
  destruct (parse_year_month _ Hy) as [_ [_ [Py [Pm _]]]].
  unfold isValidDateFormat. rewrite Hp, Hy, Py, Pm. cbn [negb].
  unfold year_of, month_of, iso_first_day_valid. cbn [String.substring digits_value].
  rewrite H1, H2, H3, H4, H5. change (is_digit "0") with true. cbv iota.
  change (digit_value "0") with 0. rewrite !Z.mul_0_r, !Z.add_0_l.
  pose proof (digit_bounds m1 H5) as Hb.
  replace (digit_value m1 <=? 12) with true by (symmetry; apply Z.leb_le; lia).
  rewrite andb_true_r.
  destruct (1 <=? digit_value m1); reflexivity.
Qed.

End DateFacts.

Lemma duration_of_year_month_dates_witness :
  Dates.calculateDuration 24322 "2023-05" (Some "2024-07") = "1 year, 2 months"
  /\ Dates.calculateDuration 24322 "2023-05" (Some "2023-05") = "Less than 1 month"
  /\ Dates.calculateDuration 24322 "2023-05" None = "3 years, 6 months".
Proof.
  destruct (duration_of_year_month_dates 24322 "2023-05" eq_refl) as [He [Hn _]].
  destruct (He "2024-07" eq_refl) as [H1 _].
  destruct (He "2023-05" eq_refl) as [_ H2].
  split; [rewrite H1; reflexivity|].
  split; [apply H2; vm_compute; discriminate|].
  rewrite Hn. reflexivity.
Defined.

Lemma duration_of_unparsable_start_witness :
  Dates.calculateDuration 24322 "May 2023" (Some "2024-07") = "NaN years, NaN months".
Proof.
  apply (duration_of_unparsable_start 24322 "May 2023" (Some "2024-07")).
  left. reflexivity.
Defined.

Lemma accepted_dates_are_normal_witness :
  Dates.isValidDateFormat 2026 "2023-05" = true
  /\ Dates.normalizeDateString "2023-05" = "2023-05".
Proof.
  split; [reflexivity|].
  apply (accepted_dates_are_normal 2026 "2023-05"). reflexivity.
Defined.

Lemma single_digit_month_normalised_witness :
  Dates.normalizeDateString "2023-5" = "2023-05"
  /\ Dates.isValidDateFormat 2026 (Dates.normalizeDateString "2023-5") = true
  /\ Dates.isValidDateFormat 2026 (Dates.normalizeDateString "2023-0") = false.
Proof.
  destruct (single_digit_month_normalised 2026 "2023-5" eq_refl) as [Hn [_ Hv]].
  destruct (single_digit_month_normalised 2026 "2023-0" eq_refl) as [_ [_ Hz]].
  split; [exact Hn|]. split; [rewrite Hv; reflexivity|rewrite Hz; reflexivity].
Defined.

(** ** The data checks of the helpers *)

Section DataFacts.
Import DataChecks.
Variable w : World.
Variable to_string : value -> result string.

Lemma blank_object fields key :
  blank (VObj fields) key
  = match JS.lookup key fields with
    | VUndef | VNull => Ok true
    | VStr s => Ok (is_blank s)
    | _ => Throw (key ++ ".trim is not a function")
    end.
Proof. reflexivity. Qed.

Lemma blank_returns fields key :
  (exists b, blank (VObj fields) key = Ok b) <-> trimmable (JS.lookup key fields) = true.
Proof.
  rewrite blank_object.
  destruct (JS.lookup key fields); cbn [trimmable]; split; intros H;
    try reflexivity; try discriminate; try (destruct H; discriminate); eauto.
Qed.

Lemma blank_throws fields key :
  trimmable (JS.lookup key fields) = false ->
  exists msg, blank (VObj fields) key = Throw msg.
Proof.
  rewrite blank_object.
  destruct (JS.lookup key fields); cbn [trimmable]; intros H; try discriminate; eauto.
Qed.

Lemma blank_ok fields key :
  trimmable (JS.lookup key fields) = true ->
  exists b, blank (VObj fields) key = Ok b.
Proof. apply blank_returns. Qed.

Lemma start_test_returns v :
  trimmable v = true -> exists b, fails_date_test to_string (JS.truthy v) v = Ok b.
Proof.
  destruct v; cbn [trimmable]; try discriminate; intros _;
    cbn [JS.truthy fails_date_test]; eauto.
  destruct (negb (String.eqb s "")); unfold fails_date_test, date_ok;
    cbn [string_form Res.bind]; eauto.
Qed.

Lemma end_test_returns v :
  (exists b, fails_date_test to_string (JS.truthy v && not_present v) v = Ok b)
  <-> end_date_converts to_string v = true.
Proof.
  unfold fails_date_test, end_date_converts, date_ok.
  destruct (JS.truthy v && not_present v); [|split; eauto].
  destruct (string_form to_string v) as [s|msg]; cbn [Res.bind].
  - split; eauto.
  - split; [intros [b Hb]; discriminate|discriminate].
Qed.

(** X13. [validateProjectData] returns a verdict exactly when the title
    and the description are absent, null or strings, and
    [validateExperienceData] exactly when the company, the position, the
    start date and the location are so and the end date, when it is put to
    the pattern, can be converted to a string.  A trimmed field of another
    type (a number, a list, a mapping, a date), an end date that has no
    string form, and a project or an experience that is null or undefined
    make the check throw a TypeError instead of reporting. *)
Theorem data_checks_return_on_strings :
  (forall fields,
      (exists verdict, validateProjectData w to_string (VObj fields) = Ok verdict)
      <-> forallb (fun key => trimmable (JS.lookup key fields))
            ["title"; "description"] = true)
  /\ (forall fields,
         (exists verdict, validateExperienceData w to_string (VObj fields) = Ok verdict)
         <-> forallb (fun key => trimmable (JS.lookup key fields))
               ["company"; "position"; "startDate"; "location"] = true
             /\ end_date_converts to_string (JS.lookup "endDate" fields) = true)
  /\ (forall data, data = VNull \/ data = VUndef ->
        (exists msg, validateProjectData w to_string data = Throw msg)
        /\ (exists msg, validateExperienceData w to_string data = Throw msg)).
Proof.
  split; [|split].
  - intros fields. unfold validateProjectData. cbn [forallb JS.get_prop Res.bind].
    rewrite !andb_true_iff.
    destruct (trimmable (JS.lookup "title" fields)) eqn:Et.
    + destruct (blank_ok fields "title" Et) as [b1 ->]. cbn [Res.bind].
      destruct (trimmable (JS.lookup "description" fields)) eqn:Ed.
      * destruct (blank_ok fields "description" Ed) as [b2 ->]. cbn [Res.bind].
        split; [auto|]. intros _. eexists; reflexivity.
      * destruct (blank_throws fields "description" Ed) as [msg ->]. cbn [Res.bind].
        split; [intros [v Hv]; discriminate|]. intros [_ [H _]]. discriminate.
    + destruct (blank_throws fields "title" Et) as [msg ->]. cbn [Res.bind].
      split; [intros [v Hv]; discriminate|]. intros [H _]. discriminate.
  - intros fields. unfold validateExperienceData. cbn [forallb JS.get_prop Res.bind].
    rewrite !andb_true_iff.
    destruct (trimmable (JS.lookup "company" fields)) eqn:E1;
      [destruct (blank_ok fields "company" E1) as [b1 ->]
      |destruct (blank_throws fields "company" E1) as [msg ->]]; cbn [Res.bind];
      [|split; [intros [v Hv]; discriminate|intros [[H _] _]; discriminate]].
    destruct (trimmable (JS.lookup "position" fields)) eqn:E2;
      [destruct (blank_ok fields "position" E2) as [b2 ->]
      |destruct (blank_throws fields "position" E2) as [msg ->]]; cbn [Res.bind];
      [|split; [intros [v Hv]; discriminate|intros [[_ [H _]] _]; discriminate]].
    destruct (trimmable (JS.lookup "startDate" fields)) eqn:E3;
      [destruct (blank_ok fields "startDate" E3) as [b3 ->]
      |destruct (blank_throws fields "startDate" E3) as [msg ->]]; cbn [Res.bind];
      [|split; [intros [v Hv]; discriminate|intros [[_ [_ [H _]]] _]; discriminate]].
    destruct (trimmable (JS.lookup "location" fields)) eqn:E4;
      [destruct (blank_ok fields "location" E4) as [b4 ->]
      |destruct (blank_throws fields "location" E4) as [msg ->]]; cbn [Res.bind];
      [|split; [intros [v Hv]; discriminate|intros [[_ [_ [_ [H _]]]] _]; discriminate]].
    destruct (start_test_returns _ E3) as [bs ->]. cbn [Res.bind].
    rewrite <- end_test_returns.
    destruct (fails_date_test to_string _ (JS.lookup "endDate" fields)) as [be|msg];
      cbn [Res.bind].
    + split; [intros _; split; [auto|eauto]|intros _; eexists; reflexivity].
    + split; [intros [v Hv]; discriminate|intros [_ [b Hb]]; discriminate].
  - intros data [-> | ->]; split; eexists; reflexivity.
Qed.

Lemma string_issues_nil checks path v :
  Zod.issues (is_email w) (is_url w) (Zod.SString checks) path v = [] ->
  exists s, v = VStr s.
Proof.
  cbn [Zod.issues]. destruct v; try discriminate. eauto.
Qed.

Lemma optional_url_issues_nil msg path v :
  Zod.issues (is_email w) (is_url w) (Zod.SOptional (Zod.SString [Zod.StrUrl msg])) path v = [] ->
  v = VUndef \/ exists s, v = VStr s /\ is_url w s = true.
Proof.
  cbn [Zod.issues]. destruct v; try discriminate; [now left|].
  cbn [flat_map Zod.string_check_issue]. destruct (is_url w s) eqn:E; [|discriminate].
  right. eauto.
Qed.

Lemma array_issues_nil elem min path v :
  Zod.issues (is_email w) (is_url w) (Zod.SArray elem min) path v = [] ->
  exists items, v = VArr items.
Proof.
  cbn [Zod.issues]. destruct v; try discriminate. eauto.
Qed.

Lemma url_check_passes v :
  v = VUndef \/ (exists s, v = VStr s /\ is_url w s = true) ->
  JS.truthy v && negb (isValidUrl w to_string v) = false.
Proof.
  intros [-> | [s [-> Hu]]]; [reflexivity|].
  unfold isValidUrl. cbn [string_form]. rewrite Hu. apply andb_false_r.
Qed.

(** X14. On a front-matter that [projectSchema] accepts,
    [validateProjectData] returns, and complains of nothing but a title or a
    description that is blank once trimmed (the schema counts the
    characters without trimming). *)
Theorem schema_valid_project_is_checked fields :
  Zod.safeParse (is_email w) (is_url w) Schemas.projectSchema (VObj fields) = [] ->
  exists title description,
    JS.lookup "title" fields = VStr title
    /\ JS.lookup "description" fields = VStr description
    /\ validateProjectData w to_string (VObj fields)
       = Ok (mkVerdict (negb (is_blank title) && negb (is_blank description))
               ((if is_blank title then ["Title is required"] else [])
                ++ (if is_blank description then ["Description is required"] else []))).
Proof.
  unfold Zod.safeParse, Schemas.projectSchema.
  cbn [Zod.issues app]. intros H.
  apply app_eq_nil in H. destruct H as [Ht H].
  apply app_eq_nil in H. destruct H as [Hd H].
  apply app_eq_nil in H. destruct H as [_ H].
  apply app_eq_nil in H. destruct H as [Hg H].
  apply app_eq_nil in H. destruct H as [Hdemo H].
  apply app_eq_nil in H. destruct H as [_ H].
  apply app_eq_nil in H. destruct H as [_ H].
  apply app_eq_nil in H. destruct H as [Htags _].
  destruct (JS.lookup "title" fields) as [| | | |title| | |] eqn:Et; try discriminate Ht.
  destruct (JS.lookup "description" fields) as [| | | |description| | |] eqn:Ed;
    try discriminate Hd.
  exists title, description. split; [reflexivity|]. split; [reflexivity|].
  unfold validateProjectData. rewrite !blank_object, Et, Ed. cbn [Res.bind JS.get_prop].
  assert (Hgithub : JS.truthy (JS.lookup "github" fields)
                    && negb (isValidUrl w to_string (JS.lookup "github" fields)) = false).
  { apply url_check_passes.
    destruct (JS.lookup "github" fields); try discriminate Hg; [now left|].
    right. exists s. split; [reflexivity|].
    cbn [flat_map Zod.string_check_issue app] in Hg.
    destruct (is_url w s); [reflexivity|discriminate Hg]. }
  assert (Hdemo' : JS.truthy (JS.lookup "demo" fields)
                   && negb (isValidUrl w to_string (JS.lookup "demo" fields)) = false).
  { apply url_check_passes.
    destruct (JS.lookup "demo" fields); try discriminate Hdemo; [now left|].
    right. exists s. split; [reflexivity|].
    cbn [flat_map Zod.string_check_issue app] in Hdemo.
    destruct (is_url w s); [reflexivity|discriminate Hdemo]. }
  rewrite Hgithub, Hdemo'.
  assert (Harr : isArray (JS.lookup "tags" fields) = true).
  { destruct (JS.lookup "tags" fields); try discriminate Htags. reflexivity. }
  rewrite Harr. cbn [negb push_if].
  destruct (is_blank title), (is_blank description); reflexivity.
Qed.

Lemma push_if_nil c msg errors :
  push_if c msg errors = [] -> c = false /\ errors = [].
Proof.
  unfold push_if. destruct c; [|auto].
  intros H. apply app_eq_nil in H. destruct H as [_ H]. discriminate.
Qed.

Lemma length_eqb_nil {A} (l : list A) : Nat.eqb (List.length l) 0 = true -> l = [].
Proof. destruct l; [reflexivity|discriminate]. Qed.

Lemma blank_false fields key :
  blank (VObj fields) key = Ok false ->
  exists s, JS.lookup key fields = VStr s /\ is_blank s = false.
Proof.
  rewrite blank_object. destruct (JS.lookup key fields); try discriminate.
  intros [= H]. eauto.
Qed.

(** X15. An experience that [validateExperienceData] finds valid has a
    company, a position and a location that are strings with more than
    white space, and a start date that matches [YYYY-MM]; with an end date
    that is absent, null or a string, [calculateDuration] then gives the
    text of a whole number of months, never [NaN]. *)
Theorem valid_experience_has_duration fields verdict now :
  validateExperienceData w to_string (VObj fields) = Ok verdict ->
  valid verdict = true ->
  (forall key, In key ["company"; "position"; "location"] ->
     exists s, JS.lookup key fields = VStr s /\ is_blank s = false)
  /\ exists start,
       JS.lookup "startDate" fields = VStr start
       /\ Str.is_year_month start = true
       /\ (JS.lookup "endDate" fields = VUndef \/ JS.lookup "endDate" fields = VNull ->
           Dates.calculateDuration now start None
           = Dates.duration_text (Some (now - Dates.month_index start)%Z))
       /\ (forall end_, JS.lookup "endDate" fields = VStr end_ ->
           exists months,
             Dates.calculateDuration now start (Some end_)
             = Dates.duration_text (Some months)).
Proof.
  unfold validateExperienceData. cbn [JS.get_prop Res.bind].
  destruct (blank (VObj fields) "company") as [b1|] eqn:E1; cbn [Res.bind]; [|discriminate].
  destruct (blank (VObj fields) "position") as [b2|] eqn:E2; cbn [Res.bind]; [|discriminate].
  destruct (blank (VObj fields) "startDate") as [b3|] eqn:E3; cbn [Res.bind]; [|discriminate].
  destruct (blank (VObj fields) "location") as [b4|] eqn:E4; cbn [Res.bind]; [|discriminate].
  destruct (fails_date_test to_string _ (JS.lookup "startDate" fields)) as [bs|] eqn:Hstart;
    cbn [Res.bind]; [|discriminate].
  destruct (fails_date_test to_string _ (JS.lookup "endDate" fields)) as [be|] eqn:Hend;
    cbn [Res.bind]; [|discriminate].
  intros [= <-]. cbn [valid]. intros Hv. apply length_eqb_nil in Hv.
  apply push_if_nil in Hv. destruct Hv as [_ Hv].
  apply push_if_nil in Hv. destruct Hv as [_ Hv].
  apply push_if_nil in Hv. destruct Hv as [_ Hv].
  apply push_if_nil in Hv. destruct Hv as [-> Hv].
  apply push_if_nil in Hv. destruct Hv as [-> Hv].
  apply push_if_nil in Hv. destruct Hv as [-> Hv].
  apply push_if_nil in Hv. destruct Hv as [-> Hv].
  apply push_if_nil in Hv. destruct Hv as [-> Hv].
  apply push_if_nil in Hv. destruct Hv as [-> _].
  split.
  - intros key [<-|[<-|[<-|[]]]]; apply blank_false; assumption.
  - destruct (blank_false fields "startDate" E3) as [start [Es Hb]].
    exists start. split; [exact Es|].
    assert (Hym : Str.is_year_month start = true).
    { rewrite Es in Hstart. unfold fails_date_test, date_ok in Hstart.
      cbn [JS.truthy string_form Res.bind] in Hstart.
      destruct (String.eqb start "") eqn:Ee.
      - apply String.eqb_eq in Ee. subst start. discriminate Hb.
      - cbn [negb] in Hstart. injection Hstart as Hstart.
        now apply negb_false_iff in Hstart. }
    split; [exact Hym|]. split.
    + intros _. apply duration_to_now; auto.
    + intros end_ Ee. rewrite Ee in Hend. unfold fails_date_test, date_ok in Hend.
      cbn [JS.truthy not_present string_form Res.bind] in Hend.
      destruct (String.eqb end_ "") eqn:E0.
      { apply String.eqb_eq in E0. subst end_. eexists. apply duration_to_now; auto. }
      destruct (String.eqb end_ "present") eqn:Ep.
      { apply String.eqb_eq in Ep. subst end_. eexists. apply duration_to_now; auto. }
      cbn [negb andb] in Hend. injection Hend as Hend. apply negb_false_iff in Hend.
      eexists. apply duration_between; assumption.
Qed.

End DataFacts.

Section InitialFacts.
Import DataChecks.

Lemma initial_length word : String.length (initial word) <= 1.
Proof. destruct word; cbn; lia. Qed.

Lemma upper_char_idempotent c :
  Missing.upper_char (Missing.upper_char c) = Missing.upper_char c.
Proof.
  unfold Missing.upper_char at 2 3. cbv zeta.
  destruct (Nat.leb 97 (nat_of_ascii c) && Nat.leb (nat_of_ascii c) 122) eqn:E.
  - apply andb_true_iff in E. destruct E as [H1 H2].
    apply Nat.leb_le in H1, H2.
    unfold Missing.upper_char. cbv zeta.
    rewrite nat_ascii_embedding by lia.
    replace (Nat.leb 97 (nat_of_ascii c - 32)) with false; [reflexivity|].
    symmetry. apply Nat.leb_gt. lia.
  - unfold Missing.upper_char. cbv zeta. now rewrite E.
Qed.

Lemma initial_upper word : Missing.toUpperCase (initial word) = initial word.
Proof.
  destruct word as [|c rest]; [reflexivity|].
  unfold initial, Missing.toUpperCase. cbn [Missing.map_string].
  now rewrite upper_char_idempotent.
Qed.

Lemma length_append (a b : string) :
  String.length (a ++ b) = String.length a + String.length b.
Proof. induction a as [|c a IH]; cbn; [reflexivity|now rewrite IH]. Qed.

Lemma map_string_append f (a b : string) :
  Missing.map_string f (a ++ b) = (Missing.map_string f a ++ Missing.map_string f b)%string.
Proof. induction a as [|c a IH]; cbn; [reflexivity|now rewrite IH]. Qed.

(** X16. The initials of a company name written in ASCII are at most two
    characters, and [toUpperCase] leaves them as they are.  (Outside ASCII
    [toUpperCase] can lengthen a character, and the bound fails.) *)
Theorem company_initials_are_two_capitals companyName :
  Str.is_ascii companyName = true ->
  String.length (getCompanyInitials companyName) <= 2
  /\ Missing.toUpperCase (getCompanyInitials companyName) = getCompanyInitials companyName.
Proof.
  intros _. unfold getCompanyInitials.
  destruct (Str.split_on " " companyName) as [|w1 [|w2 rest]];
    cbn [map firstn String.concat].
  - split; [cbn; lia|reflexivity].
  - split; [pose proof (initial_length w1); lia|apply initial_upper].
  - change (initial w1 ++ "" ++ initial w2)%string with (initial w1 ++ initial w2)%string.
    split.
    + rewrite length_append.
      pose proof (initial_length w1). pose proof (initial_length w2). lia.
    + unfold Missing.toUpperCase. rewrite map_string_append.
      fold (Missing.toUpperCase (initial w1)). fold (Missing.toUpperCase (initial w2)).
      now rewrite !initial_upper.
Qed.

Lemma split_on_word a rest :
  no_space a = true ->
  Str.split_on " " (a ++ String " " rest) = a :: Str.split_on " " rest.
Proof.
  unfold no_space. induction a as [|c a IH]; cbn [String.append Str.split_on]; intros H.
  - reflexivity.
  - cbn [list_ascii_of_string forallb] in H. apply andb_true_iff in H. destruct H as [Hc Ha].
    apply negb_true_iff in Hc. rewrite Hc, (IH Ha). reflexivity.
Qed.

Lemma split_on_last a :
  no_space a = true -> Str.split_on " " a = [a].
Proof.
  unfold no_space. induction a as [|c a IH]; cbn [Str.split_on]; intros H.
  - reflexivity.
  - cbn [list_ascii_of_string forallb] in H. apply andb_true_iff in H. destruct H as [Hc Ha].
    apply negb_true_iff in Hc. rewrite Hc, (IH Ha). reflexivity.
Qed.

(** X17. The initials are taken of the first two pieces between spaces,
    empty pieces included: a name of one word gives one initial, two words
    give two, and after a double space the second initial is lost, whatever
    follows. *)
Theorem company_initials_by_pieces first second rest :
  no_space first = true -> no_space second = true ->
  getCompanyInitials first = initial first
  /\ getCompanyInitials (first ++ " " ++ second) = (initial first ++ initial second)%string
  /\ getCompanyInitials (first ++ " " ++ second ++ " " ++ rest)
     = (initial first ++ initial second)%string
  /\ getCompanyInitials (first ++ "  " ++ rest) = initial first.
Proof.
  intros H1 H2. unfold getCompanyInitials.
  assert (Hnil : forall s : string, (s ++ "")%string = s).
  { induction s as [|c s IH]; cbn; [reflexivity|now rewrite IH]. }
  split; [|split; [|split]].
  - rewrite (split_on_last first H1). cbn [map firstn String.concat]. reflexivity.
  - change (first ++ " " ++ second)%string with (first ++ String " " second)%string.
    rewrite (split_on_word first second H1), (split_on_last second H2).
    cbn [map firstn String.concat]. reflexivity.
  - change (first ++ " " ++ second ++ " " ++ rest)%string
      with (first ++ String " " (second ++ String " " rest))%string.
    rewrite (split_on_word first _ H1), (split_on_word second _ H2).
    cbn [map firstn String.concat]. reflexivity.
  - change (first ++ "  " ++ rest)%string
      with (first ++ String " " (EmptyString ++ String " " rest))%string.
    rewrite (split_on_word first _ H1), (split_on_word EmptyString rest eq_refl).
    cbn [map firstn String.concat initial String.append]. apply Hnil.
Qed.

End InitialFacts.

Lemma schema_valid_project_is_checked_witness :
  DataChecks.validateProjectData Linked.complete (fun _ => Ok "") Sample.project_data
  = Ok (DataChecks.mkVerdict true []).
Proof.
  destruct (schema_valid_project_is_checked Linked.complete (fun _ => Ok "")
              [ ("title", VStr "Bird sounds");
                ("description", VStr "Recognising birds by their song");
                ("image", VStr "/images/birds.png");
                ("tags", VArr [VStr "audio"]) ] eq_refl)
    as [title [description [Ht [Hd H]]]].
  injection Ht as <-. injection Hd as <-. exact H.
Defined.

Lemma valid_experience_has_duration_witness :
  Dates.calculateDuration 24322 "2023-05" None = "3 years, 6 months".
Proof.
  destruct (valid_experience_has_duration Linked.complete (fun _ => Ok "")
              [ ("company", VStr "IBM");
                ("position", VStr "Intern");
                ("startDate", VStr "2023-05");
                ("location", VStr "Pune");
                ("achievements", VArr [VStr "Shipped a classifier"]) ]
              (DataChecks.mkVerdict true []) 24322 eq_refl eq_refl)
    as [_ [start [Hs [_ [Hnow _]]]]].
  injection Hs as <-. rewrite Hnow; [reflexivity|left; reflexivity].
Defined.

Lemma company_initials_are_two_capitals_witness :
  DataChecks.getCompanyInitials "acme corp of Pune" = "AC"
  /\ String.length (DataChecks.getCompanyInitials "acme corp of Pune") <= 2.
Proof.
  split; [reflexivity|].
  exact (proj1 (company_initials_are_two_capitals "acme corp of Pune" eq_refl)).
Defined.

Lemma company_initials_by_pieces_witness :
  DataChecks.getCompanyInitials "Acme Corp" = "AC"
  /\ DataChecks.getCompanyInitials "Acme  Corp" = "A".
Proof.
  destruct (company_initials_by_pieces "Acme" "Corp" "Corp" eq_refl eq_refl)
    as [_ [H2 [_ H4]]].
  split; [exact H2|exact H4].
Defined.

(** ** The error collector *)

Section CollectorFacts.
Import Collector.

Lemma update_length {A} (f : A -> A) : forall (l : list A) i,
  List.length (update i f l) = List.length l.
Proof.
  induction l as [|x l IH]; intros [|i]; cbn [update List.length]; auto.
Qed.

Lemma nth_update_same {A} (f : A -> A) (d : A) : forall (l : list A) i,
  i < List.length l -> nth i (update i f l) d = f (nth i l d).
Proof.
  induction l as [|x l IH]; intros [|i]; cbn [update List.length nth]; intros H;
    try lia; [reflexivity|]. apply IH. lia.
Qed.

Lemma nth_update_other {A} (f : A -> A) (d : A) : forall (l : list A) i j,
  i <> j -> nth j (update i f l) d = nth j l d.
Proof.
  induction l as [|x l IH]; intros [|i] [|j]; cbn [update nth]; intros H;
    try reflexivity; try congruence. apply IH. congruence.
Qed.

Lemma step_well_formed c o : well_formed c -> well_formed (step c o).
Proof.
  unfold well_formed. intros [He [Hw Hne]].
  destruct o; cbn [step addError addWarning clear store errors_ref warnings_ref];
    rewrite ?update_length, ?length_app; cbn [List.length]; repeat split; lia.
Qed.

Lemma step_errors c o :
  well_formed c ->
  deref (step c o) (errors_ref (step c o))
  = match o with
    | AddError file message field =>
        deref c (errors_ref c) ++ [mkError file field message SevError]
    | AddWarning _ _ _ => deref c (errors_ref c)
    | Clear => []
    end.
Proof.
  unfold well_formed, deref. intros [He [Hw Hne]].
  destruct o; cbn [step addError addWarning clear store errors_ref warnings_ref].
  - now rewrite nth_update_same.
  - rewrite nth_update_other; [reflexivity|congruence].
  - rewrite app_nth2 by lia. now rewrite Nat.sub_diag.
Qed.

Lemma step_warnings c o :
  well_formed c ->
  deref (step c o) (warnings_ref (step c o))
  = match o with
    | AddWarning file message field =>
        deref c (warnings_ref c) ++ [mkError file field message SevWarning]
    | AddError _ _ _ => deref c (warnings_ref c)
    | Clear => []
    end.
Proof.
  unfold well_formed, deref. intros [He [Hw Hne]].
  destruct o; cbn [step addError addWarning clear store errors_ref warnings_ref].
  - rewrite nth_update_other; [reflexivity|congruence].
  - now rewrite nth_update_same.
  - rewrite app_nth2 by lia.
    replace (S (List.length (store c)) - List.length (store c)) with 1 by lia. reflexivity.
Qed.

Lemma run_from ops : forall c,
  well_formed c ->
  well_formed (fold_left step ops c)
  /\ deref (fold_left step ops c) (errors_ref (fold_left step ops c))
     = pending_errors ops (deref c (errors_ref c))
  /\ deref (fold_left step ops c) (warnings_ref (fold_left step ops c))
     = pending_warnings ops (deref c (warnings_ref c)).
Proof.
  induction ops as [|o ops IH]; intros c Hc; cbn [fold_left pending_errors pending_warnings].
  - auto.
  - destruct (IH (step c o) (step_well_formed c o Hc)) as [Hwf [He Hw]].
    split; [exact Hwf|].
    rewrite He, Hw, (step_errors c o Hc), (step_warnings c o Hc).
    destruct o; split; reflexivity.
Qed.

Lemma create_well_formed : well_formed create.
Proof. unfold well_formed, create. cbn. repeat split; lia. Qed.

Lemma pending_errors_severity ops : forall acc,
  Forall (fun e => err_severity e = SevError) acc ->
  Forall (fun e => err_severity e = SevError) (pending_errors ops acc).
Proof.
  induction ops as [|o ops IH]; intros acc Hacc; cbn [pending_errors]; [exact Hacc|].
  destruct o; apply IH; auto.
  apply Forall_app. split; [exact Hacc|]. constructor; [reflexivity|constructor].
Qed.

Lemma pending_warnings_severity ops : forall acc,
  Forall (fun e => err_severity e = SevWarning) acc ->
  Forall (fun e => err_severity e = SevWarning) (pending_warnings ops acc).
Proof.
  induction ops as [|o ops IH]; intros acc Hacc; cbn [pending_warnings]; [exact Hacc|].
  destruct o; apply IH; auto.
  apply Forall_app. split; [exact Hacc|]. constructor; [reflexivity|constructor].
Qed.

(** X18. After any sequence of [addError], [addWarning] and [clear] on a
    new collector, its two arrays hold what was added since the last
    [clear], in the order of the calls; every entry of the first has the
    severity [error] and every entry of the second [warning]; and
    [getResult().isValid] is true exactly when no error is pending, which
    is when [hasErrors()] is false. *)
Theorem collector_tracks_calls ops :
  let c := run ops in
  deref c (errors_ref c) = pending_errors ops []
  /\ deref c (warnings_ref c) = pending_warnings ops []
  /\ Forall (fun e => err_severity e = SevError) (deref c (errors_ref c))
  /\ Forall (fun e => err_severity e = SevWarning) (deref c (warnings_ref c))
  /\ (res_isValid (getResult c) = true <-> pending_errors ops [] = [])
  /\ hasErrors c = negb (res_isValid (getResult c))
  /\ (hasWarnings c = true <-> pending_warnings ops [] <> []).
Proof.
  cbv zeta. unfold run.
  destruct (run_from ops create create_well_formed) as [_ [He Hw]].
  change (deref create (errors_ref create)) with (@nil ValidationError) in He.
  change (deref create (warnings_ref create)) with (@nil ValidationError) in Hw.
  unfold getResult, hasErrors, hasWarnings. cbn [res_isValid].
  rewrite He, Hw.
  split; [reflexivity|]. split; [reflexivity|].
  split; [apply pending_errors_severity; constructor|].
  split; [apply pending_warnings_severity; constructor|].
  split; [|split].
  - destruct (pending_errors ops []); cbn; split; congruence.
  - destruct (pending_errors ops []); reflexivity.
  - destruct (pending_warnings ops []); cbn; split; congruence.
Qed.

(** X19. [getResult] hands out the arrays of the collector, not copies: an
    error added afterwards shows in the [errors] of a result taken before,
    whose [isValid] was computed before and stays as it was; after
    [clear], the collector has new arrays, and what is added then does not
    reach the results taken before. *)
Theorem collector_result_shares_arrays ops file message field :
  let c := run ops in
  let r := getResult c in
  let c' := addError file message field c in
  deref c' (res_errors r) = deref c (res_errors r) ++ [mkError file field message SevError]
  /\ deref c' (res_warnings r) = deref c (res_warnings r)
  /\ (res_isValid r = true -> res_isValid (getResult c') = false)
  /\ deref (clear c) (res_errors r) = deref c (res_errors r)
  /\ deref (addError file message field (clear c)) (res_errors r) = deref c (res_errors r)
  /\ deref (addWarning file message field (clear c)) (res_warnings r)
     = deref c (res_warnings r).
Proof.
  cbv zeta. unfold run.
  destruct (run_from ops create create_well_formed) as [Hwf _].
  set (c := fold_left step ops create) in *.
  destruct Hwf as [He [Hw Hne]].
  unfold getResult, deref.
  cbn [res_errors res_warnings res_isValid addError addWarning clear store errors_ref
         warnings_ref].
  split; [now rewrite nth_update_same|].
  split; [rewrite nth_update_other; [reflexivity|congruence]|].
  split.
  { intros _. rewrite nth_update_same by exact He. rewrite length_app. cbn [List.length].
    apply Nat.eqb_neq. lia. }
  split; [now rewrite app_nth1|].
  split.
  - rewrite nth_update_other by lia. now rewrite app_nth1.
  - rewrite nth_update_other by lia. now rewrite app_nth1.
Qed.

End CollectorFacts.

(** ** Theme and navigation *)

Section ThemeFacts.
Import Theme.

Lemma toggle_returns b after :
  toggleTheme b = (Ok tt, after) ->
  has_document b = true
  /\ (has_localStorage b = true -> setItem_error b = None)
  /\ after = mkBrowser (has_localStorage b) (setItem_error b)
               (if has_localStorage b
                then Some (if dark_class b then "light" else "dark")
                else stored b)
               true (negb (dark_class b)) (has_window b) (matchMedia b).
Proof.
  unfold toggleTheme, applyTheme, documentElement, contains_dark, setStoredTheme,
    toggle_dark, bind, ret, throw.
  destruct b as [ls err st doc dark win media]; cbn.
  destruct doc; [|discriminate]. cbn.
  destruct ls; cbn.
  - destruct err as [msg|]; [discriminate|]. cbn.
    destruct dark; cbn; intros [= <-]; auto.
  - destruct dark; cbn; intros [= <-]; split; auto; split; auto; discriminate.
Qed.

Lemma initialize_from_storage page after theme :
  has_localStorage page = true -> stored page = Some theme ->
  theme = "light" \/ theme = "dark" ->
  initializeTheme page = (Ok tt, after) ->
  dark_class after = String.eqb theme "dark".
Proof.
  intros Hl Hs Ht.
  unfold initializeTheme, getStoredTheme, applyTheme, documentElement, toggle_dark,
    bind, ret, throw.
  rewrite Hl, Hs. cbn [negb].
  destruct (has_document page); [|destruct Ht as [-> | ->]; discriminate].
  destruct Ht as [-> | ->]; cbn; intros [= <-]; reflexivity.
Qed.

Lemma initialize_without_storage page after :
  has_localStorage page = false ->
  initializeTheme page = (Ok tt, after) ->
  dark_class after
  = has_window page && match matchMedia page with Some matches => matches | None => false end.
Proof.
  intros Hl.
  unfold initializeTheme, getStoredTheme, applyTheme, documentElement, getSystemTheme,
    toggle_dark, bind, ret, throw.
  rewrite Hl. cbn.
  destruct (has_document page); [|discriminate]. cbn.
  destruct (has_window page); cbn; [|intros [= <-]; reflexivity].
  destruct (matchMedia page) as [[|]|]; cbn; try discriminate; intros [= <-]; reflexivity.
Qed.

(** X20. When [toggleTheme] returns, it has flipped the class [dark] of
    the page, and a second toggle that returns restores it.  With a
    [localStorage] the choice is stored, and [initializeTheme], when it
    returns on a later page with that storage, sets the class that the
    toggle chose; without one, nothing is stored, and [initializeTheme]
    follows the system theme.  When [localStorage.setItem] throws, so does
    [toggleTheme], and the class and the stored item stay as they were. *)
Theorem toggle_theme_round_trip b :
  (forall after,
      toggleTheme b = (Ok tt, after) ->
      dark_class after = negb (dark_class b)
      /\ (forall again, toggleTheme after = (Ok tt, again) ->
                        dark_class again = dark_class b)
      /\ (has_localStorage b = true ->
          stored after = Some (if dark_class b then "light" else "dark")
          /\ forall page opened,
               has_localStorage page = true ->
               stored page = stored after ->
               initializeTheme page = (Ok tt, opened) ->
               dark_class opened = dark_class after)
      /\ (has_localStorage b = false -> stored after = stored b))
  /\ (forall page opened,
         has_localStorage page = false ->
         initializeTheme page = (Ok tt, opened) ->
         dark_class opened
         = has_window page
           && match matchMedia page with Some matches => matches | None => false end)
  /\ (forall msg,
         has_document b = true -> has_localStorage b = true ->
         setItem_error b = Some msg ->
         toggleTheme b = (Throw msg, b)).
Proof.
  split; [|split].
  - intros after H. destruct (toggle_returns b after H) as [Hd [He Ha]].
    assert (Hc : dark_class after = negb (dark_class b)) by (rewrite Ha; reflexivity).
    split; [exact Hc|]. split; [|split].
    + intros again H2. destruct (toggle_returns after again H2) as [_ [_ ->]].
      cbn [dark_class]. rewrite Hc. apply negb_involutive.
    + intros Hl.
      assert (Hs : stored after = Some (if dark_class b then "light" else "dark")).
      { rewrite Ha. cbn [stored]. rewrite Hl. reflexivity. }
      split; [exact Hs|]. intros page opened Hp Hst Hi. rewrite Hs in Hst.
      rewrite (initialize_from_storage page opened _ Hp Hst); [|destruct (dark_class b); auto|exact Hi].
      rewrite Hc. destruct (dark_class b); reflexivity.
    + intros Hl. rewrite Ha. cbn [stored]. rewrite Hl. reflexivity.
  - apply initialize_without_storage.
  - intros msg Hd Hl He.
    unfold toggleTheme, documentElement, contains_dark, setStoredTheme, bind, ret, throw.
    rewrite Hd, Hl, He. reflexivity.
Qed.

End ThemeFacts.

Lemma toggle_theme_round_trip_witness :
  fst (Theme.toggleTheme (Theme.page false)) = Ok tt
  /\ Theme.dark_class (snd (Theme.toggleTheme (Theme.page false))) = true
  /\ Theme.stored (snd (Theme.toggleTheme (Theme.page false))) = Some "dark"
  /\ Theme.toggleTheme (Theme.full false) = (Throw "QuotaExceededError", Theme.full false).
Proof.
  destruct (toggle_theme_round_trip (Theme.page false)) as [Hr _].
  destruct (Hr (snd (Theme.toggleTheme (Theme.page false))) eq_refl) as [Hc [_ [Hs _]]].
  destruct (toggle_theme_round_trip (Theme.full false)) as [_ [_ Hf]].
  split; [reflexivity|]. split; [exact Hc|]. split; [exact (proj1 (Hs eq_refl))|].
  exact (Hf "QuotaExceededError" eq_refl eq_refl eq_refl).
Defined.

Section NavigationFacts.
Import Navigation.
Local Open Scope Z_scope.

Lemma scan_some p pos ids : forall id,
  scan p pos ids = Some id ->
  exists before after,
    ids = before ++ id :: after
    /\ reached p pos id = true
    /\ forall x, In x before -> reached p pos x = false.
Proof.
  induction ids as [|x ids IH]; intros id; cbn [scan]; [discriminate|].
  destruct (reached p pos x) eqn:E.
  - intros [= <-]. exists [], ids. split; [reflexivity|]. split; [exact E|]. intros y [].
  - intros H. destruct (IH id H) as [before [after [-> [Hr Hb]]]].
    exists (x :: before), after. split; [reflexivity|]. split; [exact Hr|].
    intros y [<-|Hy]; auto.
Qed.

Lemma scan_none p pos ids :
  scan p pos ids = None -> forall x, In x ids -> reached p pos x = false.
Proof.
  induction ids as [|x ids IH]; cbn [scan]; [intros _ y []|].
  destruct (reached p pos x) eqn:E; [discriminate|].
  intros H y [<-|Hy]; auto.
Qed.

(** X21. [getCurrentSection] always answers one of the six section ids:
    the last section, in the order of the page, whose top is at or above
    the scroll position plus 100; and [hero] when no section is, in
    particular when the page has none of the six elements. *)
Theorem current_section_is_last_reached p :
  let pos := scrollY p + 100 in
  In (getCurrentSection p) sections
  /\ (exists below above,
        sections = below ++ getCurrentSection p :: above
        /\ forall id, In id above -> reached p pos id = false)
  /\ (reached p pos (getCurrentSection p) = true
      \/ (getCurrentSection p = "hero"
          /\ forall id, In id sections -> reached p pos id = false))
  /\ ((forall id, In id sections -> offsetTop p id = None) -> getCurrentSection p = "hero").
Proof.
  cbv zeta. unfold getCurrentSection.
  destruct (scan p (scrollY p + 100) (rev sections)) as [id|] eqn:E.
  - destruct (scan_some p _ _ id E) as [before [after [Hrev [Hr Hb]]]].
    assert (Hs : sections = rev after ++ id :: rev before).
    { rewrite <- (rev_involutive sections), Hrev, rev_app_distr. cbn [rev].
      now rewrite <- app_assoc. }
    split; [rewrite Hs; apply in_or_app; right; now left|].
    split; [exists (rev after), (rev before); split; [exact Hs|];
            intros x Hx; apply Hb; now apply in_rev|].
    split; [now left|].
    intros Hnone. unfold reached in Hr. rewrite Hnone in Hr; [discriminate|].
    rewrite Hs. apply in_or_app. right. now left.
  - pose proof (scan_none p _ _ E) as Hn.
    split; [now left|].
    split; [exists [], (tl sections); split; [reflexivity|];
            intros x Hx; apply Hn; apply -> in_rev; now right|].
    split; [|reflexivity].
    right. split; [reflexivity|]. intros x Hx. apply Hn. now apply -> in_rev.
Qed.

End NavigationFacts.

(** ** Files that begin with a dot *)

Section HiddenFiles.
Import Missing.

Lemma required_step_found w file r x :
  In x (found r) -> In x (found (required_step w file r)).
Proof.
  unfold required_step. destruct file as [filePath name].
  destruct (existsSync w _); cbn [add_found add_missing found]; [|auto].
  intros H. apply in_or_app. now left.
Qed.

Lemma collection_step_found w c r r' x :
  collection_step w c r = Ok r' -> In x (found r) -> In x (found r').
Proof.
  unfold collection_step.
  destruct (existsSync w _).
  - destruct (readdirSync w _) as [entries|msg]; cbn [Res.bind]; [|discriminate].
    destruct (Nat.eqb _ 0); intros [= <-]; cbn [add_found add_missing found]; auto.
    intros H. apply in_or_app. now left.
  - intros [= <-]. cbn [add_missing found]. auto.
Qed.

Lemma collections_loop_found w cs x : forall r r',
  collections_loop w cs r = Ok r' -> In x (found r) -> In x (found r').
Proof.
  induction cs as [|c cs IH]; intros r r'; cbn [collections_loop].
  - intros [= <-]. auto.
  - destruct (collection_step w c r) as [r1|msg] eqn:E; cbn [Res.bind]; [|discriminate].
    intros Hl Hx. apply (IH r1 r' Hl). exact (collection_step_found w c r r1 x E Hx).
Qed.

Lemma collections_loop_counts w cs c entries : forall r r',
  In c cs ->
  existsSync w (path_join w [cwd w; "src/content"; c]) = true ->
  readdirSync w (path_join w [cwd w; "src/content"; c]) = Ok entries ->
  filter (fun file => JS.endsWith file ".md") entries <> [] ->
  collections_loop w cs r = Ok r' ->
  In (c ++ " ("
        ++ JS.nat_to_string (List.length (filter (fun file => JS.endsWith file ".md") entries))
        ++ " files)")%string
     (found r').
Proof.
  induction cs as [|c' cs IH]; intros r r' Hin Hex Hdir Hne; [destruct Hin|].
  cbn [collections_loop].
  destruct (collection_step w c' r) as [r1|msg] eqn:E; cbn [Res.bind]; [|discriminate].
  intros Hl. destruct Hin as [->|Hin]; [|exact (IH r1 r' Hin Hex Hdir Hne Hl)].
  apply (collections_loop_found w cs _ r1 r' Hl).
  revert E. unfold collection_step. rewrite Hex, Hdir. cbn [Res.bind].
  destruct (filter _ entries) as [|f fs]; [contradiction|].
  cbn [List.length Nat.eqb]. intros [= <-]. cbn [add_found found].
  apply in_or_app. right. now left.
Qed.

(** X22. The two modules do not count the same files.  When the [.md]
    entries of a collection directory all begin with a dot (and there is
    one), [checkMissingContent] reports the collection as found, with these
    files counted, while [validateCollection] validates none of them and
    warns that the collection has no content files. *)
Theorem hidden_files_are_counted_not_validated w collection schema entries r :
  In collection collections ->
  existsSync w (path_join w [cwd w; "src/content"; collection]) = true ->
  readdirSync w (path_join w [cwd w; "src/content"; collection]) = Ok entries ->
  (forall file, In file entries -> JS.endsWith file ".md" = true ->
                JS.startsWith file "." = true) ->
  filter (fun file => JS.endsWith file ".md") entries <> [] ->
  checkMissingContent w = Ok r ->
  In (collection ++ " ("
        ++ JS.nat_to_string (List.length (filter (fun file => JS.endsWith file ".md") entries))
        ++ " files)")%string
     (found r)
  /\ Validation.validateCollection w collection schema
     = Ok (mkResult true []
             [mkWarning (path_join w [cwd w; "src/content"; collection]) None
                ("No content files found in " ++ collection ++ " collection")%string]).
Proof.
  intros Hin Hex Hdir Hdot Hne Hr. split.
  - exact (collections_loop_counts w collections collection entries _ r Hin Hex Hdir Hne Hr).
  - rewrite (collection_listed w collection schema entries Hex Hdir).
    unfold Closed.listing_result.
    replace (filter Validation.is_content_file entries) with (@nil string); [reflexivity|].
    symmetry. clear Hne Hdir. induction entries as [|file entries IH]; [reflexivity|].
    cbn [filter]. unfold Validation.is_content_file at 1.
    destruct (JS.endsWith file ".md") eqn:E; cbn [andb negb].
    + rewrite (Hdot file (or_introl eq_refl) E). cbn [negb].
      apply IH. intros f Hf. apply Hdot. now right.
    + apply IH. intros f Hf. apply Hdot. now right.
Qed.

End HiddenFiles.

Lemma hidden_files_are_counted_not_validated_witness :
  exists r,
    Missing.checkMissingContent Sample.site = Ok r
    /\ In "publications (1 files)" (Missing.found r)
    /\ Validation.validateCollection Sample.site "publications"
         (Schemas.publicationSchema 2026)
       = Ok (mkResult true []
               [mkWarning "/site/src/content/publications" None
                  "No content files found in publications collection"]).
Proof.
  destruct (Missing.checkMissingContent Sample.site) as [r|msg] eqn:E;
    [|vm_compute in E; discriminate].
  exists r. split; [reflexivity|].
  destruct (hidden_files_are_counted_not_validated Sample.site "publications"
              (Schemas.publicationSchema 2026) [".hidden.md"; "README"] r) as [H1 H2].
  - right; left; reflexivity.
  - reflexivity.
  - reflexivity.
  - intros file [<-|[<-|[]]]; [reflexivity|discriminate].
  - discriminate.
  - exact E.
  - split; [exact H1|exact H2].
Defined.

(** ** The validation schemas and the schemas of the content collections *)

Section RelaxFacts.
Import Zod Relax.
Variable em ur : string -> bool.

Lemma flat_map_nil {A B} (f : A -> list B) (l : list A) :
  flat_map f l = [] <-> forall x, In x l -> f x = [].
Proof.
  induction l as [|a l IH]; cbn [flat_map].
  - split; [intros _ x []|reflexivity].
  - split.
    + intros H. apply app_eq_nil in H. destruct H as [Ha Hl].
      intros x [<-|Hx]; [exact Ha|]. now apply IH.
    + intros H. rewrite (H a (or_introl eq_refl)). cbn [app].
      apply IH. intros x Hx. apply H. now right.
Qed.

Lemma string_check_relax strict c path path' s :
  string_check_implied strict c = true ->
  flat_map (string_check_issue em ur path s) strict = [] ->
  string_check_issue em ur path' s c = [].
Proof.
  intros Himp Hnil. rewrite flat_map_nil in Hnil.
  destruct c as [n msg|msg|msg]; cbn [string_check_implied] in Himp;
    apply existsb_exists in Himp; destruct Himp as [c' [Hin Hc']];
    specialize (Hnil c' Hin); destruct c' as [m msg'|msg'|msg']; try discriminate;
    cbn [string_check_issue] in *.
  - destruct (Nat.ltb (String.length s) m) eqn:E; [discriminate|].
    apply Nat.ltb_ge in E. apply Nat.leb_le in Hc'.
    replace (Nat.ltb (String.length s) n) with false; [reflexivity|].
    symmetry. apply Nat.ltb_ge. lia.
  - destruct (em s); [reflexivity|discriminate].
  - destruct (ur s); [reflexivity|discriminate].
Qed.

Lemma number_check_relax strict c path path' x :
  number_check_implied strict c = true ->
  flat_map (number_check_issue path x) strict = [] ->
  number_check_issue path' x c = [].
Proof.
  intros Himp Hnil. rewrite flat_map_nil in Hnil.
  destruct c as [n msg|n msg]; cbn [number_check_implied] in Himp;
    apply existsb_exists in Himp; destruct Himp as [c' [Hin Hc']];
    specialize (Hnil c' Hin); destruct c' as [m msg'|m msg']; try discriminate;
    cbn [number_check_issue] in *.
  - destruct (Z.ltb x m) eqn:E; [discriminate|].
    apply Z.ltb_ge in E. apply Z.leb_le in Hc'.
    replace (Z.ltb x n) with false; [reflexivity|].
    symmetry. apply Z.ltb_ge. lia.
  - destruct (Z.ltb m x) eqn:E; [discriminate|].
    apply Z.ltb_ge in E. apply Z.leb_le in Hc'.
    replace (Z.ltb n x) with false; [reflexivity|].
    symmetry. apply Z.ltb_ge. lia.
Qed.

Lemma same_default_eq a b : same_default a b = true -> a = b.
Proof.
  destruct a, b; cbn [same_default]; try discriminate; intros H; f_equal.
  - now apply Bool.eqb_prop.
  - now apply Z.eqb_eq.
  - now apply String.eqb_eq.
Qed.

Lemma lookup_schema_in k shape s :
  lookup_schema k shape = Some s -> In (k, s) shape.
Proof.
  induction shape as [|[k' s'] shape IH]; cbn [lookup_schema]; [discriminate|].
  destruct (String.eqb k k') eqn:E.
  - apply String.eqb_eq in E. subst k'. intros [= <-]. now left.
  - intros H. right. now apply IH.
Qed.

(** The issues of an object are those of the entries of its shape. *)
Lemma object_issues shape path fields :
  issues em ur (SObject shape) path (VObj fields)
  = flat_map (fun entry =>
                issues em ur (snd entry) (path ++ [Key (fst entry)])
                  (JS.lookup (fst entry) fields)) shape.
Proof.
  cbn [issues]. induction shape as [|[k sk] shape IH]; [reflexivity|].
  cbn [flat_map fst snd]. now rewrite IH.
Qed.

(** The issues of an array, besides its length: none when no item has one. *)
Lemma array_issues_nil_iff elem min path items :
  issues em ur (SArray elem min) path (VArr items) = [] ->
  match min with
  | Some (n, _) => Nat.ltb (List.length items) n = false
  | None => True
  end
  /\ forall x, In x items -> exists p, issues em ur elem p x = [].
Proof.
  cbn [issues]. intros H. apply app_eq_nil in H. destruct H as [Hmin Heach]. split.
  - destruct min as [[n msg]|]; [|exact I].
    destruct (Nat.ltb (List.length items) n); [discriminate|reflexivity].
  - clear Hmin. revert Heach. generalize 0. induction items as [|y items IH]; intros i H x Hx;
      [destruct Hx|].
    apply app_eq_nil in H. destruct H as [Hy Hrest].
    destruct Hx as [<-|Hx]; [eauto|]. exact (IH (S i) Hrest x Hx).
Qed.

Lemma array_issues_nil_of elem min path items :
  match min with
  | Some (n, _) => Nat.ltb (List.length items) n = false
  | None => True
  end ->
  (forall x, In x items -> forall p, issues em ur elem p x = []) ->
  issues em ur (SArray elem min) path (VArr items) = [].
Proof.
  intros Hmin Hall. cbn [issues].
  replace (match min with
           | Some (n, msg) =>
               if Nat.ltb (List.length items) n then [mkIssue path msg] else []
           | None => []
           end) with (@nil issue)
    by (destruct min as [[n msg]|]; [now rewrite Hmin|reflexivity]).
  cbn [app]. clear Hmin. generalize 0.
  induction items as [|y items IH]; intros i; [reflexivity|].
  rewrite (Hall y (or_introl eq_refl)). cbn [app].
  apply IH. intros x Hx. apply Hall. now right.
Qed.

(** What a schema accepts, a schema that it relaxes to accepts. *)
Lemma relaxes_sound loose : forall strict,
  relaxes strict loose = true ->
  forall v path path',
    issues em ur strict path v = [] -> issues em ur loose path' v = [].
Proof.
  induction loose as [checks'|checks'| |options' msg'|elem' min' IH|shape' IH|inner' IH
                     |inner' dflt' IH] using schema_nested_ind;
    intros strict Hrel v path path' Hnil.
  - destruct strict as [checks| | | | | | |]; try discriminate Hrel.
    cbn [relaxes] in Hrel. cbn [issues] in *.
    destruct v; try discriminate Hnil.
    apply flat_map_nil. intros c Hc.
    rewrite forallb_forall in Hrel.
    exact (string_check_relax checks c path path' s (Hrel c Hc) Hnil).
  - destruct strict as [|checks| | | | | |]; try discriminate Hrel.
    cbn [relaxes] in Hrel. cbn [issues] in *.
    destruct v; try discriminate Hnil.
    apply flat_map_nil. intros c Hc.
    rewrite forallb_forall in Hrel.
    exact (number_check_relax checks c path path' n (Hrel c Hc) Hnil).
  - destruct strict; try discriminate Hrel.
    cbn [issues] in *. destruct v; try discriminate Hnil. reflexivity.
  - destruct strict as [| | |options msg| | | |]; try discriminate Hrel.
    cbn [relaxes] in Hrel. cbn [issues] in *.
    destruct v; try discriminate Hnil.
    destruct (existsb (String.eqb s) options) eqn:E; [|discriminate Hnil].
    apply existsb_exists in E. destruct E as [o [Ho Heq]].
    apply String.eqb_eq in Heq. subst o.
    rewrite forallb_forall in Hrel. now rewrite (Hrel s Ho).
  - destruct strict as [| | | |elem min| | |]; try discriminate Hrel.
    cbn [relaxes] in Hrel. apply andb_true_iff in Hrel. destruct Hrel as [Hel Hmin].
    destruct v as [| | | | |items| |]; try discriminate Hnil.
    destruct (array_issues_nil_iff elem min path items Hnil) as [Hlen Hall].
    apply array_issues_nil_of.
    + destruct min' as [[n' m']|]; [|exact I].
      destruct min as [[n m]|].
      * apply Nat.leb_le in Hmin. apply Nat.ltb_ge in Hlen. apply Nat.ltb_ge. lia.
      * apply Nat.eqb_eq in Hmin. subst n'. reflexivity.
    + intros x Hx p. destruct (Hall x Hx) as [q Hq]. exact (IH elem Hel x q p Hq).
  - destruct strict as [| | | | |shape| |]; try discriminate Hrel.
    cbn [relaxes] in Hrel.
    destruct v as [| | | | | |fields|]; try discriminate Hnil.
    rewrite object_issues in *. rewrite flat_map_nil in Hnil.
    apply flat_map_nil. intros [k s'] Hin. cbn [fst snd].
    rewrite forallb_forall in Hrel. specialize (Hrel (k, s') Hin). cbn [fst snd] in Hrel.
    destruct (lookup_schema k shape) as [s|] eqn:El; [|discriminate Hrel].
    apply lookup_schema_in in El.
    rewrite Forall_forall in IH.
    exact (IH (k, s') Hin s Hrel _ _ _ (Hnil (k, s) El)).
  - destruct strict as [| | | | | |inner|]; try discriminate Hrel.
    cbn [relaxes] in Hrel. cbn [issues] in *.
    destruct v; try reflexivity; exact (IH inner Hrel _ _ _ Hnil).
  - destruct strict as [| | | | | | |inner dflt]; try discriminate Hrel.
    cbn [relaxes] in Hrel. apply andb_true_iff in Hrel. destruct Hrel as [Hin Hd].
    apply same_default_eq in Hd. subst dflt'. cbn [issues] in *.
    destruct v; exact (IH inner Hin _ _ _ Hnil).
Qed.

Lemma object_issues_split keys shape path fields :
  issues em ur (SObject shape) path (VObj fields) = [] <->
  issues em ur (SObject (without keys shape)) path (VObj fields) = []
  /\ issues em ur (SObject (only keys shape)) path (VObj fields) = [].
Proof.
  rewrite !object_issues, !flat_map_nil. unfold without, only. split.
  - intros H. split; intros x Hx; apply filter_In in Hx; apply H; tauto.
  - intros [H1 H2] x Hx.
    destruct (existsb (String.eqb (fst x)) keys) eqn:E.
    + apply H2. apply filter_In. now split.
    + apply H1. apply filter_In. split; [exact Hx|]. now rewrite E.
Qed.

End RelaxFacts.

Section ConfigFacts.
Import Zod.
Variable w : World.

(** X23. A front-matter that the validation module accepts as a profile,
    as skills, as a publication or as an experience entry is accepted by
    the schema of that content collection of the site: these schemas ask
    for the same keys with the same types, without the checks of length. *)
Theorem validated_content_fits_the_collections frontmatter :
  (safeParse (is_email w) (is_url w) Schemas.profileSchema frontmatter = [] ->
   safeParse (is_email w) (is_url w) Config.profileSchema frontmatter = [])
  /\ (safeParse (is_email w) (is_url w) Schemas.skillsSchema frontmatter = [] ->
      safeParse (is_email w) (is_url w) Config.skillsSchema frontmatter = [])
  /\ (safeParse (is_email w) (is_url w) (Schemas.publicationSchema (current_year w))
        frontmatter = [] ->
      safeParse (is_email w) (is_url w) Config.publicationSchema frontmatter = [])
  /\ (safeParse (is_email w) (is_url w) Schemas.experienceSchema frontmatter = [] ->
      safeParse (is_email w) (is_url w) Config.experienceSchema frontmatter = []).
Proof.
  unfold safeParse.
  split; [|split; [|split]]; apply relaxes_sound; reflexivity.
Qed.

Lemma extras_decide strict loose keys fields :
  Relax.relaxes strict (SObject (Relax.without keys (Relax.shape_of loose))) = true ->
  loose = SObject (Relax.shape_of loose) ->
  issues (is_email w) (is_url w) strict [] (VObj fields) = [] ->
  issues (is_email w) (is_url w) loose [] (VObj fields) = []
  <-> issues (is_email w) (is_url w) (SObject (Relax.only keys (Relax.shape_of loose))) []
        (VObj fields) = [].
Proof.
  intros Hrel Hshape Hstrict. rewrite Hshape at 1.
  rewrite (object_issues_split (is_email w) (is_url w) keys).
  pose proof (relaxes_sound (is_email w) (is_url w) _ strict Hrel (VObj fields) [] []
                Hstrict) as Hcommon.
  tauto.
Qed.

(** X24. The project and the education schemas of the site have keys that
    the validation module does not look at.  A front-matter that the
    validation module accepts as a project or as an education entry is
    accepted by the collection exactly when these keys alone are
    acceptable: it is when they are absent, and it is not when [teamSize]
    is a string or [advisors] is one. *)
Theorem validated_content_may_miss_the_collections fields :
  (safeParse (is_email w) (is_url w) Schemas.projectSchema (VObj fields) = [] ->
   (safeParse (is_email w) (is_url w) Config.projectSchema (VObj fields) = []
    <-> safeParse (is_email w) (is_url w) Relax.project_extra_schema (VObj fields) = [])
   /\ ((forall key, In key Relax.project_extras -> JS.lookup key fields = VUndef) ->
       safeParse (is_email w) (is_url w) Config.projectSchema (VObj fields) = [])
   /\ (forall s, JS.lookup "teamSize" fields = VStr s ->
       safeParse (is_email w) (is_url w) Config.projectSchema (VObj fields) <> []))
  /\ (safeParse (is_email w) (is_url w) Schemas.educationSchema (VObj fields) = [] ->
      (safeParse (is_email w) (is_url w) Config.educationSchema (VObj fields) = []
       <-> safeParse (is_email w) (is_url w) Relax.education_extra_schema (VObj fields) = [])
      /\ (JS.lookup "advisors" fields = VUndef ->
          safeParse (is_email w) (is_url w) Config.educationSchema (VObj fields) = [])
      /\ (forall s, JS.lookup "advisors" fields = VStr s ->
          safeParse (is_email w) (is_url w) Config.educationSchema (VObj fields) <> [])).
Proof.
  unfold safeParse. split; intros Hstrict.
  - pose proof (extras_decide Schemas.projectSchema Config.projectSchema
                  Relax.project_extras fields eq_refl eq_refl Hstrict) as Hiff.
    fold Relax.project_extra_schema in Hiff.
    split; [exact Hiff|]. split.
    + intros Habsent. apply Hiff. unfold Relax.project_extra_schema.
      rewrite object_issues. cbn [Relax.only Relax.shape_of Config.projectSchema filter
        Relax.project_extras existsb String.eqb Ascii.eqb Bool.eqb fst snd orb flat_map].
      rewrite !Habsent by (cbn; tauto). reflexivity.
    + intros s Hs Hnil. apply Hiff in Hnil. revert Hnil.
      unfold Relax.project_extra_schema.
      rewrite object_issues, flat_map_nil. intros Hall.
      specialize (Hall ("teamSize", SOptional (SNumber []))).
      cbn [fst snd] in Hall. rewrite Hs in Hall.
      assert (Hin : In ("teamSize", SOptional (SNumber []))
                      (Relax.only Relax.project_extras (Relax.shape_of Config.projectSchema)))
        by (vm_compute; tauto).
      specialize (Hall Hin). discriminate Hall.
  - pose proof (extras_decide Schemas.educationSchema Config.educationSchema
                  Relax.education_extras fields eq_refl eq_refl Hstrict) as Hiff.
    fold Relax.education_extra_schema in Hiff.
    split; [exact Hiff|]. split.
    + intros Habsent. apply Hiff. unfold Relax.education_extra_schema.
      rewrite object_issues. cbn [Relax.only Relax.shape_of Config.educationSchema filter
        Relax.education_extras existsb String.eqb Ascii.eqb Bool.eqb fst snd orb flat_map].
      rewrite Habsent. reflexivity.
    + intros s Hs Hnil. apply Hiff in Hnil. revert Hnil.
      unfold Relax.education_extra_schema.
      rewrite object_issues, flat_map_nil. intros Hall.
      assert (Hin : exists e, In ("advisors", SOptional e)
                      (Relax.only Relax.education_extras
                         (Relax.shape_of Config.educationSchema))
                    /\ exists elem min, e = SArray elem min).
      { eexists. split; [vm_compute; left; reflexivity|]. eauto. }
      destruct Hin as [e [Hin [elem [min ->]]]].
      specialize (Hall _ Hin). cbn [fst snd] in Hall. rewrite Hs in Hall.
      discriminate Hall.
Qed.

End ConfigFacts.

Lemma validated_content_fits_the_collections_witness :
  Zod.safeParse Sample.contains_at (String.prefix "http") Schemas.profileSchema
    Sample.profile_data = []
  /\ Zod.safeParse Sample.contains_at (String.prefix "http") Config.profileSchema
       Sample.profile_data = [].
Proof.
  split; [reflexivity|].
  exact (proj1 (validated_content_fits_the_collections Sample.tidy Sample.profile_data)
           eq_refl).
Defined.

Lemma validated_content_may_miss_the_collections_witness :
  Zod.safeParse Sample.contains_at (String.prefix "http") Schemas.projectSchema
    (VObj [ ("title", VStr "Bird sounds");
            ("description", VStr "Recognising birds by their song");
            ("image", VStr "/images/birds.png");
            ("tags", VArr [VStr "audio"]);
            ("teamSize", VStr "three") ]) = []
  /\ Zod.safeParse Sample.contains_at (String.prefix "http") Config.projectSchema
       (VObj [ ("title", VStr "Bird sounds");
               ("description", VStr "Recognising birds by their song");
               ("image", VStr "/images/birds.png");
               ("tags", VArr [VStr "audio"]);
               ("teamSize", VStr "three") ]) <> [].
Proof.
  split; [reflexivity|].
  destruct (validated_content_may_miss_the_collections Sample.tidy
              [ ("title", VStr "Bird sounds");
                ("description", VStr "Recognising birds by their song");
                ("image", VStr "/images/birds.png");
                ("tags", VArr [VStr "audio"]);
                ("teamSize", VStr "three") ]) as [Hp _].
  destruct (Hp eq_refl) as [_ [_ Hteam]].
  exact (Hteam "three" eq_refl).
Defined.

(** ** Project statistics *)

Section StatsFacts.
Import Stats.
Variable sort : list value -> list value.
Hypothesis sort_permutes : forall items, Permutation (sort items) items.

Lemma lookup_set_key_other k k' v fields :
  k <> k' -> JS.lookup k (set_key k' v fields) = JS.lookup k fields.
Proof.
  intros Hne. induction fields as [|[k0 v0] fields IH]; cbn [set_key JS.lookup].
  - destruct (String.eqb_spec k k'); [contradiction|reflexivity].
  - destruct (String.eqb_spec k' k0) as [->|Hk0]; cbn [JS.lookup].
    + destruct (String.eqb_spec k k0); [contradiction|reflexivity].
    + destruct (String.eqb k k0); [reflexivity|exact IH].
Qed.

(** The entry of a project keeps the keys of its front-matter, but for
    [slug] and [_file]. *)
Lemma project_entry_keeps fields file key :
  key <> "slug" -> key <> "_file" ->
  JS.get_prop (project_entry (VObj fields) file) key = Ok (JS.lookup key fields).
Proof.
  intros H1 H2. unfold project_entry. cbn [JS.get_prop].
  now rewrite !lookup_set_key_other.
Qed.

Lemma featured_step_featured w projectsDir projects file :
  Forall (fun p => is_featured p = true) projects ->
  Forall (fun p => is_featured p = true) (featured_step w projectsDir projects file).
Proof.
  intros H. unfold featured_step.
  destruct (readFileSync w _) as [text|msg]; cbn [Res.bind]; [|exact H].
  destruct (matter w text) as [[data content]|msg]; cbn [Res.bind]; [|exact H].
  destruct (JS.get_prop data "featured") as [v|msg] eqn:E; cbn [Res.bind]; [|exact H].
  destruct (JS.truthy v) eqn:Et; [|exact H].
  apply Forall_app. split; [exact H|]. constructor; [|constructor].
  destruct data as [| | | |s|items|fields|ms]; cbn [JS.get_prop] in E; try discriminate E;
    injection E as <-; cbn [JS.truthy String.eqb] in Et; try discriminate Et.
  unfold is_featured.
  rewrite (project_entry_keeps fields file "featured") by discriminate. exact Et.
Qed.

Lemma featured_step_length w projectsDir projects file :
  List.length (featured_step w projectsDir projects file) <= S (List.length projects).
Proof.
  unfold featured_step.
  destruct (readFileSync w _) as [text|msg]; cbn [Res.bind]; [|lia].
  destruct (matter w text) as [[data content]|msg]; cbn [Res.bind]; [|lia].
  destruct (JS.get_prop data "featured") as [v|msg]; cbn [Res.bind]; [|lia].
  destruct (JS.truthy v); [|lia]. rewrite length_app. cbn [List.length]. lia.
Qed.

Lemma featured_fold w projectsDir files : forall projects,
  Forall (fun p => is_featured p = true) projects ->
  Forall (fun p => is_featured p = true) (fold_left (featured_step w projectsDir) files projects)
  /\ List.length (fold_left (featured_step w projectsDir) files projects)
     <= List.length projects + List.length files.
Proof.
  induction files as [|file files IH]; intros projects H; cbn [fold_left List.length].
  - split; [exact H|lia].
  - destruct (IH _ (featured_step_featured w projectsDir projects file H)) as [H1 H2].
    split; [exact H1|].
    pose proof (featured_step_length w projectsDir projects file). lia.
Qed.

Lemma filter_length_permutation {A} (f : A -> bool) (l l' : list A) :
  Permutation l l' -> List.length (filter f l) = List.length (filter f l').
Proof.
  induction 1 as [|x l l' _ IH|x y l|l l' l'' _ IH1 _ IH2]; cbn [filter].
  - reflexivity.
  - destruct (f x); cbn [List.length]; now rewrite IH.
  - destruct (f x), (f y); reflexivity.
  - now rewrite IH1.
Qed.

Lemma filter_all {A} (f : A -> bool) (l : list A) :
  Forall (fun x => f x = true) l -> filter f l = l.
Proof.
  induction 1 as [|x l Hx _ IH]; cbn [filter]; [reflexivity|]. now rewrite Hx, IH.
Qed.

(** X25. In the statistics of [getProjectStats], [total] is the number
    of featured projects, not of projects: it always equals [featured].  It
    is at most the number of [.md] entries of the projects directory, and
    [withGithub] and [withDemo] are at most [total]. *)
Theorem project_stats_count_featured_only w stats :
  getProjectStats sort w = Ok stats ->
  total stats = featured stats
  /\ withGithub stats <= total stats
  /\ withDemo stats <= total stats
  /\ (existsSync w (path_join w [cwd w; "src/content/projects"]) = false -> total stats = 0)
  /\ (forall entries,
        readdirSync w (path_join w [cwd w; "src/content/projects"]) = Ok entries ->
        total stats <= List.length (filter (fun file => JS.endsWith file ".md") entries)).
Proof.
  unfold getProjectStats, getFeaturedProjects.
  destruct (existsSync w _) eqn:Hex; cbn [negb Res.bind].
  - destruct (readdirSync w _) as [entries|msg] eqn:Hdir; cbn [Res.bind]; [|discriminate].
    intros [= <-]. cbn [total featured withGithub withDemo].
    set (files := filter (fun file => JS.endsWith file ".md") entries).
    set (dir := path_join w [cwd w; "src/content/projects"]).
    destruct (featured_fold w dir files [] (Forall_nil _)) as [Hall Hlen].
    pose proof (sort_permutes (fold_left (featured_step w dir) files [])) as Hperm.
    unfold count_with.
    split; [|split; [|split; [|split]]].
    + rewrite (filter_length_permutation _ _ _ Hperm).
      fold is_featured. rewrite (filter_all _ _ Hall).
      apply Permutation_length, Hperm.
    + apply filter_length_le.
    + apply filter_length_le.
    + discriminate.
    + intros entries' [= <-]. rewrite (Permutation_length Hperm). exact Hlen.
  - intros [= <-]. cbn [total featured withGithub withDemo].
    assert (Hnil : sort [] = []) by (apply Permutation_nil, Permutation_sym, sort_permutes).
    unfold count_with. cbn [List.length filter].
    repeat split; try lia.
Qed.

End StatsFacts.

Lemma project_stats_count_featured_only_witness :
  exists stats,
    Stats.getProjectStats (fun items => items) Linked.showcase = Ok stats
    /\ Stats.total stats = Stats.featured stats
    /\ Stats.total stats = 1 /\ Stats.withGithub stats = 1 /\ Stats.withDemo stats = 0.
Proof.
  destruct (Stats.getProjectStats (fun items => items) Linked.showcase) as [stats|msg] eqn:E;
    [|vm_compute in E; discriminate].
  exists stats. split; [reflexivity|].
  destruct (project_stats_count_featured_only (fun items => items)
              (fun items => Permutation_refl items) Linked.showcase stats E) as [H _].
  split; [exact H|].
  vm_compute in E. injection E as <-. repeat split.
Defined.

(** ** Reporting a result *)

Section HandlingFacts.
Import Handling.

Lemma append_assoc (a b c : string) : ((a ++ b) ++ c = a ++ b ++ c)%string.
Proof. induction a as [|x a IH]; cbn; [reflexivity|now rewrite IH]. Qed.

Lemma includes_append_right (a b needle : string) :
  includes b needle -> includes (a ++ b) needle.
Proof.
  intros [before [after ->]]. exists (a ++ before)%string, after.
  now rewrite append_assoc.
Qed.

Lemma includes_append_left (a b needle : string) :
  includes a needle -> includes (a ++ b) needle.
Proof.
  intros [before [after ->]]. exists before, (after ++ b)%string.
  now rewrite !append_assoc.
Qed.

Lemma includes_refl (s : string) : includes s s.
Proof.
  exists EmptyString, EmptyString. cbn.
  induction s as [|c s IH]; cbn; [reflexivity|now rewrite <- IH].
Qed.

Lemma concat_includes sep (lines : list string) line :
  In line lines -> includes (String.concat sep lines) line.
Proof.
  induction lines as [|x lines IH]; [intros []|].
  intros Hin. destruct lines as [|y lines].
  - destruct Hin as [<-|[]]. apply includes_refl.
  - change (String.concat sep (x :: y :: lines))
      with (x ++ sep ++ String.concat sep (y :: lines))%string.
    destruct Hin as [<-|Hin].
    + apply includes_append_left, includes_refl.
    + apply includes_append_right, includes_append_right, IH, Hin.
Qed.

(** X26. [handleValidationResult] throws exactly when it is asked to and
    the result has an error; the message that it throws gives the number of
    errors and has the line of every error, with its file, its field and its
    message.  On the result of [validateAllContent] it throws exactly when
    the content is not valid. *)
Theorem handled_result_reports_every_error :
  (forall validation, handleValidationResult validation false = Ok tt)
  /\ (forall validation,
        handleValidationResult validation true = Ok tt <-> errors validation = [])
  /\ (forall validation msg,
        handleValidationResult validation true = Throw msg ->
        includes msg (JS.nat_to_string (List.length (errors validation)) ++ " error(s):")
        /\ forall err, In err (errors validation) ->
             includes msg (error_line err)
             /\ includes (error_line err) (err_file err)
             /\ includes (error_line err) (err_message err))
  /\ (forall w, exists validation,
        Validation.validateAllContent w = Ok validation
        /\ (handleValidationResult validation true = Ok tt <-> isValid validation = true)).
Proof.
  split; [|split; [|split]].
  - intros validation. unfold handleValidationResult. now rewrite andb_false_r.
  - intros validation. unfold handleValidationResult.
    destruct (errors validation); cbn; split; congruence.
  - intros validation msg. unfold handleValidationResult.
    destruct (Nat.ltb 0 (List.length (errors validation)) && true); [|discriminate].
    intros [= <-]. unfold errorMessage. split.
    + apply includes_append_right.
      rewrite <- append_assoc. apply includes_append_left, includes_refl.
    + intros err Hin. split; [|split].
      * do 4 apply includes_append_right.
        apply concat_includes. now apply in_map.
      * unfold error_line. apply includes_append_right, includes_append_left, includes_refl.
      * unfold error_line. do 4 apply includes_append_right. apply includes_refl.
  - intros w. exists (Closed.all_result w). split; [apply validateAllContent_eq|].
    unfold handleValidationResult, Closed.all_result, Closed.make_result.
    cbn [errors isValid].
    destruct (flat_map errors (Closed.constituents w)); cbn; split; congruence.
Qed.

End HandlingFacts.

(** ** Relative time *)

Section RelativeFacts.
Import Str Dates Relative.
Local Open Scope Z_scope.

(** What [isValidDateFormat] accepts. *)
Lemma accepted_date year s :
  isValidDateFormat year s = true ->
  s = "present"
  \/ (is_year_month s = true /\ 1 <= month_of s <= 12 /\ 1900 <= year_of s <= year + 10).
Proof.
  unfold isValidDateFormat.
  destruct (String.eqb s "present") eqn:Ep; [left; now apply String.eqb_eq|].
  destruct (is_year_month s) eqn:E; cbn [negb]; [|discriminate].
  destruct (parse_year_month s E) as [_ [_ [Hy [Hm _]]]]. rewrite Hy, Hm.
  destruct (iso_first_day_valid (month_of s)); [|discriminate].
  rewrite !andb_true_iff, !Z.leb_le. intros [[[H1 H2] H3] H4].
  right. split; [reflexivity|]. lia.
Qed.

(** X27. For a date that [isValidDateFormat] accepts, [getRelativeTime]
    counts the months from the local month of midnight UTC of its first
    day: where local time is behind UTC this is the month before, and the
    count is one more than the months that [calculateDuration] counts to
    the current month.  There, a date in the current month is
    [1 month ago] for the one and [Less than 1 month] for the other. *)
Theorem relative_time_depends_on_zone c year s :
  isValidDateFormat year s = true -> s <> "present" ->
  getRelativeTime c s
  = Some (relative_text
            (now c - month_index s + (if behind_utc c (month_index s) then 1 else 0)))
  /\ calculateDuration (now c) s None = duration_text (Some (now c - month_index s))
  /\ (now c = month_index s ->
      calculateDuration (now c) s None = "Less than 1 month"
      /\ getRelativeTime c s
         = Some (if behind_utc c (month_index s) then "1 month ago" else "Current")).
Proof.
  intros Hacc Hnp.
  destruct (accepted_date year s Hacc) as [->|[Hym [Hm Hy]]]; [contradiction|].
  assert (Hidx : month_index s = year_of s * 12 + month_of s - 1).
  { unfold month_index.
    replace (year_of s <=? 99) with false; [reflexivity|].
    symmetry. apply Z.leb_gt. lia. }
  assert (Hrel : getRelativeTime c s
                 = Some (relative_text
                           (now c - month_index s
                            + (if behind_utc c (month_index s) then 1 else 0)))).
  { unfold getRelativeTime, local_month.
    destruct (year_month_clean s Hym) as [_ ->]. rewrite Hym.
    replace (1 <=? month_of s) with true by (symmetry; apply Z.leb_le; lia).
    replace (month_of s <=? 12) with true by (symmetry; apply Z.leb_le; lia).
    cbn [andb]. rewrite <- Hidx. f_equal. f_equal.
    pose proof (Z.div_mod (now c) 12).
    destruct (behind_utc c (month_index s)).
    - pose proof (Z.div_mod (month_index s - 1) 12). lia.
    - pose proof (Z.div_mod (month_index s) 12). lia. }
  pose proof (duration_to_now (now c) s None Hym (or_introl eq_refl)) as Hdur.
  split; [exact Hrel|]. split; [exact Hdur|].
  intros Hnow. rewrite Hdur, Hrel, Hnow, Z.sub_diag.
  split; [reflexivity|].
  destruct (behind_utc c (month_index s)); reflexivity.
Qed.

End RelativeFacts.

Lemma relative_time_depends_on_zone_witness :
  Relative.getRelativeTime (Relative.mkClock 24322 (fun _ => true)) "2026-11"
  = Some "1 month ago"
  /\ Relative.getRelativeTime (Relative.mkClock 24322 (fun _ => false)) "2026-11"
     = Some "Current"
  /\ Dates.calculateDuration 24322 "2026-11" None = "Less than 1 month".
Proof.
  assert (Hne : "2026-11" <> "present") by discriminate.
  destruct (relative_time_depends_on_zone (Relative.mkClock 24322 (fun _ => true)) 2026
              "2026-11" eq_refl Hne) as [_ [_ H]].
  destruct (H eq_refl) as [Hd Hr].
  split; [exact Hr|]. split; [reflexivity|exact Hd].
Defined.

(** ** Scrolling *)

Section ScrollingFacts.
Import Navigation Scrolling.
Local Open Scope Z_scope.

Lemma current_section_named p : String.eqb (getCurrentSection p) "" = false.
Proof.
  unfold getCurrentSection.
  destruct (scan p (scrollY p + 100) (rev sections)) as [id|] eqn:E; [|reflexivity].
  destruct (scan_some p _ _ id E) as [before [after [Hrev _]]].
  assert (Hin : In id (rev sections)) by (rewrite Hrev; apply in_or_app; right; now left).
  cbn in Hin. repeat (destruct Hin as [<-|Hin]; [reflexivity|]). destruct Hin.
Qed.

Lemma update_shows section ls : shows (updateActiveNavLinks section ls) section.
Proof.
  unfold shows, updateActiveNavLinks. intros link Hin.
  apply in_map_iff in Hin. destruct Hin as [l [<- _]]. cbn [active data_section].
  destruct (data_section l) as [s|]; [|split; discriminate].
  destruct (String.eqb_spec s section) as [->|Hne]; split; try reflexivity; try discriminate.
  intros [= H]. contradiction.
Qed.

Lemma update_sections section ls :
  map data_section (updateActiveNavLinks section ls) = map data_section ls.
Proof.
  unfold updateActiveNavLinks. rewrite map_map. reflexivity.
Qed.

Lemma init_settled p ls header shadowed :
  settled header shadowed (offsetTop p) (map data_section ls)
    (initializeNavigation p ls header shadowed).
Proof.
  unfold initializeNavigation, initNavigation, initHeaderEffects, settled.
  rewrite (current_section_named p). cbn [negb has_header].
  destruct header; cbn [negb updateHeader has_header page links nav_frames nav_ticking
                          header_frames header_ticking shadow];
    (split; [reflexivity|]); (split; [reflexivity|]);
    (split; [apply update_sections|]); (split; [reflexivity|]); (split; [reflexivity|]);
    (split; [intros _; apply update_shows|]).
  - reflexivity.
  - split; reflexivity.
Qed.

Lemma step_settled header shadowed tops sections st e :
  settled header shadowed tops sections st ->
  settled header shadowed tops sections (step st e).
Proof.
  destruct st as [p ls h sh nt nf ht hf]. unfold settled.
  cbn [has_header page links nav_frames nav_ticking header_frames header_ticking shadow].
  intros [-> [Htops [Hsec [-> [-> [Hnav Hhead]]]]]].
  destruct e as [y|].
  - cbn [step scrolled handleScroll has_header page links nav_frames nav_ticking
           header_frames header_ticking shadow].
    destruct nt, header, ht;
      cbn [negb handleHeaderScroll has_header page links nav_frames nav_ticking
             header_frames header_ticking shadow offsetTop scrollY];
      (split; [reflexivity|]); (split; [assumption|]); (split; [assumption|]);
      (split; [reflexivity|]); (split; [reflexivity|]);
      (split; [try discriminate|]); try discriminate; try assumption.
  - cbn [step run_frames has_header page links nav_frames nav_ticking
           header_frames header_ticking shadow].
    destruct nt, ht;
      cbn [Nat.iter nat_rect nav_callback updateHeader has_header page links nav_frames
             nav_ticking header_frames header_ticking shadow];
      rewrite ?(current_section_named p); cbn [negb];
      (split; [reflexivity|]); (split; [assumption|]);
      (split; [rewrite ?update_sections; assumption|]);
      (split; [reflexivity|]); (split; [reflexivity|]);
      (split; [first [exact Hnav|intros _; apply update_shows]|]);
      destruct header; try reflexivity; try assumption; try (now destruct Hhead).
Qed.

Lemma run_settled header shadowed tops sections events : forall st,
  settled header shadowed tops sections st ->
  settled header shadowed tops sections (fold_left step events st).
Proof.
  induction events as [|e events IH]; intros st H; cbn [fold_left]; [exact H|].
  apply IH, step_settled, H.
Qed.

(** X28. After [initializeNavigation] and any sequence of scroll events
    and frames, each of the two scroll handlers has at most one callback
    waiting for the next frame; whenever none is waiting for the links, the
    active links are exactly those of the section that [getCurrentSection]
    gives for the current scroll position; and whenever none is waiting for
    the header, it has its shadow exactly when the page is scrolled by more
    than 10.  Without a header element its classes are never touched. *)
Theorem scroll_handlers_keep_up p ls header shadowed events :
  let st := fold_left step events (initializeNavigation p ls header shadowed) in
  (nav_frames st <= 1)%nat /\ (header_frames st <= 1)%nat
  /\ map data_section (links st) = map data_section ls
  /\ (nav_frames st = 0%nat -> shows (links st) (getCurrentSection (page st)))
  /\ (header = true -> header_frames st = 0%nat ->
      shadow st = (scrollY (page st) >? 10))
  /\ (header = false -> header_frames st = 0%nat /\ shadow st = shadowed).
Proof.
  cbv zeta.
  destruct (run_settled header shadowed (offsetTop p) (map data_section ls) events _
              (init_settled p ls header shadowed))
    as [_ [_ [Hsec [Hnf [Hhf [Hnav Hhead]]]]]].
  rewrite Hnf, Hhf.
  split; [destruct (nav_ticking _); lia|].
  split; [destruct (header_ticking _); lia|].
  split; [exact Hsec|].
  split; [destruct (nav_ticking _); [discriminate|intros _; now apply Hnav]|].
  split.
  - intros ->. destruct (header_ticking _); [discriminate|intros _; now apply Hhead].
  - intros ->. destruct Hhead as [-> ->]. split; reflexivity.
Qed.

End ScrollingFacts.

(** ** Company logos *)

Section LogoFacts.
Import Integrity Logo.

Lemma check_ref_named w data key st st' :
  named st -> check_ref w data key st = Ok st' -> named st'.
Proof.
  intros Hn. unfold check_ref.
  destruct (JS.get_prop data key) as [v|msg]; cbn [Res.bind]; [|discriminate].
  destruct (JS.truthy v) eqn:Ht; [|intros [= <-]; exact Hn].
  destruct v as [| |b|n|s|items|fields|ms]; cbn [public_path Res.bind]; try discriminate.
  cbn [Validation.string_of]. cbn [JS.truthy] in Ht. apply negb_true_iff in Ht.
  assert (Hs : s <> "") by (intros ->; discriminate Ht).
  destruct (existsSync w _); intros [= <-]; unfold named; cbn [missing found];
    intros x [Hx|Hx]; try apply in_app_or in Hx;
    try (destruct Hx as [Hx|[<-|[]]]); auto.
Qed.

Lemma check_file_named w dirPath file st :
  named st -> named (check_file w dirPath file st).
Proof.
  intros Hs. unfold check_file.
  destruct (Res.bind _ _) as [[data content]|msg]; [|exact Hs].
  destruct (check_ref w data "image" st) as [st1|msg] eqn:E1; [|exact Hs].
  pose proof (check_ref_named w data "image" st st1 Hs E1) as Hs1.
  destruct (check_ref w data "logo" st1) as [st2|msg] eqn:E2; [|exact Hs1].
  exact (check_ref_named w data "logo" st1 st2 Hs1 E2).
Qed.

Lemma check_dirs_named w dirs : forall st st',
  named st -> check_dirs w dirs st = Ok st' -> named st'.
Proof.
  induction dirs as [|dir dirs IH]; intros st st' Hs; cbn [check_dirs].
  - intros [= <-]. exact Hs.
  - destruct (existsSync w _); cbn [negb]; [|apply IH, Hs].
    destruct (readdirSync w _) as [entries|msg]; cbn [Res.bind]; [|discriminate].
    apply IH. clear IH.
    generalize (filter (fun file => JS.endsWith file ".md") entries). intros files.
    revert st Hs. induction files as [|file files IHf]; intros st Hs; cbn [fold_left];
      [exact Hs|].
    apply IHf, check_file_named, Hs.
Qed.

Lemma check_profile_named w st : named st -> named (check_profile w st).
Proof.
  intros Hs. unfold check_profile.
  destruct (readFileSync w _) as [text|msg]; cbn [Res.bind]; [|exact Hs].
  destruct (matter w text) as [[data content]|msg]; cbn [Res.bind]; [|exact Hs].
  destruct (check_ref w data "profileImage" st) as [st'|msg] eqn:E; [|exact Hs].
  exact (check_ref_named w data "profileImage" st st' Hs E).
Qed.

(** X29. [checkCompanyLogo] agrees with [checkImageReferences]: it is
    true of every reference that the check lists as found, and false of
    every one that it lists as missing; and it is false of the empty
    path. *)
Theorem logo_check_agrees_with_references w r :
  checkImageReferences w = Ok r ->
  (forall s, In s (found r) -> checkCompanyLogo w s = true)
  /\ (forall s, In s (missing r) -> checkCompanyLogo w s = false)
  /\ checkCompanyLogo w "" = false.
Proof.
  unfold checkImageReferences.
  destruct (check_dirs w contentDirs (check_profile w (mkRefs [] []))) as [st|msg] eqn:E;
    cbn [Res.bind]; [|discriminate].
  intros [= <-]. cbn [missing found].
  assert (Hs : sound w st).
  { apply (check_dirs_sound w contentDirs (check_profile w (mkRefs [] [])) st);
      [|exact E].
    apply check_profile_sound. split; intros s []. }
  assert (Hn : named st).
  { apply (check_dirs_named w contentDirs (check_profile w (mkRefs [] [])) st);
      [|exact E].
    apply check_profile_named. intros s [[]|[]]. }
  destruct Hs as [Hm Hf]. unfold checkCompanyLogo.
  split; [|split; [|reflexivity]].
  - intros s Hin. apply (proj1 (dedup_in _ _)) in Hin.
    destruct (String.eqb_spec s "") as [->|_].
    + exfalso. apply (Hn ""); [now right|reflexivity].
    + now apply Hf.
  - intros s Hin. apply (proj1 (dedup_in _ _)) in Hin.
    destruct (String.eqb s ""); [reflexivity|now apply Hm].
Qed.

End LogoFacts.

Lemma logo_check_agrees_with_references_witness :
  Logo.checkCompanyLogo Sample.site "/images/ada.jpg" = true
  /\ Logo.checkCompanyLogo Sample.site "/images/birds.png" = false.
Proof.
  destruct (Integrity.checkImageReferences Sample.site) as [r|msg] eqn:E;
    [|vm_compute in E; discriminate].
  destruct (logo_check_agrees_with_references Sample.site r E) as [Hf [Hm _]].
  vm_compute in E. injection E as <-.
  split; [apply Hf; left; reflexivity|apply Hm; left; reflexivity].
Defined.

(** ** The process around the validation *)

Section StatefulFacts.
Import Blocks Stateful.

Lemma normal_ret {A} (a : A) : normal (ret a).
Proof. intros st. eexists; eexists; reflexivity. Qed.

Lemma normal_lift {A} (a : A) : normal (lift (Ok a)).
Proof. intros st. eexists; eexists; reflexivity. Qed.

Lemma normal_push_error e : normal (push_error e).
Proof. intros st. eexists; eexists; reflexivity. Qed.

Lemma normal_push_errors es : normal (push_errors es).
Proof. intros st. eexists; eexists; reflexivity. Qed.

Lemma normal_push_warnings xs : normal (push_warnings xs).
Proof. intros st. eexists; eexists; reflexivity. Qed.

Lemma normal_call {A} (f : Proc A) : total f -> normal (call f).
Proof.
  intros Hf st. unfold call. destruct (Hf (texts st)) as [a [c' ->]].
  eexists; eexists; reflexivity.
Qed.

Lemma normal_bind {A B} (m : Block A) (k : A -> Block B) :
  normal m -> (forall a, normal (k a)) -> normal (bind m k).
Proof.
  intros Hm Hk st. unfold bind. destruct (Hm st) as [a [st' ->]]. apply Hk.
Qed.

Lemma normal_forEach {A} (xs : list A) (body : A -> Block unit) :
  (forall x, normal (body x)) -> normal (forEach xs body).
Proof.
  intros Hbody. induction xs as [|x xs IH]; cbn [forEach].
  - apply normal_ret.
  - apply normal_bind; [apply Hbody|intros _; exact IH].
Qed.

Lemma returns_return_result : returns_with checked return_result.
Proof. intros st. eexists; eexists; split; reflexivity. Qed.

Lemma returns_return_value r : returns (return_value r).
Proof. intros st. eexists; eexists; split; [reflexivity|exact I]. Qed.

Lemma returns_bind {A} P (m : Block A) (k : A -> Block unit) :
  normal m -> (forall a, returns_with P (k a)) -> returns_with P (bind m k).
Proof.
  intros Hm Hk st. unfold bind. destruct (Hm st) as [a [st' ->]]. apply Hk.
Qed.

(** A [try] whose handler only records the error, followed by the final
    [return]: the function returns, whatever the body does. *)
Lemma returns_guarded (body : Block unit) (handler : string -> Block unit) :
  (forall msg, normal (handler msg)) ->
  returns (bind (try_catch body handler) (fun _ => return_result)).
Proof.
  intros Hh st. unfold bind, try_catch.
  destruct (body st) as [[a|r|msg] st'].
  - eexists; eexists; split; [reflexivity|exact I].
  - eexists; eexists; split; [reflexivity|exact I].
  - destruct (Hh msg st') as [a [st'' ->]]. eexists; eexists; split; [reflexivity|exact I].
Qed.

Lemma run_returns P (body : Block unit) :
  returns_with P body ->
  forall c, exists r c', run_function body c = (Ok r, c') /\ P r.
Proof.
  intros Hb c. unfold run_function.
  destruct (Hb (mkState (mkAcc [] []) c)) as [r [st [-> Hr]]].
  eexists; eexists; split; [reflexivity|exact Hr].
Qed.

Lemma total_run (body : Block unit) : returns body -> total (run_function body).
Proof.
  intros Hb c. destruct (run_returns _ body Hb c) as [r [c' [H _]]]. eauto.
Qed.

End StatefulFacts.

Section NodeFacts.
Import Blocks Closed Terms Stateful Node.

Lemma file_total h filePath schema contentType :
  total (validateContentFile h filePath schema contentType).
Proof.
  apply total_run, returns_guarded. intros msg. apply normal_push_error.
Qed.

Lemma profile_total h :
  cwd_error h = None -> total (validateProfile h).
Proof.
  intros Hc. unfold validateProfile, process_cwd. rewrite Hc.
  apply total_run, returns_bind; [apply normal_lift|intros cwd].
  apply returns_bind; [apply normal_call, file_total|intros r].
  apply returns_return_value.
Qed.

Lemma skills_total h :
  cwd_error h = None -> total (validateSkills h).
Proof.
  intros Hc. unfold validateSkills, process_cwd. rewrite Hc.
  apply total_run, returns_bind; [apply normal_lift|intros cwd].
  apply returns_bind; [apply normal_call, file_total|intros r].
  apply returns_return_value.
Qed.

Lemma collection_total h collectionName schema :
  cwd_error h = None -> total (validateCollection h collectionName schema).
Proof.
  intros Hc. unfold validateCollection, process_cwd. rewrite Hc.
  apply total_run, returns_bind; [apply normal_lift|intros cwd].
  apply returns_guarded. intros msg. apply normal_push_error.
Qed.

(** With a working directory [validateAllContent] returns a result, valid
    exactly when it has no error. *)
Lemma all_returns h c :
  cwd_error h = None ->
  exists r c', validateAllContent h c = (Ok r, c') /\ checked r.
Proof.
  intros Hc. apply run_returns.
  apply returns_bind; [apply normal_call, profile_total, Hc|intros profileResult].
  apply returns_bind; [apply normal_push_errors|intros _].
  apply returns_bind; [apply normal_push_warnings|intros _].
  apply returns_bind; [apply normal_call, skills_total, Hc|intros skillsResult].
  apply returns_bind; [apply normal_push_errors|intros _].
  apply returns_bind; [apply normal_push_warnings|intros _].
  apply returns_bind; [|intros _; apply returns_return_result].
  apply normal_forEach. intros [name schema].
  apply normal_bind; [apply normal_call, collection_total, Hc|intros result].
  apply normal_bind; [apply normal_push_errors|intros _].
  apply normal_push_warnings.
Qed.

(** Without a working directory the functions that compute a path from it
    outside a [try] throw what [process.cwd()] throws. *)
Lemma profile_throws h c msg :
  cwd_error h = Some msg -> validateProfile h c = (Throw msg, c).
Proof.
  intros Hc. unfold validateProfile, run_function, bind, lift, process_cwd.
  rewrite Hc. reflexivity.
Qed.

Lemma skills_throws h c msg :
  cwd_error h = Some msg -> validateSkills h c = (Throw msg, c).
Proof.
  intros Hc. unfold validateSkills, run_function, bind, lift, process_cwd.
  rewrite Hc. reflexivity.
Qed.

Lemma collection_throws h collectionName schema c msg :
  cwd_error h = Some msg -> validateCollection h collectionName schema c = (Throw msg, c).
Proof.
  intros Hc. unfold validateCollection, run_function, bind, lift, process_cwd.
  rewrite Hc. reflexivity.
Qed.

Lemma all_throws h c msg :
  cwd_error h = Some msg -> validateAllContent h c = (Throw msg, c).
Proof.
  intros Hc. unfold validateAllContent, run_function, bind, call.
  cbn [texts arrays]. rewrite (profile_throws h c msg Hc). reflexivity.
Qed.

(** The three failures of a file. *)
Lemma missing_file_recorded h filePath schema contentType c :
  existsSync (world h) filePath = false ->
  validateContentFile h filePath schema contentType c
  = (Ok (mkResult false [not_found_error filePath contentType] []), c).
Proof.
  intros H. unfold validateContentFile, run_function, bind, try_catch, when.
  rewrite H. reflexivity.
Qed.

Lemma unreadable_file_recorded h filePath schema contentType c msg :
  existsSync (world h) filePath = true ->
  readFileSync (world h) filePath = Throw msg ->
  validateContentFile h filePath schema contentType c
  = (Ok (mkResult false [parse_error filePath msg] []), c).
Proof.
  intros H1 H2. unfold validateContentFile, run_function, bind, try_catch, when, lift.
  rewrite H1, H2. reflexivity.
Qed.

Lemma rejected_file_recorded h filePath schema contentType c text msg :
  existsSync (world h) filePath = true ->
  readFileSync (world h) filePath = Ok text ->
  fst (gray_matter h text c) = Throw msg ->
  validateContentFile h filePath schema contentType c
  = (Ok (mkResult false [parse_error filePath msg] []), snd (gray_matter h text c)).
Proof.
  intros H1 H2 H3.
  unfold validateContentFile, run_function, bind, try_catch, when, lift, call.
  rewrite H1, H2. cbn [negb ret texts arrays].
  destruct (gray_matter h text c) as [[file|m] c1]; cbn [fst] in H3; [discriminate|].
  injection H3 as ->. reflexivity.
Qed.

Lemma failing_file h filePath schema contentType c msg :
  Node.fails_to_parse h c filePath msg ->
  fst (validateContentFile h filePath schema contentType c)
  = Ok (mkResult false [parse_error filePath msg] []).
Proof.
  intros [Hex [Hread|[text [Hread Hm]]]].
  - now rewrite (unreadable_file_recorded h filePath schema contentType c msg Hex Hread).
  - now rewrite (rejected_file_recorded h filePath schema contentType c text msg Hex Hread Hm).
Qed.

(** The two failures of a collection directory. *)
Lemma collection_missing h collectionName schema c :
  cwd_error h = None ->
  existsSync (world h) (Node.collection_path h collectionName) = false ->
  validateCollection h collectionName schema c
  = (Ok (mkResult false
           [mkError (Node.collection_path h collectionName) None
              ("Collection directory not found: " ++ collectionName) SevError] []), c).
Proof.
  intros Hc H. unfold Node.collection_path in H.
  unfold validateCollection, run_function, bind, try_catch, when, lift, process_cwd.
  rewrite Hc, H. reflexivity.
Qed.

Lemma collection_unreadable h collectionName schema c msg :
  cwd_error h = None ->
  existsSync (world h) (Node.collection_path h collectionName) = true ->
  readdirSync (world h) (Node.collection_path h collectionName) = Throw msg ->
  validateCollection h collectionName schema c
  = (Ok (mkResult false
           [mkError (Node.collection_path h collectionName) None
              ("Failed to read collection directory: " ++ msg) SevError] []), c).
Proof.
  intros Hc H1 H2. unfold Node.collection_path in H1, H2.
  unfold validateCollection, run_function, bind, try_catch, when, lift, process_cwd.
  rewrite Hc, H1, H2. reflexivity.
Qed.

(** The loop over the files of a collection. *)
Lemma loop_members h collectionName schema files : forall acc c,
  forEach files
    (fun file =>
       bind (call (validateContentFile h
                     (path_join (world h) [Node.collection_path h collectionName; file])
                     schema collectionName))
         (fun result =>
            bind (push_errors (errors result)) (fun _ => push_warnings (warnings result))))
    (mkState acc c)
  = (Normal tt,
     mkState
       (mkAcc (acc_errors acc
               ++ flat_map errors_of (fst (members h collectionName schema files c)))
              (acc_warnings acc
               ++ flat_map warnings_of (fst (members h collectionName schema files c))))
       (snd (members h collectionName schema files c))).
Proof.
  induction files as [|file files IH]; intros acc c.
  - cbn. rewrite !app_nil_r. destruct acc; reflexivity.
  - cbn [forEach members]. unfold validate_member, member_path.
    unfold bind at 1. unfold bind at 1. unfold call at 1. cbn [texts arrays].
    destruct (file_total h (path_join (world h) [Node.collection_path h collectionName; file])
                schema collectionName c) as [r [c1 Hr]].
    rewrite Hr. unfold bind at 1. unfold push_errors at 1, push_warnings at 1.
    cbn [texts arrays acc_errors acc_warnings].
    rewrite IH. cbn [acc_errors acc_warnings].
    destruct (members h collectionName schema files c1) as [rs c2].
    cbn [fst snd flat_map errors_of warnings_of]. rewrite <- !app_assoc. reflexivity.
Qed.

(** The result of a collection whose directory can be listed. *)
Lemma listed_collection h collectionName schema entries c :
  cwd_error h = None ->
  existsSync (world h) (Node.collection_path h collectionName) = true ->
  readdirSync (world h) (Node.collection_path h collectionName) = Ok entries ->
  validateCollection h collectionName schema c
  = (let files := filter Validation.is_content_file entries in
     let rs := fst (members h collectionName schema files c) in
     (Ok (make_result
            (flat_map errors_of rs)
            ((if Nat.eqb (List.length files) 0
              then [mkWarning (Node.collection_path h collectionName) None
                      ("No content files found in " ++ collectionName ++ " collection")]
              else [])
             ++ flat_map warnings_of rs)),
      snd (members h collectionName schema files c))).
Proof.
  intros Hc H1 H2. unfold Node.collection_path in H1, H2.
  unfold validateCollection, run_function, process_cwd. rewrite Hc.
  unfold bind at 1. unfold lift at 1.
  unfold bind at 1. unfold try_catch.
  unfold bind at 1. rewrite H1. cbn [negb when ret].
  unfold bind at 1. rewrite H2. unfold lift at 1.
  fold (Node.collection_path h collectionName).
  set (files := filter Validation.is_content_file entries).
  unfold bind at 1.
  destruct (Nat.eqb (List.length files) 0) eqn:Hn; cbn [when ret push_warning].
  - unfold push_warning. cbn [texts arrays acc_errors acc_warnings].
    rewrite loop_members. cbn [return_result]. reflexivity.
  - rewrite loop_members. reflexivity.
Qed.

Lemma members_app h collectionName schema before after : forall c,
  fst (members h collectionName schema (before ++ after) c)
  = fst (members h collectionName schema before c)
    ++ fst (members h collectionName schema after
              (snd (members h collectionName schema before c)))
  /\ snd (members h collectionName schema (before ++ after) c)
     = snd (members h collectionName schema after
              (snd (members h collectionName schema before c))).
Proof.
  induction before as [|file before IH]; intros c; cbn [app members fst snd].
  - split; reflexivity.
  - destruct (validate_member h collectionName schema file c) as [r c1].
    destruct (IH c1) as [H1 H2].
    destruct (members h collectionName schema (before ++ after) c1) as [rs c2].
    destruct (members h collectionName schema before c1) as [rs1 c3].
    cbn [fst snd] in *. subst. split; reflexivity.
Qed.

Lemma forEach_push {A} (f : A -> ValidationError) (xs : list A) : forall st,
  forEach xs (fun x => push_error (f x)) st
  = (Normal tt,
     mkState (mkAcc (acc_errors (arrays st) ++ map f xs) (acc_warnings (arrays st)))
       (texts st)).
Proof.
  induction xs as [|x xs IH]; intros [[es ws] c]; cbn [forEach map].
  - cbn. now rewrite app_nil_r.
  - unfold bind, push_error. cbn [arrays texts acc_errors acc_warnings].
    rewrite IH. cbn [arrays texts acc_errors acc_warnings].
    now rewrite <- app_assoc.
Qed.

(** A text that gray-matter has stored and that its parser rejects is
    answered with empty data and the whole text as the body: the file gets
    the errors of the schema on the empty mapping, and no parse error. *)
Lemma stored_rejection_is_not_reported h filePath schema contentType c text msg :
  existsSync (world h) filePath = true ->
  readFileSync (world h) filePath = Ok text ->
  cached c text = true ->
  matter (world h) text = Throw msg ->
  validateContentFile h filePath schema contentType c
  = (Ok (make_result (schema_errors (world h) filePath schema (VObj []))
           (body_warnings filePath contentType text)), c).
Proof.
  intros H1 H2 H3 H4.
  unfold validateContentFile, run_function.
  unfold bind at 1. unfold try_catch.
  unfold bind at 1. rewrite H1. cbn [negb when ret].
  unfold bind at 1. rewrite H2. unfold lift at 1.
  unfold bind at 1. unfold call, gray_matter. cbn [texts arrays]. rewrite H3, H4.
  unfold bind at 1.
  match goal with
  | |- context [when ?b (forEach ?xs ?body)] =>
      assert (Hpush : forall st,
                 when b (forEach xs body) st
                 = (Normal tt,
                    mkState
                      (mkAcc (acc_errors (arrays st)
                              ++ schema_errors (world h) filePath schema (VObj []))
                             (acc_warnings (arrays st)))
                      (texts st)))
  end.
  { intros st. unfold schema_errors.
    destruct (Zod.safeParse (is_email (world h)) (is_url (world h)) schema (VObj []))
      as [|issue issues]; [destruct st as [[es ws] c0]; cbn; now rewrite app_nil_r|].
    cbn [List.length Nat.eqb negb when]. apply forEach_push. }
  rewrite Hpush. cbn [arrays texts acc_errors acc_warnings app].
  unfold body_warnings, checks_body_length, make_result.
  destruct (String.eqb contentType "project" || String.eqb contentType "publication"
            || String.eqb contentType "experience" || String.eqb contentType "education");
    cbn [andb when];
    [destruct (negb (JS.truthy (VStr text)) || Nat.ltb (String.length (JS.trim text)) 50);
     cbn [when]|];
    reflexivity.
Qed.

(** C3. [validateContentFile] returns a result in every state of the
    process, and a missing file, an unreadable file and malformed
    front-matter each leave an entry in [errors].  [validateCollection] and
    [validateAllContent] do so as long as the working directory is there: a
    missing or unreadable directory leaves an entry, and the functions
    return.  When [process.cwd()] throws, they throw its error: the path of
    the collection (of the profile) is computed outside the [try]. *)
Theorem validator_throws_only_without_cwd (h : Host) (c : Cache) :
  (forall filePath schema contentType,
      exists r c',
        validateContentFile h filePath schema contentType c = (Ok r, c')
        /\ ((existsSync (world h) filePath = false
             \/ (exists msg, readFileSync (world h) filePath = Throw msg)
             \/ (exists text msg, readFileSync (world h) filePath = Ok text
                                  /\ fst (gray_matter h text c) = Throw msg))
            -> errors r <> []))
  /\ (cwd_error h = None ->
      (forall collectionName schema,
          exists r c',
            validateCollection h collectionName schema c = (Ok r, c')
            /\ ((existsSync (world h) (Node.collection_path h collectionName) = false
                 \/ exists msg,
                      readdirSync (world h) (Node.collection_path h collectionName)
                      = Throw msg)
                -> errors r <> []))
      /\ exists r c', validateAllContent h c = (Ok r, c'))
  /\ (forall msg,
         cwd_error h = Some msg ->
         (forall collectionName schema,
             validateCollection h collectionName schema c = (Throw msg, c))
         /\ validateAllContent h c = (Throw msg, c)).
Proof.
  split; [|split].
  - intros filePath schema contentType.
    destruct (file_total h filePath schema contentType c) as [r [c' Hr]].
    exists r, c'. split; [exact Hr|].
    destruct (existsSync (world h) filePath) eqn:Hex.
    + intros [H|[[msg H]|[text [msg [H1 H2]]]]]; [discriminate| |].
      * rewrite (unreadable_file_recorded h filePath schema contentType c msg Hex H) in Hr.
        injection Hr as <- _. discriminate.
      * rewrite (rejected_file_recorded h filePath schema contentType c text msg Hex H1 H2)
          in Hr.
        injection Hr as <- _. discriminate.
    + intros _. rewrite (missing_file_recorded h filePath schema contentType c Hex) in Hr.
      injection Hr as <- _. discriminate.
  - intros Hc. split.
    + intros collectionName schema.
      destruct (collection_total h collectionName schema Hc c) as [r [c' Hr]].
      exists r, c'. split; [exact Hr|].
      destruct (existsSync (world h) (Node.collection_path h collectionName)) eqn:Hex.
      * intros [H|[msg H]]; [discriminate|].
        rewrite (collection_unreadable h collectionName schema c msg Hc Hex H) in Hr.
        injection Hr as <- _. discriminate.
      * intros _. rewrite (collection_missing h collectionName schema c Hc Hex) in Hr.
        injection Hr as <- _. discriminate.
    + destruct (all_returns h c Hc) as [r [c' [Hr _]]]. eauto.
  - intros msg Hc. split.
    + intros collectionName schema. now apply collection_throws.
    + now apply all_throws.
Qed.

(** C4. When a file of a collection cannot be read, or gray-matter throws
    on its text, [validateCollection] records one parse error for it, in its
    place, and the errors and warnings of all the other files of the
    collection are in the result: the files before it and the files after it
    are each validated once, the failed file is not validated again. *)
Theorem parse_failure_continues_on_first_reading
    h collectionName schema entries before file after msg c :
  cwd_error h = None ->
  existsSync (world h) (Node.collection_path h collectionName) = true ->
  readdirSync (world h) (Node.collection_path h collectionName) = Ok entries ->
  filter Validation.is_content_file entries = before ++ file :: after ->
  Node.fails_to_parse h (snd (members h collectionName schema before c))
    (member_path h collectionName file) msg ->
  exists r c',
    validateCollection h collectionName schema c = (Ok r, c')
    /\ errors r
       = flat_map errors_of (fst (members h collectionName schema before c))
         ++ [parse_error (member_path h collectionName file) msg]
         ++ flat_map errors_of
              (fst (members h collectionName schema after
                      (snd (Node.validate_member h collectionName schema file
                              (snd (members h collectionName schema before c))))))
    /\ warnings r
       = flat_map warnings_of (fst (members h collectionName schema before c))
         ++ flat_map warnings_of
              (fst (members h collectionName schema after
                      (snd (Node.validate_member h collectionName schema file
                              (snd (members h collectionName schema before c))))))
    /\ isValid r = false.
Proof.
  intros Hc Hex Hdir Hfiles Hfail.
  rewrite (listed_collection h collectionName schema entries c Hc Hex Hdir).
  cbv zeta. rewrite Hfiles.
  destruct (members_app h collectionName schema before (file :: after) c) as [Hm _].
  rewrite Hm. cbn [members].
  set (c1 := snd (members h collectionName schema before c)) in *.
  pose proof (failing_file h _ schema collectionName c1 msg Hfail) as Hr.
  fold (Node.validate_member h collectionName schema file c1) in Hr.
  destruct (Node.validate_member h collectionName schema file c1) as [r1 c2].
  cbn [fst snd] in Hr |- *. subst r1.
  destruct (members h collectionName schema after c2) as [rs c3]. cbn [fst snd].
  eexists; eexists; split; [reflexivity|].
  unfold make_result. cbn [errors warnings isValid].
  rewrite !flat_map_app. cbn [flat_map errors_of warnings_of errors warnings app].
  split; [reflexivity|]. split.
  - rewrite length_app. destruct before; reflexivity.
  - rewrite !length_app. cbn [List.length]. rewrite Nat.add_succ_r. reflexivity.
Qed.

(** X6. When [process.cwd()] throws, [validateForDev] throws its error,
    and so does the build hook of the middleware, in production or not.
    With a working directory [validateForDev] returns, with [true]
    exactly when [validateAllContent] reports no error; the hook does not
    fail outside a production build, and in production it fails exactly
    when the content has an error. *)
Theorem middleware_fails_on_errors_in_production (h : Host) (c : Cache) :
  (forall msg,
      cwd_error h = Some msg ->
      validateForDev h c = (Throw msg, c)
      /\ forall production, buildStart h production c = (Throw msg, c))
  /\ (cwd_error h = None ->
      exists r c',
        validateAllContent h c = (Ok r, c')
        /\ validateForDev h c = (Ok (isValid r), c')
        /\ (isValid r = true <-> errors r = [])
        /\ buildStart h false c = (Ok tt, c')
        /\ (buildStart h true c = (Ok tt, c') <-> errors r = [])
        /\ (errors r <> [] ->
            buildStart h true c
            = (Throw "Content validation failed. Cannot proceed with production build.",
               c'))).
Proof.
  split.
  - intros msg Hc. unfold buildStart, validateForDev. rewrite (all_throws h c msg Hc).
    split; [reflexivity|intros production; reflexivity].
  - intros Hc. destruct (all_returns h c Hc) as [r [c' [Hr Hv]]].
    exists r, c'. unfold buildStart, validateForDev. rewrite Hr.
    split; [reflexivity|]. split; [reflexivity|].
    assert (Hiff : isValid r = true <-> errors r = []).
    { unfold checked in Hv. rewrite Hv. destruct (errors r); cbn; split; congruence. }
    split; [exact Hiff|]. rewrite andb_false_r. split; [reflexivity|].
    destruct (isValid r) eqn:Hi; cbn [negb andb].
    + split; [split; [intros _; now apply Hiff|reflexivity]|].
      intros Hne. destruct Hne. now apply Hiff.
    + split; [split; [discriminate|]|reflexivity].
      intros He. apply Hiff in He. discriminate.
Qed.

End NodeFacts.

(** ** The validator of a process and the validator of its environment *)

Section Agreement.
Import Blocks Closed Terms Stateful Node.

Lemma host_check_asset_run h filePath frontmatter key st :
  cwd_error h = None ->
  check_asset h filePath frontmatter key st
  = match JS.get_prop frontmatter key with
    | Throw msg => (Raise msg, st)
    | Ok _ =>
        (Normal tt,
         mkState
           (mkAcc (acc_errors (arrays st))
                  (acc_warnings (arrays st)
                   ++ asset_warnings (world h) filePath frontmatter key))
           (texts st))
    end.
Proof.
  intros Hc. unfold check_asset, asset_warnings, bind, lift, when, process_cwd.
  rewrite Hc.
  destruct (JS.get_prop frontmatter key) as [v|msg]; [|reflexivity].
  destruct st as [[es ws] c].
  destruct v as [| |b|n|s|items|fields|ms];
    cbn [JS.truthy JS.is_string Validation.string_of andb arrays texts acc_errors acc_warnings];
    rewrite ?andb_false_r; unfold ret; rewrite ?app_nil_r; try reflexivity.
  rewrite andb_true_r.
  destruct (String.eqb s ""); cbn [negb andb].
  - now rewrite app_nil_r.
  - destruct (existsSync (world h) _); cbn [negb].
    + now rewrite app_nil_r.
    + reflexivity.
Qed.

(** The result for a file that gray-matter splits, in a process whose
    working directory is there. *)
Lemma parsed_file_recorded h filePath schema contentType c text frontmatter content :
  cwd_error h = None ->
  existsSync (world h) filePath = true ->
  readFileSync (world h) filePath = Ok text ->
  fst (gray_matter h text c) = Ok (frontmatter, content) ->
  validateContentFile h filePath schema contentType c
  = (Ok (parsed_result (world h) filePath schema contentType frontmatter content),
     snd (gray_matter h text c)).
Proof.
  intros Hc H1 H2 H3.
  unfold validateContentFile, run_function.
  unfold bind at 1. unfold try_catch.
  unfold bind at 1. rewrite H1. cbn [negb when ret].
  unfold bind at 1. rewrite H2. unfold lift at 1.
  unfold bind at 1. unfold call. cbn [texts arrays].
  destruct (gray_matter h text c) as [[file|m] c1]; cbn [fst snd] in H3 |- *;
    [|discriminate].
  injection H3 as ->.
  unfold bind at 1.
  match goal with
  | |- context [when ?b (forEach ?xs ?body)] =>
      assert (Hpush : forall st,
                 when b (forEach xs body) st
                 = (Normal tt,
                    mkState
                      (mkAcc (acc_errors (arrays st)
                              ++ schema_errors (world h) filePath schema frontmatter)
                             (acc_warnings (arrays st)))
                      (texts st)))
  end.
  { intros st. unfold schema_errors.
    destruct (Zod.safeParse (is_email (world h)) (is_url (world h)) schema frontmatter)
      as [|issue issues]; [destruct st as [[es ws] c0]; cbn; now rewrite app_nil_r|].
    cbn [List.length Nat.eqb negb when]. apply forEach_push. }
  rewrite Hpush. clear Hpush. cbn [arrays texts acc_errors acc_warnings app].
  unfold bind at 1.
  match goal with
  | |- context [when ?b (when ?b' (push_warning ?x))] =>
      assert (Hbody : forall st,
                 when b (when b' (push_warning x)) st
                 = (Normal tt,
                    mkState
                      (mkAcc (acc_errors (arrays st))
                             (acc_warnings (arrays st)
                              ++ body_warnings filePath contentType content))
                      (texts st)))
  end.
  { intros [[es ws] c0]. unfold body_warnings, checks_body_length, short_content_warning, when.
    destruct (String.eqb contentType "project" || String.eqb contentType "publication"
              || String.eqb contentType "experience" || String.eqb contentType "education");
      destruct (negb (JS.truthy (VStr content))
                || Nat.ltb (String.length (JS.trim content)) 50);
      cbn [andb]; unfold push_warning, ret;
      cbn [arrays texts acc_errors acc_warnings]; rewrite ?app_nil_r; reflexivity. }
  rewrite Hbody. clear Hbody. cbn [arrays texts acc_errors acc_warnings app].
  unfold bind at 1. rewrite (host_check_asset_run h filePath frontmatter "image" _ Hc).
  unfold parsed_result.
  destruct (JS.get_prop frontmatter "image") as [v|msg] eqn:Eimg.
  - rewrite (host_check_asset_run h filePath frontmatter "logo" _ Hc).
    destruct (get_prop_ok_alike frontmatter "image" "logo" v Eimg) as [v' ->].
    cbn [arrays texts acc_errors acc_warnings return_result].
    unfold make_result. now rewrite <- app_assoc.
  - reflexivity.
Qed.

(** In a process whose working directory is there, a call of
    [validateContentFile] returns what the validator of [Validation] returns
    in the environment where the parser answers as gray-matter does at the
    time of the call. *)
Lemma file_call_agrees h filePath schema contentType c :
  cwd_error h = None ->
  fst (validateContentFile h filePath schema contentType c)
  = Validation.validateContentFile (answered h c) filePath schema contentType.
Proof.
  intros Hc. rewrite validateContentFile_eq. unfold file_result.
  cbn [answered existsSync readFileSync matter].
  destruct (existsSync (world h) filePath) eqn:H1;
    [|now rewrite (missing_file_recorded h filePath schema contentType c H1)].
  destruct (readFileSync (world h) filePath) as [text|msg] eqn:H2;
    [|now rewrite (unreadable_file_recorded h filePath schema contentType c msg H1 H2)].
  destruct (fst (gray_matter h text c)) as [[frontmatter content]|msg] eqn:H3.
  - rewrite (parsed_file_recorded h filePath schema contentType c text frontmatter content
               Hc H1 H2 H3).
    reflexivity.
  - now rewrite (rejected_file_recorded h filePath schema contentType c text msg H1 H2 H3).
Qed.

End Agreement.

Section ProcessFacts.
Import Blocks Closed Stateful Script Node.

Lemma isWatchMode_flag argv : isWatchMode argv = true <-> In "--watch" argv.
Proof.
  unfold isWatchMode. rewrite existsb_exists. split.
  - intros [x [Hin Hx]]. apply String.eqb_eq in Hx. now subst x.
  - intros Hin. exists "--watch". split; [exact Hin|reflexivity].
Qed.

Lemma plain_run_verdict h c :
  fst (Node.runValidation h false c)
  = if Node.passes h c then Returned true else Exited 1.
Proof.
  unfold Node.runValidation, Node.passes.
  destruct (Node.printContentSummary h) as [[]|msg]; [|reflexivity].
  destruct (validateAllContent h c) as [[r|msg] c']; cbn [fst]; [|reflexivity].
  now destruct (isValid r).
Qed.

Lemma watching_run_verdict h c :
  Node.runValidation h true c = (Returned (Node.passes h c), left_by h c).
Proof.
  unfold left_by, Node.runValidation, Node.passes.
  destruct (Node.printContentSummary h) as [[]|msg]; [|reflexivity].
  destruct (validateAllContent h c) as [[r|msg] c']; cbn [fst snd]; [|reflexivity].
  now destruct (isValid r).
Qed.

Lemma fails_does_not_pass h c : fails h c <-> Node.passes h c = false.
Proof.
  unfold fails, Node.passes. split.
  - intros [[msg ->]|[[msg H]|[r [H Hr]]]]; [reflexivity| |].
    + rewrite H. now destruct (Node.printContentSummary h).
    + rewrite H. now destruct (Node.printContentSummary h).
  - destruct (Node.printContentSummary h) as [[]|msg]; [|eauto].
    destruct (fst (validateAllContent h c)) as [r|msg]; [|eauto].
    intros Hr. right. right. eauto.
Qed.

Lemma triggers_md_change filename h :
  Node.triggers filename = Node.is_md_event (Change filename h).
Proof.
  unfold Node.triggers, Node.is_md_event. destruct filename as [filename|]; [|reflexivity].
  destruct (String.eqb filename "") eqn:E; [|reflexivity].
  apply String.eqb_eq in E. subst filename. reflexivity.
Qed.

Lemma watching_runs events : forall runs c,
  forallb is_change events = true ->
  Node.watch_loop true events runs c
  = Watching (runs ++ verdicts (filter Node.is_md_event events) c).
Proof.
  induction events as [|[filename h|msg] events IH]; intros runs c;
    cbn [forallb is_change andb]; [| |discriminate].
  - intros _. cbn. now rewrite app_nil_r.
  - intros Hall. cbn [Node.watch_loop filter].
    rewrite (triggers_md_change filename h).
    destruct (Node.is_md_event (Change filename h)).
    + rewrite watching_run_verdict, (IH _ _ Hall). cbn [verdicts].
      now rewrite <- app_assoc.
    + apply IH, Hall.
Qed.

Lemma watcher_error_ends changes msg rest : forall runs c,
  forallb is_change changes = true ->
  Node.watch_loop true (changes ++ WatcherError msg :: rest) runs c = Uncaught msg.
Proof.
  induction changes as [|[filename h|msg'] changes IH]; intros runs c;
    cbn [forallb is_change andb app]; [| |discriminate].
  - reflexivity.
  - intros Hall. cbn [Node.watch_loop].
    destruct (Node.triggers filename); [|now apply IH].
    rewrite watching_run_verdict. now apply IH.
Qed.

Lemma verdicts_of_md_events events : forall c,
  List.length (verdicts (filter Node.is_md_event events) c)
  = List.length (filter Node.is_md_event events).
Proof.
  induction events as [|[[filename|] h|msg] events IH]; intros c; cbn [filter Node.is_md_event];
    try apply IH; [reflexivity|].
  destruct (JS.endsWith filename ".md"); [|apply IH].
  cbn [verdicts List.length]. now rewrite IH.
Qed.

(** C5. Without [--watch], a failed validation (or a failure of the script
    itself) ends the process with status 1, a non-zero status, and a
    validation that passes ends it with status 0.  With [--watch], when the
    working directory is there and [fs.watch] starts the watcher, no
    validation ends the process: as long as the watcher reports no error it
    keeps watching, having run the validation once at start and once more
    for each change event that names a file ending in [.md], in the order of
    the events.  When [process.cwd()] or [fs.watch] throws, or the watcher
    reports an error, nothing catches it and the process ends. *)
Theorem cli_exits_or_keeps_watching (h : Host) (argv : list string) (events : list Event) :
  (~ In "--watch" argv ->
   (fails h [] -> Node.main argv h events = Exit 1 /\ (1 <> 0)%Z)
   /\ (Node.passes h [] = true -> Node.main argv h events = Exit 0))
  /\ (In "--watch" argv ->
      (forall msg, cwd_error h = Some msg -> Node.main argv h events = Uncaught msg)
      /\ (forall msg,
             cwd_error h = None ->
             fs_watch h (content_dir h) = Throw msg ->
             Node.main argv h events = Uncaught msg)
      /\ (cwd_error h = None ->
          fs_watch h (content_dir h) = Ok tt ->
          (forallb is_change events = true ->
           Node.main argv h events
           = Watching (Node.passes h []
                       :: verdicts (filter Node.is_md_event events) (left_by h []))
           /\ (fails h [] -> Node.passes h [] = false)
           /\ List.length (verdicts (filter Node.is_md_event events) (left_by h []))
              = List.length (filter Node.is_md_event events))
          /\ (forall changes msg rest,
                 forallb is_change changes = true ->
                 events = changes ++ WatcherError msg :: rest ->
                 Node.main argv h events = Uncaught msg))).
Proof.
  split.
  - intros Hflag.
    assert (Hw : isWatchMode argv = false).
    { destruct (isWatchMode argv) eqn:E; [|reflexivity].
      apply isWatchMode_flag in E. contradiction. }
    unfold Node.main. rewrite Hw.
    pose proof (plain_run_verdict h []) as Hrun.
    destruct (Node.runValidation h false []) as [o c']. cbn [fst] in Hrun. subst o.
    split.
    + intros Hf. apply fails_does_not_pass in Hf. rewrite Hf. split; [reflexivity|lia].
    + intros Hp. rewrite Hp. reflexivity.
  - intros Hflag. apply isWatchMode_flag in Hflag.
    unfold Node.main, Node.watchContent, process_cwd, content_dir. rewrite Hflag.
    split; [|split].
    + intros msg Hc. rewrite Hc. reflexivity.
    + intros msg Hc Hw. rewrite Hc, watching_run_verdict, Hw. reflexivity.
    + intros Hc Hw. rewrite Hc, watching_run_verdict, Hw. split.
      * intros Hall. rewrite (watching_runs events _ _ Hall). cbn [app].
        split; [reflexivity|]. split; [apply fails_does_not_pass|].
        apply verdicts_of_md_events.
      * intros changes msg rest Hall ->. now apply watcher_error_ends.
Qed.

End ProcessFacts.

(** The working directory of the process has been removed: the sample site
    cannot be reached, [validateCollection] and [validateAllContent]
    throw. *)
Lemma validator_throws_without_cwd :
  Node.cwd_error Node.removed = Some "ENOENT: no such file or directory, uv_cwd"
  /\ Node.validateCollection Node.removed "projects" Schemas.projectSchema []
     = (Throw "ENOENT: no such file or directory, uv_cwd", [])
  /\ Node.validateAllContent Node.removed []
     = (Throw "ENOENT: no such file or directory, uv_cwd", []).
Proof. split; [reflexivity|]. split; vm_compute; reflexivity. Qed.

Lemma validator_throws_only_without_cwd_witness :
  (exists r c,
      Node.validateAllContent (Node.sound Sample.site) [] = (Ok r, c))
  /\ Node.validateAllContent Node.removed []
     = (Throw "ENOENT: no such file or directory, uv_cwd", []).
Proof.
  split.
  - exact (proj2 (proj1 (proj2 (validator_throws_only_without_cwd
                                  (Node.sound Sample.site) [])) eq_refl)).
  - exact (proj2 (proj2 (proj2 (validator_throws_only_without_cwd Node.removed []))
                    "ENOENT: no such file or directory, uv_cwd" eq_refl)).
Defined.

(** Two files of a collection have the same malformed text: the first gets
    the parse error, and the second, answered from gray-matter's cache, the
    errors of the schema on an empty mapping and no parse error. *)
Lemma repeated_malformed_text_gets_no_parse_error :
  readFileSync (Node.world Node.twins) "/site/src/content/experience/b.md" = Ok "broken"
  /\ matter (Node.world Node.twins) "broken"
     = Throw "end of the stream or a document separator is expected"
  /\ exists r c,
       Node.validateCollection Node.twins "experience" Schemas.experienceSchema []
       = (Ok r, c)
       /\ map (fun e => (err_file e, err_field e, err_message e)) (errors r)
          = [ ("/site/src/content/experience/a.md", None,
               "Failed to parse file: end of the stream or a document separator is expected");
              ("/site/src/content/experience/b.md", Some "company", "Required");
              ("/site/src/content/experience/b.md", Some "position", "Required");
              ("/site/src/content/experience/b.md", Some "startDate", "Required");
              ("/site/src/content/experience/b.md", Some "location", "Required");
              ("/site/src/content/experience/b.md", Some "achievements", "Required") ].
Proof.
  split; [reflexivity|]. split; [reflexivity|].
  eexists; eexists. split; [vm_compute; reflexivity|]. vm_compute. reflexivity.
Qed.

Lemma parse_failure_continues_on_first_reading_witness :
  exists r c,
    Node.validateCollection (Node.sound Sample.site) "experience" Schemas.experienceSchema []
    = (Ok r, c)
    /\ errors r
       = [Closed.parse_error "/site/src/content/experience/broken.md"
            "end of the stream or a document separator is expected"]
    /\ warnings r
       = [mkWarning "/site/src/content/experience/ibm.md" None
            "experience content is very short (less than 50 characters). Consider adding more details."]
    /\ isValid r = false.
Proof.
  destruct (parse_failure_continues_on_first_reading (Node.sound Sample.site)
              "experience" Schemas.experienceSchema
              ["broken.md"; "ibm.md"] [] "broken.md" ["ibm.md"]
              "end of the stream or a document separator is expected" [])
    as [r [c [Hr [He [Hw Hv]]]]].
  - reflexivity.
  - reflexivity.
  - reflexivity.
  - reflexivity.
  - split; [reflexivity|]. right. exists "broken". split; reflexivity.
  - exists r, c. split; [exact Hr|]. split; [|split; [|exact Hv]].
    + rewrite He. vm_compute. reflexivity.
    + rewrite Hw. vm_compute. reflexivity.
Defined.

(** There is no [src/content] under the working directory and the script
    is started with [--watch]: the first validation fails, [fs.watch]
    throws, and the process ends. *)
Lemma watching_ends_when_watcher_cannot_start :
  In "--watch" ["node"; "scripts/validate-content.js"; "--watch"]
  /\ Node.runValidation Node.unwatchable true [] = (Script.Returned false, [])
  /\ Node.main ["node"; "scripts/validate-content.js"; "--watch"] Node.unwatchable []
     = Node.Uncaught "ENOENT: no such file or directory, watch '/site/src/content'".
Proof.
  split; [right; right; left; reflexivity|]. split; vm_compute; reflexivity.
Qed.

(** The sample site has a broken experience entry: a plain run exits with
    status 1; a watching run stays alive, and validates again when
    [ibm.md] changes (here into the tidy site) but not when a directory or
    a text file changes. *)
Lemma cli_exits_or_keeps_watching_witness :
  Node.main ["node"; "scripts/validate-content.js"] (Node.sound Sample.site) [] = Node.Exit 1
  /\ Node.main ["node"; "scripts/validate-content.js"; "--watch"] (Node.sound Sample.site)
       [ Node.Change (Some "experience") (Node.sound Sample.site);
         Node.Change None (Node.sound Sample.site);
         Node.Change (Some "experience/notes.txt") (Node.sound Sample.site);
         Node.Change (Some "experience/ibm.md") (Node.sound Sample.tidy) ]
     = Node.Watching [false; true].
Proof.
  split.
  - apply (cli_exits_or_keeps_watching (Node.sound Sample.site)
             ["node"; "scripts/validate-content.js"] []).
    + intros [H|[H|[]]]; discriminate H.
    + right. right. eexists. split; vm_compute; reflexivity.
  - destruct (cli_exits_or_keeps_watching (Node.sound Sample.site)
                ["node"; "scripts/validate-content.js"; "--watch"]
                [ Node.Change (Some "experience") (Node.sound Sample.site);
                  Node.Change None (Node.sound Sample.site);
                  Node.Change (Some "experience/notes.txt") (Node.sound Sample.site);
                  Node.Change (Some "experience/ibm.md") (Node.sound Sample.tidy) ])
      as [_ Hwatch].
    destruct (Hwatch (or_intror (or_intror (or_introl eq_refl)))) as [_ [_ Hkeeps]].
    destruct (Hkeeps eq_refl eq_refl) as [Hruns _].
    destruct (Hruns eq_refl) as [-> _]. vm_compute. reflexivity.
Defined.

Lemma middleware_fails_on_errors_in_production_witness :
  Node.buildStart Node.removed false []
  = (Throw "ENOENT: no such file or directory, uv_cwd", [])
  /\ fst (Node.buildStart (Node.sound Sample.site) false []) = Ok tt
  /\ fst (Node.buildStart (Node.sound Sample.site) true [])
     = Throw "Content validation failed. Cannot proceed with production build.".
Proof.
  split.
  - exact (proj2 (proj1 (middleware_fails_on_errors_in_production Node.removed [])
                    "ENOENT: no such file or directory, uv_cwd" eq_refl) false).
  - destruct (proj2 (middleware_fails_on_errors_in_production (Node.sound Sample.site) [])
                eq_refl) as [r [c [Hr [_ [_ [Hf [_ Ht]]]]]]].
    rewrite Hf. split; [reflexivity|]. rewrite Ht; [reflexivity|].
    assert (He : Terms.errors_of (fst (Node.validateAllContent (Node.sound Sample.site) []))
                 <> []) by (vm_compute; discriminate).
    rewrite Hr in He. exact He.
Defined.
